(** * RFP Response Assistant: front end, embedder scripts and retrieval layer

  A shallow embedding of
    - [static/main.js]  (upload handlers, section strength, metadata
      display, sources table),
    - [static/chat.js]  (the chat widget),
    - [embed_knowledge.sh], [services/embed_knowledge.sh],
      [embed_knowledge.bat]  (the embedder invocation scripts),
  together with the retrieval kernel ([chunk], [search]) that the
  design document describes and whose Python sources are not part of
  the tree.

  A JavaScript string is modelled as the [string] of its code units, each
  below 256: the classes of code units that the code tests (white space,
  line terminators, word characters) are their members below 256, and a
  text with a code unit above 255 is outside the model. The counters that
  the code increments from [0] are [nat], JSON numbers are [Z] (integers
  of magnitude below 1e21, which print in full) and relevance scores are
  binary64 [float]. *)

From Stdlib Require Import String Ascii List ZArith Lia Bool Arith.
From Stdlib Require Import DecimalString PrimFloat QArith Permutation Sorted.
From Stdlib Require FloatOps SpecFloat.
From Equations Require Import Equations.
Import ListNotations.
Close Scope Q_scope.
#[local] Set Warnings "-register-all".
Local Open Scope string_scope.

(* ===================================================================== *)
(** ** main.js: section strength (renderResponseStructure)               *)
(* ===================================================================== *)

Module Strength.

(** A question as [renderResponseStructure] reads it. A missing field is
    [None]. *)
Record Question := {
  response_section : option string;
  type : option string;
  original_text : option string
}.

(** The per-section accumulator created at main.js:529. *)
Record SectionInfo := {
  title : string;
  questions : list Question;
  requirementCount : nat;
  strategicCount : nat
}.

Definition str_is (o : option string) (s : string) : bool :=
  match o with Some x => String.eqb x s | None => false end.

(** main.js:538 *)
Definition isStrategic (q : Question) : bool :=
  str_is (type q) "Strategic" || str_is (original_text q) "STRATEGIC ADDITION".

(** A fresh section, main.js:529-534. *)
Definition new_section (t : string) : SectionInfo :=
  {| title := t; questions := []; requirementCount := 0; strategicCount := 0 |}.

(** main.js:538-546: count the question and push it. *)
Definition track (q : Question) (s : SectionInfo) : SectionInfo :=
  {| title := title s;
     questions := questions s ++ [q];
     requirementCount :=
       if isStrategic q then requirementCount s else S (requirementCount s);
     strategicCount :=
       if isStrategic q then S (strategicCount s) else strategicCount s |}.

(** The [sections] object keyed by section name, in insertion order. *)
Fixpoint update (t : string) (q : Question) (secs : list SectionInfo)
  : list SectionInfo :=
  match secs with
  | [] => [track q (new_section t)]
  | s :: rest =>
      if String.eqb (title s) t then track q s :: rest
      else s :: update t q rest
  end.

(** The body of the [forEach] at main.js:526-548. The empty string is
    falsy, so a question with an empty section name is skipped. *)
Definition add_question (secs : list SectionInfo) (q : Question)
  : list SectionInfo :=
  match response_section q with
  | None => secs
  | Some t => if String.eqb t "" then secs else update t q secs
  end.

Definition collect (qs : list Question) : list SectionInfo :=
  fold_left add_question qs [].

(** main.js:633-635. *)
Definition totalQuestions (s : SectionInfo) : Z :=
  (Z.of_nat (requirementCount s) + Z.of_nat (strategicCount s))%Z.

Definition hasStrategic (s : SectionInfo) : bool :=
  (0 <? Z.of_nat (strategicCount s))%Z.

Definition strengthPercent (s : SectionInfo) : Z :=
  if (totalQuestions s =? 0)%Z then 0%Z
  else Z.min 100 (totalQuestions s * 10 + (if hasStrategic s then 30 else 0))%Z.

End Strength.

(* ===================================================================== *)
(** ** main.js: upload handlers                                          *)
(* ===================================================================== *)

Module Upload.

Record File := { name : string; type : string }.

(** What a handler does that is visible outside it. *)
Inductive Action :=
| CallUploadFile (f : File)
| Alert (msg : string).

Inductive Request :=
| Post (url : string) (body : File).

Definition api_upload : string := "/api/upload".

Definition pdf : string := "application/pdf".
Definition docx : string :=
  "application/vnd.openxmlformats-officedocument.wordprocessingml.document".

(** main.js:189-192. *)
Definition validTypes : list string := [pdf; docx].

Definition includes (l : list string) (s : string) : bool :=
  existsb (String.eqb s) l.

Definition isValidFileType (f : File) : bool := includes validTypes (type f).

(** The guard written out in both handlers (main.js:165 and main.js:179);
    [files[0]] of an empty list is [undefined]. *)
Definition accepted (file : option File) : bool :=
  match file with
  | Some f => String.eqb (type f) pdf || String.eqb (type f) docx
  | None => false
  end.

Definition handle (file : option File) : list Action :=
  match file with
  | Some f =>
      if accepted file then [CallUploadFile f]
      else [Alert "Please upload a PDF or DOCX file"]
  | None => [Alert "Please upload a PDF or DOCX file"]
  end.

(** main.js:156-172; [files] is [e.dataTransfer.files]. *)
Definition handleDrop (files : list File) : list Action :=
  handle (hd_error files).

(** main.js:174-186; [files] is [e.target.files]. *)
Definition handleFileSelect (files : list File) : list Action :=
  handle (hd_error files).

(** The request [uploadFile] sends (main.js:209); alerts send none. *)
Definition requests_of (a : Action) : list Request :=
  match a with
  | CallUploadFile f => [Post api_upload f]
  | Alert _ => []
  end.

Definition requests (acts : list Action) : list Request :=
  flat_map requests_of acts.

Definition valid_mime (t : string) : Prop := t = pdf \/ t = docx.

(** The file a handler looks at is invalid: absent, or of another type. *)
Definition invalid_input (files : list File) : Prop :=
  match hd_error files with
  | None => True
  | Some f => ~ valid_mime (type f)
  end.

End Upload.

(* ===================================================================== *)
(** ** JavaScript values as they arrive from JSON                        *)
(* ===================================================================== *)

Module Js.

(** JSON data after [response.json()]. Numbers are restricted to integers;
    an object keeps its properties in enumeration order, with distinct
    keys. *)
Inductive value :=
| VUndefined
| VNull
| VBool (b : bool)
| VNum (n : Z)
| VStr (s : string)
| VArr (items : list value)
| VObj (props : list (string * value)).

(** ToBoolean. *)
Definition truthy (v : value) : bool :=
  match v with
  | VUndefined | VNull => false
  | VBool b => b
  | VNum n => negb (n =? 0)%Z
  | VStr s => negb (String.eqb s "")
  | VArr _ | VObj _ => true
  end.

(** [a || b] *)
Definition or_else (a b : value) : value := if truthy a then a else b.

Fixpoint lookup (k : string) (props : list (string * value)) : value :=
  match props with
  | [] => VUndefined
  | (k', v) :: rest => if String.eqb k' k then v else lookup k rest
  end.

(** [v.k] for the property names the program reads (never an array index,
    never [length]); a primitive or an array has none of them. *)
Definition prop (v : value) (k : string) : value :=
  match v with
  | VObj props => lookup k props
  | _ => VUndefined
  end.

(** [Number::toString] of an integer of magnitude below [1e21], which
    prints in full; fractions and larger numbers are outside the model. *)
Definition number_to_string (n : Z) : string :=
  DecimalString.NilZero.string_of_int (Z.to_int n).

(** ToString; an array is its elements joined by [","], where [null] and
    [undefined] elements render as the empty string. *)
Fixpoint ToString (v : value) : string :=
  match v with
  | VUndefined => "undefined"
  | VNull => "null"
  | VBool true => "true"
  | VBool false => "false"
  | VNum n => number_to_string n
  | VStr s => s
  | VArr items =>
      String.concat ","
        (map (fun x => match x with
                       | VUndefined | VNull => ""
                       | _ => ToString x
                       end) items)
  | VObj _ => "[object Object]"
  end.

(** The text [Array.prototype.join] uses for one element. *)
Definition element_text (x : value) : string :=
  match x with
  | VUndefined | VNull => ""
  | _ => ToString x
  end.

(** [arr.join(sep)] *)
Definition join (sep : string) (arr : list value) : string :=
  String.concat sep (map element_text arr).

(** [Object.values(v)] for an object or an array. *)
Definition values (v : value) : list value :=
  match v with
  | VObj props => map snd props
  | VArr items => items
  | _ => []
  end.

(** [Object.entries(v)] for an object. *)
Definition entries (v : value) : list (string * value) :=
  match v with
  | VObj props => props
  | _ => []
  end.

End Js.

(* ===================================================================== *)
(** ** main.js: getDisplayValue (renderMetadata)                         *)
(* ===================================================================== *)

Module Metadata.
Import Js.

(** The callback of [value.map] at main.js:787-798. *)
Definition item_display (item : value) : value :=
  match item with
  | VArr _ | VObj _ =>
      if truthy (prop item "name") || truthy (prop item "title")
         || truthy (prop item "id")
      then or_else (prop item "name")
             (or_else (prop item "title") (prop item "id"))
      else VStr (join ", " (values item))
  | _ => VStr (ToString item)
  end.

(** [displayStr += `, ${x}`] when [x] is truthy (main.js:805-806). *)
Definition append_if (acc x : value) : value :=
  if truthy x then VStr (ToString acc ++ ", " ++ ToString x) else acc.

(** [if (x) parts.push(x)] (main.js:812-814). *)
Definition push_if (parts : list value) (x : value) : list value :=
  if truthy x then parts ++ [x] else parts.

(** main.js:771-838. The result is what the function returns, which is
    the [name] property itself when only that branch fires. *)
Definition getDisplayValue (value : value) : Js.value :=
  match value with
  | VUndefined | VNull => VStr ""
  | VStr s => VStr s
  | VArr items => VStr (join ", " (map item_display items))
  | VObj _ =>
      if truthy (prop value "name") then
        append_if (append_if (prop value "name") (prop value "role"))
                  (prop value "email")
      else if truthy (prop value "contact") || truthy (prop value "email")
              || truthy (prop value "phone") then
        VStr (join ", "
                (push_if (push_if (push_if [] (prop value "contact"))
                                  (prop value "email"))
                         (prop value "phone")))
      else if (List.length (entries value) <=? 3)%nat then
        VStr (String.concat ", "
                (map (fun kv => fst kv ++ ": " ++ ToString (snd kv))
                     (entries value)))
      else VStr (join ", " (values value))
  | VBool _ | VNum _ => VStr (ToString value)
  end.

(** The text that reaches the page: every caller writes
    [`${getDisplayValue(value)}`] into the markup. *)
Definition displayed (value : value) : string :=
  ToString (getDisplayValue value).

(** [occurs p s]: the text [p] appears inside [s]. *)
Definition occurs (p s : string) : Prop :=
  exists pre post, s = pre ++ p ++ post.

Definition object_Object : string := "[object Object]".

(** No mapping anywhere inside [v]. *)
Fixpoint object_free (v : value) : bool :=
  match v with
  | VObj _ => false
  | VArr items => forallb object_free items
  | _ => true
  end.

Definition flat_props (props : list (string * value)) : bool :=
  forallb (fun kv => object_free (snd kv)) props.

(** One item of a top-level list: a mapping without a mapping among its
    values, or a value without any mapping. *)
Definition shallow_item (it : value) : bool :=
  match it with
  | VObj props => flat_props props
  | _ => object_free it
  end.

(** Mappings occur at the top or as direct items of a top-level list
    only, and their own values hold no mapping. *)
Definition shallow (v : value) : bool :=
  match v with
  | VObj props => flat_props props
  | VArr items => forallb shallow_item items
  | _ => true
  end.

(** The strings and the keys inside [v]. *)
Fixpoint texts (v : value) : list string :=
  match v with
  | VStr s => [s]
  | VArr items => flat_map texts items
  | VObj props => flat_map (fun kv => fst kv :: texts (snd kv)) props
  | _ => []
  end.

Definition has_char (c : ascii) (s : string) : Prop :=
  In c (list_ascii_of_string s).

(** [absent s]: the default object rendering does not appear in [s]. *)
Definition absent (s : string) : Prop := ~ occurs object_Object s.

(** [plain v]: no mapping inside [v], and none of its strings shows the
    default object rendering. *)
Definition plain (v : value) : Prop :=
  object_free v = true /\ Forall absent (texts v).

End Metadata.

(* ===================================================================== *)
(** ** The source records of /api/chat and /api/generate responses       *)
(* ===================================================================== *)

Module Api.

(** One retrieved passage as the server reports it. An absent or [null]
    field is [None]. *)
Record Source := {
  source : option string;
  score : float;
  text : option string
}.

(** [label || fallback] on a string that may be missing: the empty string
    is falsy. *)
Definition or_default (label : option string) (fallback : string) : string :=
  match label with
  | Some s => if String.eqb s "" then fallback else s
  | None => fallback
  end.

(** [t ? t.substring(0, 100) + '...' : fallback] *)
Definition preview (t : option string) (fallback : string) : string :=
  match t with
  | Some s => if String.eqb s "" then fallback else substring 0 100 s ++ "..."
  | None => fallback
  end.

End Api.

(* ===================================================================== *)
(** ** chat.js: the chat widget                                          *)
(* ===================================================================== *)

Module Chat.
Import Api.

(** A child of [#chat-messages]. *)
Inductive Node :=
| MessageNode (type text : string) (sources_display : string)
              (sources_list : list string)
| LoadingNode (id : string).

Record Message := {
  msg_text : string;
  msg_type : string;
  msg_sources : list Source
}.

(** chat.js:6-10. *)
Record ChatState := {
  isOpen : bool;
  messages : list Message;
  loading : bool
}.

Record Request := {
  url : string;
  method : string;
  body_message : string      (* JSON.stringify({ message }) *)
}.

(** Where a suspended call of [sendChatMessage] waits. *)
Inductive Stage :=
| AwaitFetch                 (* await fetch(...)        chat.js:85 *)
| AwaitJson.                 (* await response.json()   chat.js:97 *)

Record World := {
  chatState : ChatState;
  chatMessages : list Node;        (* elements.chatMessages children *)
  chatInput : string;              (* elements.chatInput.value *)
  requests : list Request;         (* every fetch issued so far *)
  suspended : list Stage;          (* calls waiting at an await *)
  console : list string            (* console.error output *)
}.

(** The body of a /api/chat answer, as the server's response schema gives
    it: an absent or [null] field is [None]. *)
Record ChatData := {
  response_text : option string;
  sources : option (list Source)
}.

(** [fetch] rejects on a network error and otherwise resolves with the
    status of the response. *)
Inductive FetchOutcome :=
| FetchRejected (error : string)
| FetchResponse (status : nat).

(** [response.ok]: the status is in the range 200-299. *)
Definition response_ok (status : nat) : bool :=
  (200 <=? status)%nat && (status <=? 299)%nat.

Inductive JsonOutcome :=
| JsonRejected (error : string)
| JsonResolved (data : ChatData).

Definition chatAPI : string := "/api/chat".

Definition initial : World :=
  {| chatState := {| isOpen := false; messages := []; loading := false |};
     chatMessages := []; chatInput := ""; requests := [];
     suspended := []; console := [] |}.

(** *** String.prototype.trim

    The white space and the line terminators that [trim] strips, among the
    code units below 256: TAB, LF, VT, FF, CR, SP and NBSP. *)

Definition is_space (c : ascii) : bool :=
  match nat_of_ascii c with
  | 9 | 10 | 11 | 12 | 13 | 32 | 160 => true
  | _ => false
  end.

Fixpoint trim_start (l : list ascii) : list ascii :=
  match l with
  | c :: rest => if is_space c then trim_start rest else l
  | [] => []
  end.

Definition trim (s : string) : string :=
  string_of_list_ascii
    (rev (trim_start (rev (trim_start (list_ascii_of_string s))))).

(** An input of white space only: a space, a tab and a no-break space. *)
Definition blank_input : string :=
  String " " (String (ascii_of_nat 9) (String (ascii_of_nat 160) "")).

(** *** State updates *)

Definition set_loading (b : bool) (w : World) : World :=
  {| chatState := {| isOpen := isOpen (chatState w);
                     messages := messages (chatState w);
                     loading := b |};
     chatMessages := chatMessages w; chatInput := chatInput w;
     requests := requests w; suspended := suspended w;
     console := console w |}.

Definition set_input (s : string) (w : World) : World :=
  {| chatState := chatState w; chatMessages := chatMessages w;
     chatInput := s; requests := requests w; suspended := suspended w;
     console := console w |}.

Definition set_suspended (l : list Stage) (w : World) : World :=
  {| chatState := chatState w; chatMessages := chatMessages w;
     chatInput := chatInput w; requests := requests w; suspended := l;
     console := console w |}.

Definition console_error (e : string) (w : World) : World :=
  {| chatState := chatState w; chatMessages := chatMessages w;
     chatInput := chatInput w; requests := requests w;
     suspended := suspended w; console := console w ++ [e] |}.

Definition fetch (r : Request) (w : World) : World :=
  {| chatState := chatState w; chatMessages := chatMessages w;
     chatInput := chatInput w; requests := requests w ++ [r];
     suspended := suspended w ++ [AwaitFetch]; console := console w |}.

(** chat.js:54-63, the state part. *)
Definition toggleChat (w : World) : World :=
  {| chatState := {| isOpen := negb (isOpen (chatState w));
                     messages := messages (chatState w);
                     loading := loading (chatState w) |};
     chatMessages := chatMessages w; chatInput := chatInput w;
     requests := requests w; suspended := suspended w;
     console := console w |}.

(** chat.js:145: one entry of the sources list. *)
Definition source_item (s : Source) : string :=
  "<strong>" ++ or_default (source s) "Unknown" ++ ":</strong> "
  ++ preview (text s) "No text available".

(** chat.js:138-151: the [display] style of the sources container. *)
Definition sources_display_of (srcs : list Source) : string :=
  match srcs with
  | [] => "none"
  | _ :: _ => "block"
  end.

Definition message_node (text type : string) (srcs : list Source) : Node :=
  MessageNode type text (sources_display_of srcs) (map source_item srcs).

(** chat.js:123-165. *)
Definition addChatMessage (text type : string) (srcs : list Source)
           (w : World) : World :=
  {| chatState :=
       {| isOpen := isOpen (chatState w);
          messages := messages (chatState w)
                      ++ [{| msg_text := text; msg_type := type;
                             msg_sources := srcs |}];
          loading := loading (chatState w) |};
     chatMessages := chatMessages w ++ [message_node text type srcs];
     chatInput := chatInput w; requests := requests w;
     suspended := suspended w; console := console w |}.

(** chat.js:168-174. *)
Definition showChatLoading (w : World) : World :=
  {| chatState := chatState w;
     chatMessages := chatMessages w ++ [LoadingNode "current-loading"];
     chatInput := chatInput w; requests := requests w;
     suspended := suspended w; console := console w |}.

Definition is_current_loading (n : Node) : bool :=
  match n with
  | LoadingNode id => String.eqb id "current-loading"
  | MessageNode _ _ _ _ => false
  end.

(** [getElementById] finds the first node with the id; it is removed. *)
Fixpoint remove_first_loading (l : list Node) : list Node :=
  match l with
  | [] => []
  | n :: rest =>
      if is_current_loading n then rest else n :: remove_first_loading rest
  end.

(** chat.js:177-182. *)
Definition removeChatLoading (w : World) : World :=
  {| chatState := chatState w;
     chatMessages := remove_first_loading (chatMessages w);
     chatInput := chatInput w; requests := requests w;
     suspended := suspended w; console := console w |}.

Definition failure_text : string :=
  "Sorry, there was an error processing your request. Please try again.".

Definition no_response_text : string :=
  "Sorry, I was unable to generate a response. Please try again.".

(** chat.js:66-91: the call up to its first [await]. *)
Definition sendChatMessage (w : World) : World :=
  let message := trim (chatInput w) in
  if String.eqb message "" || loading (chatState w) then w
  else
    let w := addChatMessage message "user" [] w in
    let w := set_input "" w in
    let w := showChatLoading w in
    let w := set_loading true w in
    fetch {| url := chatAPI; method := "POST"; body_message := message |} w.

(** The call at position [i] leaves the list of suspended calls. *)
Fixpoint remove_nth {A : Type} (i : nat) (l : list A) : list A :=
  match l, i with
  | [], _ => []
  | _ :: rest, O => rest
  | x :: rest, S j => x :: remove_nth j rest
  end.

Fixpoint replace_nth {A : Type} (i : nat) (a : A) (l : list A) : list A :=
  match l, i with
  | [], _ => []
  | _ :: rest, O => a :: rest
  | x :: rest, S j => x :: replace_nth j a rest
  end.

(** chat.js:110-119: the [catch] block, ending call [i]. *)
Definition catch_block (i : nat) (error : string) (w : World) : World :=
  let w := set_suspended (remove_nth i (suspended w)) w in
  let w := console_error error w in
  let w := removeChatLoading w in
  let w := set_loading false w in
  addChatMessage failure_text "system" [] w.

Definition status_error (status : nat) : string :=
  "Error: " ++ NilZero.string_of_uint (Nat.to_uint status).

(** chat.js:85-95: call [i] resumes after [await fetch]. *)
Definition resume_fetch (i : nat) (o : FetchOutcome) (w : World) : World :=
  match nth_error (suspended w) i with
  | Some AwaitFetch =>
      match o with
      | FetchRejected e => catch_block i e w
      | FetchResponse status =>
          if negb (response_ok status)
          then catch_block i (status_error status) w
          else set_suspended (replace_nth i AwaitJson (suspended w)) w
      end
  | _ => w
  end.

(** [data.sources] handed to a parameter with the default [[]]. *)
Definition sources_or_empty (d : ChatData) : list Source :=
  match sources d with Some l => l | None => [] end.

(** chat.js:97-109: call [i] resumes after [await response.json()]. *)
Definition resume_json (i : nat) (o : JsonOutcome) (w : World) : World :=
  match nth_error (suspended w) i with
  | Some AwaitJson =>
      match o with
      | JsonRejected e => catch_block i e w
      | JsonResolved data =>
          let w := set_suspended (remove_nth i (suspended w)) w in
          let w := removeChatLoading w in
          let w := set_loading false w in
          match response_text data with
          | Some t =>
              if String.eqb t ""
              then addChatMessage no_response_text "system" [] w
              else addChatMessage t "system" (sources_or_empty data) w
          | None => addChatMessage no_response_text "system" [] w
          end
      end
  | _ => w
  end.

(** What can happen to the widget. An event is one run of a handler: a
    click runs the handler once for every time [initChat] registered it,
    and each run is an event of its own. *)
Inductive Event :=
| UserTypes (s : string)
| SendRequested                       (* one run of sendChatMessage *)
| ToggleClicked                       (* one run of toggleChat *)
| FetchSettled (i : nat) (o : FetchOutcome)
| JsonSettled (i : nat) (o : JsonOutcome).

Definition step (w : World) (e : Event) : World :=
  match e with
  | UserTypes s => set_input s w
  | SendRequested => sendChatMessage w
  | ToggleClicked => toggleChat w
  | FetchSettled i o => resume_fetch i o w
  | JsonSettled i o => resume_json i o w
  end.

Definition run (events : list Event) : World := fold_left step events initial.

(** Requests whose answer has not been fully handled yet. *)
Definition in_flight (w : World) : nat := List.length (suspended w).

Definition count_loading (w : World) : nat :=
  List.length (filter is_current_loading (chatMessages w)).

(** A failed request: the network error, or a status outside 200-299. *)
Definition failed (o : FetchOutcome) : Prop :=
  match o with
  | FetchRejected _ => True
  | FetchResponse status => response_ok status = false
  end.

(** The widget is idle, or exactly one call is suspended and exactly one
    loading indicator is shown. *)
Definition inv (w : World) : Prop :=
  (loading (chatState w) = false /\ suspended w = [] /\ count_loading w = 0)
  \/ (loading (chatState w) = true /\ count_loading w = 1
      /\ exists st, suspended w = [st]).

End Chat.

(* ===================================================================== *)
(** ** main.js: the sources table of renderResponses                     *)
(* ===================================================================== *)

Module Responses.
Import Api.








Section Render.

(** [Number::toString] of a finite number of magnitude [1e21] or more,
    supplied by the JavaScript runtime. *)
Variable toString_large : float -> string.




End Render.


End Responses.

(* ===================================================================== *)
(** ** The embedder invocation scripts                                   *)
(* ===================================================================== *)

Module Shell.

(** Shell variables; the process environment initialises them. *)
Definition Env := string -> option string.

(** How a script is started. *)
Record Invocation := {
  environment : Env;
  arguments : list string
}.

Inductive Effect :=
| Exec (argv : list string)
| Echo (line : string).

Record Sh := {
  vars : Env;
  output : list Effect
}.

Definition cmd (A : Type) : Type := Sh -> A * Sh.

Definition ret {A : Type} (a : A) : cmd A := fun s => (a, s).

Definition bind {A B : Type} (c : cmd A) (k : A -> cmd B) : cmd B :=
  fun s => let (a, s') := c s in k a s'.

Notation "x <- c ;; k" := (bind c (fun x => k))
  (at level 61, c at next level, right associativity).
Notation "c ;; k" := (bind c (fun _ => k))
  (at level 61, right associativity).

(** [x=v] *)
Definition assign (x v : string) : cmd unit :=
  fun s => (tt, {| vars := fun y => if String.eqb y x then Some v
                                    else vars s y;
                   output := output s |}).

(** ["$x"]: the empty string when unset. *)
Definition expand (x : string) : cmd string :=
  fun s => (match vars s x with Some v => v | None => "" end, s).

Definition exec (argv : list string) : cmd unit :=
  fun s => (tt, {| vars := vars s; output := (output s ++ [Exec argv])%list |}).

Definition echo (line : string) : cmd unit :=
  fun s => (tt, {| vars := vars s; output := (output s ++ [Echo line])%list |}).

Definition run (script : cmd unit) (inv : Invocation) : list Effect :=
  output (snd (script {| vars := environment inv; output := [] |})).

Definition pip_install : list string :=
  ["pip"; "install"; "-q"; "langchain"; "langchain-community";
   "langchain-openai"; "faiss-cpu"; "pypdf"; "docx2txt"; "unstructured";
   "tiktoken"].

Definition deployment_root : string :=
  "/Users/u1112870/Library/CloudStorage/OneDrive-IQVIA/Ananth/Personal/Arokia_sir".

(** services/embed_knowledge.sh. Neither [$1], [$2] nor an inherited
    variable is read. *)
Definition services_embed_knowledge_sh (inv : Invocation) : list Effect :=
  run (assign "SOURCE_DIR" (deployment_root ++ "/Responses") ;;
       assign "OUTPUT_DIR" (deployment_root ++ "/rfp-data") ;;
       out <- expand "OUTPUT_DIR" ;;
       exec ["mkdir"; "-p"; out] ;;
       echo "Checking required packages..." ;;
       exec pip_install ;;
       echo "Starting knowledge base embedding process..." ;;
       src <- expand "SOURCE_DIR" ;;
       echo ("Source directory: " ++ src) ;;
       out <- expand "OUTPUT_DIR" ;;
       echo ("Output directory: " ++ out) ;;
       src <- expand "SOURCE_DIR" ;;
       out <- expand "OUTPUT_DIR" ;;
       exec ["python";
             deployment_root ++ "/rfp-assistant/utils/knowledge_embedder.py";
             src; out] ;;
       echo "Embedding process complete!" ;;
       echo "Knowledge base is now ready for use with the RFP Assistant.")
      inv.

(** embed_knowledge.sh. *)
Definition embed_knowledge_sh (inv : Invocation) : list Effect :=
  run (assign "SOURCE_DIR" "../Responses" ;;
       assign "OUTPUT_DIR" "../rfp-data" ;;
       out <- expand "OUTPUT_DIR" ;;
       exec ["mkdir"; "-p"; out] ;;
       echo "Checking required packages..." ;;
       exec pip_install ;;
       echo "Starting knowledge base embedding process..." ;;
       src <- expand "SOURCE_DIR" ;;
       echo ("Source directory: " ++ src) ;;
       out <- expand "OUTPUT_DIR" ;;
       echo ("Output directory: " ++ out) ;;
       src <- expand "SOURCE_DIR" ;;
       out <- expand "OUTPUT_DIR" ;;
       exec ["python"; "./utils/knowledge_embedder.py"; src; out] ;;
       echo "Embedding process complete!" ;;
       echo "Knowledge base is now ready for use with the RFP Assistant.")
      inv.

Definition dquote : string := String (ascii_of_nat 34) "".

Definition quoted (s : string) : string := dquote ++ s ++ dquote.

(** The argument a program sees for a command-line word: one pair of
    enclosing double quotes is dropped. *)
Definition unquote (s : string) : string :=
  match s with
  | String c rest =>
      if Ascii.eqb c (ascii_of_nat 34) then
        match rev (list_ascii_of_string rest) with
        | d :: body =>
            if Ascii.eqb d (ascii_of_nat 34)
            then string_of_list_ascii (rev body) else s
        | [] => s
        end
      else s
  | EmptyString => s
  end.

(** embed_knowledge.bat: [set X="v"] keeps the quotes in the value, [%X%]
    pastes it into the command line, and [mkdir -p OUTPUT_DIR] receives
    the two literal words. *)
Definition embed_knowledge_bat (inv : Invocation) : list Effect :=
  run (assign "SOURCE_DIR" (quoted "../Responses") ;;
       assign "OUTPUT_DIR" (quoted "../rfp-data") ;;
       exec ["mkdir"; "-p"; "OUTPUT_DIR"] ;;
       echo (quoted "Checking required packages...") ;;
       exec pip_install ;;
       src <- expand "SOURCE_DIR" ;;
       out <- expand "OUTPUT_DIR" ;;
       exec ["python"; "../rfp-assistant/utils/knowledge_embedder.py";
             unquote src; unquote out] ;;
       echo (quoted "Embedding process complete!") ;;
       echo (quoted "Knowledge base is now ready for use with the RFP Assistant."))
      inv.

(** The source and output directory handed to [knowledge_embedder.py]. *)
Fixpoint embedder_dirs (effects : list Effect) : option (string * string) :=
  match effects with
  | [] => None
  | Exec [prog; script; src; out] :: rest =>
      if String.eqb prog "python" then Some (src, out)
      else embedder_dirs rest
  | _ :: rest => embedder_dirs rest
  end.

(** The directories of the embedder run are set by whoever invokes the
    script: every choice of directories is reachable by some invocation. *)
Definition externally_supplied (script : Invocation -> list Effect) : Prop :=
  forall src out : string,
    exists inv, embedder_dirs (script inv) = Some (src, out).

(** An invocation that supplies directories of its own. *)
Definition some_invocation : Invocation :=
  {| environment := fun x =>
       if String.eqb x "SOURCE_DIR" then Some "/srv/docs"
       else if String.eqb x "OUTPUT_DIR" then Some "/srv/index"
       else None;
     arguments := ["/srv/docs"; "/srv/index"] |}.

End Shell.

(* ===================================================================== *)
(** ** The embedder's chunking (utils/knowledge_embedder.py)             *)
(* ===================================================================== *)

Module Embedder.

(** A contiguous slice of a source document. *)
Record Chunk := {
  chunk_id : string * nat;        (* parent identity and start offset *)
  parent : string;
  ordinal : nat;
  text : string
}.

(** Modelled from the spec: the sliding window behind [chunk] (section
    4.1). The windows of [s] have width [size], their starts are [S step]
    apart from [offset] on, and the last one is the first that reaches the
    end. *)
Equations? windows (s : string) (size step : nat) (offset : nat)
  : list (nat * string) by wf (String.length s - offset) lt :=
  windows s size step offset
    with le_lt_dec (String.length s) (offset + size) := {
    | left _ => [(offset, substring offset size s)]
    | right _ =>
        (offset, substring offset size s)
        :: windows s size step (offset + S step) }.
Proof. lia. Qed.

Fixpoint number (doc : string) (n : nat) (ws : list (nat * string))
  : list Chunk :=
  match ws with
  | [] => []
  | (off, t) :: rest =>
      {| chunk_id := (doc, off); parent := doc; ordinal := n; text := t |}
      :: number doc (S n) rest
  end.

(** Modelled from the spec: [chunk(documentText, maxChunkSize, overlapSize)]
    of the embedder, whose Python source is not in the tree. Section 4.1:
    each chunk after the first begins [overlapSize] characters before the
    previous chunk's end; a document no longer than [maxChunkSize] yields
    exactly one chunk. Under the contract [overlapSize < maxChunkSize] the
    distance between two starts, [S (maxChunkSize - overlapSize - 1)], is
    [maxChunkSize - overlapSize]. *)
Definition chunk (doc : string) (documentText : string)
           (maxChunkSize overlapSize : nat) : list Chunk :=
  number doc 0
    (windows documentText maxChunkSize (maxChunkSize - overlapSize - 1) 0).

End Embedder.

(* ===================================================================== *)
(** ** The retriever's search (services/knowledge.py)                    *)
(* ===================================================================== *)

Module Retriever.
Import Embedder.

Definition ChunkId : Type := string * nat.

Inductive Strategy :=
| Primary          (* similarity_search_with_score *)
| Normalized       (* similarity_search_with_relevance_scores *)
| Bare.            (* similarity_search *)

Inductive Failure :=
| InputValidation
| NotInitialized
| ProviderFailure
| SearchFailure
| StoreMismatch.

(** What the retriever does outside its own memory. *)
Inductive IO :=
| LoadIndex
| EmbedQuery (queryText : string)
| IndexSearch (s : Strategy)
| StoreLookup (id : ChunkId)
| Served (s : Strategy).

Record QueryResult := {
  chunk : Chunk;
  relevance : Q;
  source_label : string
}.

(** Modelled from the spec: the default score that the bare search gives
    the hit at rank [i] (section 4.2, step 2b, a "default descending
    rank-based score"). The spec fixes no formula; the model takes the
    reciprocal of the position, [1 / (i + 1)]. *)
Definition rank_score (i : nat) : Q := Qmake 1 (Pos.of_succ_nat i).

Section Search.

Variables Vector Index : Type.

Definition Store : Type := ChunkId -> option Chunk.

(** Section 4.2, the states of a retriever. *)
Inductive State :=
| Uninitialized
| Ready (index : Index) (store : Store)
| Unavailable.

(** The external collaborators; [None] is a raised error. *)
Variable load : option (Index * Store).
Variable embedText : string -> option Vector.
Variable similarity_search_with_score :
  Index -> Vector -> nat -> option (list (ChunkId * Q)).
Variable similarity_search_with_relevance_scores :
  Index -> Vector -> nat -> option (list (ChunkId * Q)).
Variable similarity_search : Index -> Vector -> nat -> option (list ChunkId).

(** State, a log of outside accesses, and typed failures. *)
Definition M (A : Type) : Type := State -> list IO * State * (Failure + A).

Definition ret {A : Type} (a : A) : M A := fun st => ([], st, inr a).

Definition bind {A B : Type} (c : M A) (k : A -> M B) : M B :=
  fun st =>
    match c st with
    | (t, st', inl e) => (t, st', inl e)
    | (t, st', inr a) =>
        match k a st' with
        | (t', st'', r) => ((t ++ t')%list, st'', r)
        end
    end.

Notation "x <- c ;; k" := (bind c (fun x => k))
  (at level 61, c at next level, right associativity).
Notation "c ;; k" := (bind c (fun _ => k))
  (at level 61, right associativity).

Definition raise {A : Type} (e : Failure) : M A := fun st => ([], st, inl e).

Definition emit (io : IO) : M unit := fun st => ([io], st, inr tt).

(** Modelled from the spec: the state machine of section 4.2,
    Uninitialized -> Loading -> Ready or Unavailable, on first use. *)
Definition ensure_ready : M (Index * Store) :=
  fun st =>
    match st with
    | Ready index store => ([], st, inr (index, store))
    | Unavailable => ([], st, inl NotInitialized)
    | Uninitialized =>
        match load with
        | Some (index, store) =>
            ([LoadIndex], Ready index store, inr (index, store))
        | None => ([LoadIndex], Unavailable, inl NotInitialized)
        end
    end.

Definition embed (queryText : string) : M Vector :=
  emit (EmbedQuery queryText) ;;
  match embedText queryText with
  | Some v => ret v
  | None => raise ProviderFailure
  end.

(** One strategy is tried: the index is accessed, and the outcome is
    handed back as a value. *)
Definition attempt {A : Type} (s : Strategy) (outcome : option A)
  : M (option A) :=
  emit (IndexSearch s) ;; ret outcome.

Fixpoint with_rank_scores (rank : nat) (ids : list ChunkId)
  : list (ChunkId * Q) :=
  match ids with
  | [] => []
  | id :: rest => (id, rank_score rank) :: with_rank_scores (S rank) rest
  end.

(** Modelled from the spec: step 2 of [search] (section 4.2), the
    strategies in their order, each fallback after an error of the one
    before. *)
Definition nearest (index : Index) (v : Vector) (k : nat)
  : M (list (ChunkId * Q)) :=
  r1 <- attempt Primary (similarity_search_with_score index v k) ;;
  match r1 with
  | Some hits => emit (Served Primary) ;; ret hits
  | None =>
      r2 <- attempt Normalized
              (similarity_search_with_relevance_scores index v k) ;;
      match r2 with
      | Some hits => emit (Served Normalized) ;; ret hits
      | None =>
          r3 <- attempt Bare (similarity_search index v k) ;;
          match r3 with
          | Some ids => emit (Served Bare) ;; ret (with_rank_scores 0 ids)
          | None => raise SearchFailure
          end
      end
  end.

(** Modelled from the spec: step 3 of [search], every hit is resolved
    against the document store. *)
Fixpoint resolve (store : Store) (hits : list (ChunkId * Q))
  : M (list QueryResult) :=
  match hits with
  | [] => ret []
  | (id, sc) :: rest =>
      emit (StoreLookup id) ;;
      match store id with
      | None => raise StoreMismatch
      | Some c =>
          rs <- resolve store rest ;;
          ret ({| chunk := c; relevance := sc; source_label := parent c |}
               :: rs)
      end
  end.

(** Modelled from the spec: step 4 of [search], highest relevance first,
    ties in index order: a result goes before the first one that is not
    more relevant, and [rank] inserts from the last result to the first,
    so that of two equally relevant results the earlier one stays first. *)
Fixpoint insert_by_relevance (r : QueryResult) (l : list QueryResult)
  : list QueryResult :=
  match l with
  | [] => [r]
  | x :: rest =>
      if Qle_bool (relevance x) (relevance r)
      then r :: l
      else x :: insert_by_relevance r rest
  end.

Definition rank (l : list QueryResult) : list QueryResult :=
  fold_right insert_by_relevance [] l.

(** Modelled from the spec: [search(queryText, k)] of the retriever, whose
    Python source is not in the tree. Section 4.2 and section 7: an empty
    query and a non-positive [k] are rejected before any I/O; the index is
    loaded on first use; the query is embedded; the strategies are tried in
    order, each fallback only after the previous one raised; hits are
    resolved against the store; at most [k] results are returned, highest
    relevance first. *)
Definition search (queryText : string) (k : Z) : M (list QueryResult) :=
  if String.eqb queryText "" || (k <=? 0)%Z then raise InputValidation
  else
    ready <- ensure_ready ;;
    v <- embed queryText ;;
    hits <- nearest (fst ready) v (Z.to_nat k) ;;
    results <- resolve (snd ready) hits ;;
    ret (firstn (Z.to_nat k) (rank results)).

(** The strategies a log shows as tried, in order. *)
Fixpoint attempts (t : list IO) : list Strategy :=
  match t with
  | [] => []
  | IndexSearch s :: rest => s :: attempts rest
  | _ :: rest => attempts rest
  end.

Definition trace_of {A : Type} (r : list IO * State * (Failure + A))
  : list IO := fst (fst r).

Definition state_of {A : Type} (r : list IO * State * (Failure + A))
  : State := snd (fst r).

Definition result_of {A : Type} (r : list IO * State * (Failure + A))
  : Failure + A := snd r.

End Search.

Arguments Uninitialized {Index}.
Arguments Ready {Index} index store.
Arguments Unavailable {Index}.
Arguments ensure_ready {Index} load _.
Arguments nearest {Vector Index} _ _ _ index v k _.
Arguments search {Vector Index} load _ _ _ _ queryText k _.
Arguments resolve {Index} store hits _.
Arguments trace_of {Index A} r.
Arguments state_of {Index A} r.
Arguments result_of {Index A} r.

(** What [ensure_ready] finds: the index and the store of a ready
    retriever, or of one that loads them now. *)
Definition entry {Index : Type} (load : option (Index * Store))
           (st : State Index) : option (Index * Store) :=
  match st with
  | Ready index store => Some (index, store)
  | Uninitialized => load
  | Unavailable => None
  end.

(** A store with the two chunks of one document. *)
Definition sample_store : Store :=
  fun id =>
    if String.eqb (fst id) "guide.pdf"
    then Some {| chunk_id := id; parent := fst id; ordinal := 0;
                 text := "pricing" |}
    else None.

End Retriever.

(* ===================================================================== *)
(** ** chat.js: the transcript on the page and in the state              *)
(* ===================================================================== *)

Module ChatTranscript.
Import Api Chat.

Definition is_message_node (n : Node) : bool :=
  match n with
  | MessageNode _ _ _ _ => true
  | LoadingNode _ => false
  end.

(** The element [addChatMessage] builds for a stored message. *)
Definition node_of (m : Message) : Node :=
  message_node (msg_text m) (msg_type m) (msg_sources m).

Definition is_user (m : Message) : bool := String.eqb (msg_type m) "user".

Definition is_system (m : Message) : bool := String.eqb (msg_type m) "system".

(** The message elements of [#chat-messages], without the loading
    indicator. *)
Definition shown (w : World) : list Node :=
  filter is_message_node (chatMessages w).

Definition user_messages (w : World) : list Message :=
  filter is_user (messages (chatState w)).

Definition system_messages (w : World) : list Message :=
  filter is_system (messages (chatState w)).

Definition toggles (events : list Event) : nat :=
  List.length (filter (fun e => match e with ToggleClicked => true | _ => false end)
                      events).

End ChatTranscript.

(* ===================================================================== *)
(** ** main.js: renderResponseStructure, the sections and their order    *)
(* ===================================================================== *)

Module Structure.
Import Strength.

(** The property names every object inherits from [Object.prototype]. For
    such a name [sections[name]] is truthy before anything is stored. *)
Definition inherited : list string :=
  ["constructor"; "hasOwnProperty"; "isPrototypeOf"; "propertyIsEnumerable";
   "toLocaleString"; "toString"; "valueOf"; "__proto__";
   "__defineGetter__"; "__defineSetter__"; "__lookupGetter__";
   "__lookupSetter__"].

Definition is_inherited (t : string) : bool := existsb (String.eqb t) inherited.

(** The section a question is filed under: [question.response_section]
    when it is truthy. *)
Definition section_of (q : Question) : option string :=
  match response_section q with
  | Some t => if String.eqb t "" then None else Some t
  | None => None
  end.

Definition in_section (t : string) (q : Question) : bool :=
  match section_of q with
  | Some t' => String.eqb t' t
  | None => false
  end.

Definition names_inherited (q : Question) : bool :=
  match section_of q with
  | Some t => is_inherited t
  | None => false
  end.

(** main.js:525-548. For an inherited name no section is created and
    [sections[name].questions.push] raises a TypeError, which is [None].
    Otherwise the sections are those of [collect]; their order here is the
    order of creation, which is the order of [Object.values] for names that
    are not array indices. *)
Definition collect_js (qs : list Question) : option (list SectionInfo) :=
  if existsb names_inherited qs then None else Some (collect qs).

(** [Array.prototype.sort] is stable; with a comparator that is a weak
    order the result is the one a stable insertion sort gives. *)
Fixpoint insert_sorted {A : Type} (cmp : A -> A -> Z) (x : A) (l : list A)
  : list A :=
  match l with
  | [] => [x]
  | y :: rest =>
      if (cmp x y <=? 0)%Z then x :: l else y :: insert_sorted cmp x rest
  end.

Definition stable_sort {A : Type} (cmp : A -> A -> Z) (l : list A) : list A :=
  fold_right (insert_sorted cmp) [] l.

(** The comparator at main.js:671-678. *)
Definition by_kind (a b : Question) : Z :=
  if isStrategic a && negb (isStrategic b) then 1%Z
  else if negb (isStrategic a) && isStrategic b then (-1)%Z
  else 0%Z.

(** main.js:671: [[...section.questions].sort(...)]. *)
Definition sortedQuestions (qs : list Question) : list Question :=
  stable_sort by_kind qs.

(** main.js:693-717: the text of the type badge of a question item. *)
Definition type_badge (q : Question) : string :=
  if isStrategic q then "Strategic" else "Requirement".

(** A section as the render loop receives it. *)
Record Rendered := {
  info : SectionInfo;
  isEmpty : bool
}.

(** main.js:570-576 and 588-594. *)
Definition placeholder (t : string) : Rendered :=
  {| info := new_section t; isEmpty := true |}.

Definition collected (s : SectionInfo) : Rendered :=
  {| info := s; isEmpty := false |}.

(** An entry of [responseGuide.submission_structure]; a [null] entry is not
    represented, since reading [item.section] of it raises. *)
Inductive GuideItem :=
| ItemObject (section : option string)      (* an object or an array *)
| ItemString (s : string)
| ItemOther.                                (* a number or a boolean *)

(** main.js:554-561: the callback of [map]; [None] is the [null] that the
    [filter] drops. *)
Definition guide_name (it : GuideItem) : option string :=
  match it with
  | ItemObject (Some t) => if String.eqb t "" then None else Some t
  | ItemObject None => None
  | ItemString t => Some t
  | ItemOther => None
  end.

Fixpoint guideStructure (items : list GuideItem) : list string :=
  match items with
  | [] => []
  | it :: rest =>
      match guide_name it with
      | Some t => t :: guideStructure rest
      | None => guideStructure rest
      end
  end.

(** [sections[t]] followed by [delete sections[t]]. *)
Fixpoint take (t : string) (secs : list SectionInfo)
  : option (SectionInfo * list SectionInfo) :=
  match secs with
  | [] => None
  | s :: rest =>
      if String.eqb (title s) t then Some (s, rest)
      else match take t rest with
           | Some (x, rest') => Some (x, s :: rest')
           | None => None
           end
  end.

(** main.js:564-578: the sections the guide names, in its order, and the
    sections left over. *)
Fixpoint by_guide (names : list string) (secs : list SectionInfo)
  : list Rendered * list SectionInfo :=
  match names with
  | [] => ([], secs)
  | t :: rest =>
      match take t secs with
      | Some (s, secs') =>
          let (placed, left) := by_guide rest secs' in
          (collected s :: placed, left)
      | None =>
          let (placed, left) := by_guide rest secs in
          (placeholder t :: placed, left)
      end
  end.

Definition is_summary (r : Rendered) : bool :=
  String.eqb (title (info r)) "Executive Summary".

(** main.js:551-595. *)
Definition orderedSections (guide : option (list GuideItem))
           (secs : list SectionInfo) : list Rendered :=
  let (placed, left) :=
    match guide with
    | Some items => by_guide (guideStructure items) secs
    | None => ([], secs)
    end in
  let all := (placed ++ map collected left)%list in
  if existsb is_summary all then all else placeholder "Executive Summary" :: all.

Inductive Outcome :=
| Throws
| NoStructure                         (* 'No response structure available.' *)
| Sections (rendered : list Rendered).

(** main.js:513-598: what [renderResponseStructure] hands to its render
    loop. [guide] is [responseGuide.submission_structure] when that is an
    array. A guide entry with an inherited name puts a function in the place
    of a section, and the loop raises on it. *)
Definition renderResponseStructure (guide : option (list GuideItem))
           (qs : list Question) : Outcome :=
  match qs with
  | [] => NoStructure
  | _ :: _ =>
      match collect_js qs with
      | None => Throws
      | Some secs =>
          if match guide with
             | Some items => existsb is_inherited (guideStructure items)
             | None => false
             end
          then Throws
          else Sections (orderedSections guide secs)
      end
  end.

(** The sections that carry questions, among those rendered. *)
Definition with_questions (out : list Rendered) : list SectionInfo :=
  map info (filter (fun r => negb (isEmpty r)) out).

(** A section agrees with the questions [qs] it was collected from. *)
Definition section_ok (qs : list Question) (s : SectionInfo) : Prop :=
  title s <> ""
  /\ questions s = filter (in_section (title s)) qs
  /\ questions s <> []
  /\ requirementCount s
     = List.length (filter (fun q => negb (isStrategic q)) (questions s))
  /\ strategicCount s = List.length (filter isStrategic (questions s)).

(** A placeholder shows no question and counts none. *)
Definition empty_placeholder (r : Rendered) : Prop :=
  isEmpty r = true ->
  questions (info r) = [] /\ requirementCount (info r) = 0
  /\ strategicCount (info r) = 0.

Definition sample_questions : list Question :=
  [{| response_section := Some "Pricing"; type := None; original_text := None |};
   {| response_section := Some "Team"; type := Some "Strategic";
      original_text := None |};
   {| response_section := Some "Pricing"; type := None;
      original_text := Some "STRATEGIC ADDITION" |};
   {| response_section := None; type := None; original_text := None |}].

Definition sample_guide : list GuideItem :=
  [ItemObject (Some "Team"); ItemString "Approach"; ItemOther].

End Structure.

(* ===================================================================== *)
(** ** main.js: the application state and the requests that fill it      *)
(* ===================================================================== *)

Module App.
Import Api.

(** What [response.json()] settles with; [JsonValue None] is a body that
    parses to [null]. *)
Inductive JsonOutcome (A : Type) :=
| JsonRejected (message : string)
| JsonValue (data : option A).

(** What [fetch] settles with. *)
Inductive HttpOutcome (A : Type) :=
| NetworkError (message : string)
| HttpResponse (status : nat) (statusText : string) (body : JsonOutcome A).

Arguments JsonRejected {A} message.
Arguments JsonValue {A} data.
Arguments NetworkError {A} message.
Arguments HttpResponse {A} status statusText body.

(** The error object a [catch] block receives. The message of a TypeError
    is the runtime's own. *)
Inductive Error :=
| Thrown (message : string)
| TypeError.

(** A question as the server sends it; an absent field is [None]. *)
Record QuestionData := {
  id : string;
  text : option string;
  original_text : option string;
  search_query : option string;
  section : option string;
  response_section : option string;
  type : option string
}.

(** The object built at main.js:1267-1277. *)
Record Response := {
  question_id : string;
  question_text : string;
  response_text : string;
  sources : list Source;
  r_search_query : string;
  system_prompt : string;
  user_prompt : string;
  knowledge_context : string;
  r_section : string
}.

(** main.js:6-14. *)
Record State := {
  fileKey : option string;
  fileName : option string;
  questions : list QuestionData;
  responses : list Response;
  metadata : Js.value;
  responseGuide : Js.value
}.

Definition initial : State :=
  {| fileKey := None; fileName := None; questions := []; responses := [];
     metadata := Js.VObj []; responseGuide := Js.VObj [] |}.

(** Truthiness of a string that may be [null]. *)
Definition given (o : option string) : bool :=
  match o with
  | Some s => negb (String.eqb s "")
  | None => false
  end.

(** [`${key}`] for a key that may be [null]. *)
Definition key_text (o : option string) : string :=
  match o with
  | Some s => s
  | None => "null"
  end.

Definition decimal (n : nat) : string :=
  NilZero.string_of_uint (Nat.to_uint n).

(** main.js:20-33. *)
Definition api_upload : string := "/api/upload".
Definition api_createFinalResponse : string := "/api/create-final-response".
Definition api_questions (k : option string) : string :=
  "/api/questions/" ++ key_text k.
Definition api_metadata (k : option string) : string :=
  "/api/metadata/" ++ key_text k.
Definition api_responseGuide (k : option string) : string :=
  "/api/response-guide/" ++ key_text k.

(** main.js:34-49; [url_key] is [urlParams.get('key')]. *)
Definition getFileKey (st : State) (url_key : option string) : string :=
  if given (fileKey st) then key_text (fileKey st)
  else if given url_key then key_text url_key
  else "".

Inductive ProgressText :=
| Plain (s : string)
| ErrorText (e : Error).                 (* `Error: ${error.message}` *)

(** The upload progress elements. *)
Record Progress := {
  displayed : bool;
  width : string;
  text_shown : ProgressText;
  error_colour : bool
}.

Inductive Effect :=
| Fetch (method url : string)
| ConsoleError (label : string) (e : Error)
| ConsoleWarn (label : string)
| AlertError (prefix : string) (e : Error)     (* `${prefix}${error.message}` *)
| AlertText (message : string)
| GuideErrorShown                  (* '<p>Error loading response guide</p>' *)
| RenderScheduled                  (* setTimeout(render..., 1000) *)
| ResponsesRendered.               (* renderResponses(); showResponsesSection() *)

Record World := {
  state : State;
  progress : Progress;
  effects : list Effect
}.

Definition emit (e : Effect) (w : World) : World :=
  {| state := state w; progress := progress w;
     effects := (effects w ++ [e])%list |}.

Definition set_state (st : State) (w : World) : World :=
  {| state := st; progress := progress w; effects := effects w |}.

Definition set_progress (p : Progress) (w : World) : World :=
  {| state := state w; progress := p; effects := effects w |}.

(** The part of a fetch that the three loaders and the upload share: the
    parsed body of an OK response, or the error that ends the [try]. *)
Definition settle {A : Type} (failure : nat -> string -> Error)
           (o : HttpOutcome A) : Error + option A :=
  match o with
  | NetworkError m => inl (Thrown m)
  | HttpResponse status statusText body =>
      if Chat.response_ok status then
        match body with
        | JsonRejected m => inl (Thrown m)
        | JsonValue d => inr d
        end
      else inl (failure status statusText)
  end.

(** main.js:263-277. A body that is [null] raises a TypeError on
    [data.questions]. *)
Definition fetchQuestions (o : HttpOutcome (option (list QuestionData)))
           (w : World) : World :=
  let w := emit (Fetch "GET" (api_questions (fileKey (state w)))) w in
  match settle (fun _ _ => Thrown "Failed to fetch questions") o with
  | inr (Some qs) =>
      set_state {| fileKey := fileKey (state w); fileName := fileName (state w);
                   questions := match qs with Some l => l | None => [] end;
                   responses := responses (state w);
                   metadata := metadata (state w);
                   responseGuide := responseGuide (state w) |} w
  | inr None => emit (ConsoleError "Error fetching questions:" TypeError) w
  | inl e => emit (ConsoleError "Error fetching questions:" e) w
  end.

(** [x || {}] *)
Definition or_empty_object (v : Js.value) : Js.value :=
  if Js.truthy v then v else Js.VObj [].

(** main.js:279-293; the body carries [data.metadata]. *)
Definition fetchMetadata (o : HttpOutcome Js.value) (w : World) : World :=
  let w := emit (Fetch "GET" (api_metadata (fileKey (state w)))) w in
  match settle (fun _ _ => Thrown "Failed to fetch metadata") o with
  | inr (Some m) =>
      set_state {| fileKey := fileKey (state w); fileName := fileName (state w);
                   questions := questions (state w);
                   responses := responses (state w);
                   metadata := or_empty_object m;
                   responseGuide := responseGuide (state w) |} w
  | inr None => emit (ConsoleError "Error fetching metadata:" TypeError) w
  | inl e => emit (ConsoleError "Error fetching metadata:" e) w
  end.

(** main.js:295-311; the body carries [data.response_guide]. *)
Definition fetchResponseGuide (o : HttpOutcome Js.value) (w : World) : World :=
  let w := emit (Fetch "GET" (api_responseGuide (fileKey (state w)))) w in
  match settle (fun _ _ => Thrown "Failed to fetch response guide") o with
  | inr (Some g) =>
      set_state {| fileKey := fileKey (state w); fileName := fileName (state w);
                   questions := questions (state w);
                   responses := responses (state w);
                   metadata := metadata (state w);
                   responseGuide := or_empty_object g |} w
  | inr None =>
      emit GuideErrorShown
           (emit (ConsoleError "Error fetching response guide:" TypeError) w)
  | inl e =>
      emit GuideErrorShown
           (emit (ConsoleError "Error fetching response guide:" e) w)
  end.

(** The body of an upload answer. *)
Record UploadData := {
  file_id : option string;
  filename : option string
}.

Definition server_error (status : nat) (statusText : string) : Error :=
  Thrown ("Server error: " ++ decimal status ++ " " ++ statusText).

(** main.js:209-226: the file id and name of an accepted upload, or the
    error thrown. *)
Definition upload_result (o : HttpOutcome UploadData)
  : Error + (string * option string) :=
  match settle server_error o with
  | inl e => inl e
  | inr None => inl (Thrown "Invalid response: missing file ID")
  | inr (Some d) =>
      match file_id d with
      | Some k =>
          if String.eqb k "" then inl (Thrown "Invalid response: missing file ID")
          else inr (k, filename d)
      | None => inl (Thrown "Invalid response: missing file ID")
      end
  end.

(** The answers to the requests of one [uploadFile] call. *)
Record UploadOutcomes := {
  on_upload : HttpOutcome UploadData;
  on_questions : HttpOutcome (option (list QuestionData));
  on_metadata : HttpOutcome Js.value;
  on_guide : HttpOutcome Js.value
}.

(** main.js:195-260, as one run of the call with the answers it gets; no
    other handler runs in between. *)
Definition uploadFile (o : UploadOutcomes) (w : World) : World :=
  let w := set_progress {| displayed := true; width := "10%";
                           text_shown := Plain "Uploading document...";
                           error_colour := error_colour (progress w) |} w in
  let w := emit (Fetch "POST" api_upload) w in
  match upload_result (on_upload o) with
  | inr (k, name) =>
      let w := set_state
                 {| fileKey := Some k;
                    fileName := Some (or_default name "document");
                    questions := questions (state w);
                    responses := responses (state w);
                    metadata := metadata (state w);
                    responseGuide := responseGuide (state w) |} w in
      let w := set_progress
                 {| displayed := true; width := "100%";
                    text_shown := Plain "Document processed successfully!";
                    error_colour := error_colour (progress w) |} w in
      let w := fetchQuestions (on_questions o) w in
      let w := fetchMetadata (on_metadata o) w in
      let w := fetchResponseGuide (on_guide o) w in
      emit RenderScheduled w
  | inl e =>
      let w := emit (ConsoleError "Error uploading file:" e) w in
      let w := set_progress {| displayed := true; width := "100%";
                               text_shown := ErrorText e;
                               error_colour := true |} w in
      emit (AlertError "File upload failed: " e) w
  end.



Definition start : World :=
  {| state := initial;
     progress := {| displayed := false; width := "0%";
                    text_shown := Plain ""; error_colour := false |};
     effects := [] |}.

Definition fetches (w : World) : list (string * string) :=
  flat_map (fun e => match e with Fetch m u => [(m, u)] | _ => [] end)
           (effects w).

Definition alerts (w : World) : list Effect :=
  filter (fun e => match e with AlertError _ _ | AlertText _ => true | _ => false end)
         (effects w).

End App.

(* ===================================================================== *)
(** ** main.js: handleGenerateResponse and handleGenerateAll             *)
(* ===================================================================== *)

Module Generate.
Import Api App.

(** One entry of [data.responses] of a /api/generate answer. *)
Record Generated := {
  g_response_text : option string;
  g_sources : option (list Source);
  g_search_query : option string;
  g_system_prompt : option string;
  g_user_prompt : option string;
  g_knowledge_context : option string
}.

(** The body of a /api/generate answer: [data.responses]. *)
Definition GenerateData : Type := option (list Generated).

(** A question item of the page, found by its [data-question-id]. *)
Record Item := {
  btn_text : string;
  btn_disabled : bool;
  btn_classes : list string;
  error_messages : list Error
}.

Record AllButton := {
  all_text : string;
  all_disabled : bool;
  all_classes : list string
}.

Record Page := {
  state : State;
  items : list (string * Item);        (* in document order *)
  generateAllBtn : AllButton;
  effects : list Effect
}.

(** [document.querySelector] on the question id: the first match. *)
Fixpoint find_item (qid : string) (l : list (string * Item)) : option Item :=
  match l with
  | [] => None
  | (k, it) :: rest => if String.eqb k qid then Some it else find_item qid rest
  end.

Fixpoint update_item (qid : string) (f : Item -> Item)
         (l : list (string * Item)) : list (string * Item) :=
  match l with
  | [] => []
  | (k, it) :: rest =>
      if String.eqb k qid then (k, f it) :: rest
      else (k, it) :: update_item qid f rest
  end.


Definition emit (e : Effect) (p : Page) : Page :=
  {| state := state p; items := items p; generateAllBtn := generateAllBtn p;
     effects := (effects p ++ [e])%list |}.

Definition on_item (qid : string) (f : Item -> Item) (p : Page) : Page :=
  {| state := state p; items := update_item qid f (items p);
     generateAllBtn := generateAllBtn p; effects := effects p |}.




Definition server_returned (status : nat) (statusText : string) : Error :=
  Thrown ("Server returned " ++ decimal status ++ ": " ++ statusText).

(** main.js:1244-1264: the generated response, or the error that ends the
    [try]. A body that is [null] raises a TypeError on [data.responses]. *)
Definition generated (o : HttpOutcome GenerateData) : Error + Generated :=
  match settle server_returned o with
  | inl e => inl e
  | inr None => inl TypeError
  | inr (Some (Some (g :: _))) => inr g
  | inr (Some (Some [])) | inr (Some None) => inl (Thrown "No response generated")
  end.


(** The answers one question gets: to the generate request and whether the
    cache request was answered. *)
Definition Answer : Type := HttpOutcome GenerateData * bool.



Definition fetches (p : Page) : list (string * string) :=
  flat_map (fun e => match e with Fetch m u => [(m, u)] | _ => [] end)
           (effects p).

(** The question gets a response: its item is on the page and the server
    sends at least one generated response with an OK status. *)
Definition succeeds (p : Page) (q : QuestionData) (a : Answer) : bool :=
  match find_item (id q) (items p), generated (fst a) with
  | Some _, inr _ => true
  | _, _ => false
  end.

Definition on_page (p : Page) (q : QuestionData) : bool :=
  match find_item (id q) (items p) with
  | Some _ => true
  | None => false
  end.




End Generate.

(* ===================================================================== *)
(** ** main.js: handleExport and handleDownload                          *)
(* ===================================================================== *)

Module Exporting.
Import Api App.

Definition nl : string := String (ascii_of_nat 10) "".

(** What reading a property of a stored response gives. *)
Inductive Field :=
| FText (s : string)
| FSources (l : list Source)
| FMissing.                                    (* [undefined] *)

(** [item[name]] for an object built at main.js:1267-1277: it has these
    nine properties and no other. *)
Definition read (item : Response) (name : string) : Field :=
  if String.eqb name "question_id" then FText (question_id item)
  else if String.eqb name "question_text" then FText (question_text item)
  else if String.eqb name "response_text" then FText (response_text item)
  else if String.eqb name "sources" then FSources (sources item)
  else if String.eqb name "search_query" then FText (r_search_query item)
  else if String.eqb name "system_prompt" then FText (system_prompt item)
  else if String.eqb name "user_prompt" then FText (user_prompt item)
  else if String.eqb name "knowledge_context" then FText (knowledge_context item)
  else if String.eqb name "section" then FText (r_section item)
  else FMissing.

(** [`${field}`] *)
Definition show (f : Field) : string :=
  match f with
  | FText s => s
  | FSources l => String.concat "," (map (fun _ => "[object Object]") l)
  | FMissing => "undefined"
  end.

(** main.js:1487-1500: the markup of the export preview. *)
Definition handleExport (st : State) : string :=
  fold_left
    (fun html item =>
       html ++ "<h2>" ++ show (read item "question") ++ "</h2>" ++ nl
            ++ "<p>" ++ show (read item "response") ++ "</p>" ++ nl ++ nl)
    (responses st)
    ("<h1>" ++ or_default (fileName st) "RFP Response" ++ "</h1>" ++ nl ++ nl).

(** main.js:1516-1534: the content and the name of the downloaded file. *)
Definition handleDownload (st : State) : string * string :=
  (fold_left
     (fun markdown item =>
        markdown ++ "## " ++ show (read item "question") ++ nl ++ nl
                 ++ show (read item "response") ++ nl ++ nl)
     (responses st)
     ("# " ++ or_default (fileName st) "RFP Response" ++ nl ++ nl),
   or_default (fileName st) "rfp-response" ++ ".md").

(** [n] copies of [block], one after the other. *)
Fixpoint copies (n : nat) (block : string) : string :=
  match n with
  | O => ""
  | S m => block ++ copies m block
  end.

End Exporting.

(* ===================================================================== *)
(** ** main.js: api.getFileKey and handleCreateFinalResponse             *)
(* ===================================================================== *)

Module FinalResponse.
Import Api App.

Inductive Effect :=
| Post (url : string) (file_key : string)
| Alert (message : string)
| AlertError (e : Error)          (* `Error creating final response: ${message}` *)
| ConsoleError (e : Error)
| DownloadLink (href : string).

(** The button with id [create-final-response-btn]. *)
Record Button := {
  innerHTML : string;
  disabled : bool
}.

(** [s.includes(p)] *)
Fixpoint includes (p s : string) : bool :=
  if prefix p s then true
  else match s with
       | EmptyString => false
       | String _ rest => includes p rest
       end.

Definition dq : string := String (ascii_of_nat 34) "".

(** The markup of the button while the request runs (main.js:417). *)
Definition creating : string :=
  "<i class=" ++ dq ++ "fas fa-spinner fa-spin" ++ dq ++ "></i> Creating...".

Definition friendly : string :=
  "No responses have been generated yet. The document structure has been created, but for a complete document, generate individual responses first.".

(** main.js:465-483: the [catch] block. *)
Definition failed (e : Error) (btn : option Button)
  : option Button * list Effect :=
  (match btn with
   | Some _ => Some {| innerHTML := "Create Final Response"; disabled := false |}
   | None => None
   end,
   [ConsoleError e;
    match e with
    | Thrown m => if includes "No responses found" m then Alert friendly
                  else AlertError e
    | TypeError => AlertError e
    end]).

Definition server_returned (status : nat) (statusText : string) : Error :=
  Thrown ("Server returned " ++ decimal status ++ ": " ++ statusText).

(** main.js:401-484, as one run of the call: [url_key] is the [key]
    parameter of the page address, [btn] the button when it is on the
    page, [o] the answer to the request. *)
Definition handleCreateFinalResponse (st : State) (url_key : option string)
           (btn : option Button) (o : HttpOutcome unit)
  : option Button * list Effect :=
  if negb (given (fileKey st)) then
    (btn, [Alert "Please upload a document first"])
  else
    match btn with
    | None => failed (Thrown "Create final response button not found") None
    | Some b =>
        let effectiveFileKey := getFileKey st url_key in
        if String.eqb effectiveFileKey "" then
          failed (Thrown "No file key found. Please upload a document first.")
                 (Some {| innerHTML := creating; disabled := true |})
        else
          match settle server_returned o with
          | inl e =>
              let r := failed e (Some b) in
              (fst r, (Post api_createFinalResponse effectiveFileKey :: snd r)%list)
          | inr _ =>
              (Some {| innerHTML := innerHTML b; disabled := false |},
               [Post api_createFinalResponse effectiveFileKey;
                Alert "Final response document created successfully!";
                DownloadLink ("/api/download/" ++ effectiveFileKey
                              ++ "/final_response.md")])
          end
    end.

Definition posts (l : list Effect) : list (string * string) :=
  flat_map (fun e => match e with Post u k => [(u, k)] | _ => [] end) l.

Definition alert_count (l : list Effect) : nat :=
  List.length
    (filter (fun e => match e with Alert _ | AlertError _ => true | _ => false end) l).

End FinalResponse.

(* ===================================================================== *)
(** ** main.js: organizeQuestionsBySection and createCustomQuestion      *)
(* ===================================================================== *)

Module Organize.
Import Api App.

(** [a < b] on values that are strings or [undefined]: with [undefined] on
    either side the comparison is false. *)
Definition js_lt (a b : option string) : bool :=
  match a, b with
  | Some x, Some y => String.ltb x y
  | _, _ => false
  end.

Definition str_is (o : option string) (s : string) : bool :=
  match o with Some x => String.eqb x s | None => false end.

(** main.js:332-333. *)
Definition isStrategic (q : QuestionData) : bool :=
  str_is (type q) "Strategic" || str_is (original_text q) "STRATEGIC ADDITION".

(** The comparator at main.js:326-341. *)
Definition compare (a b : QuestionData) : Z :=
  if js_lt (section a) (section b) then (-1)%Z
  else if js_lt (section b) (section a) then 1%Z
  else if isStrategic a && negb (isStrategic b) then 1%Z
  else if negb (isStrategic a) && isStrategic b then (-1)%Z
  else if String.ltb (id a) (id b) then (-1)%Z
  else 1%Z.

(** main.js:324-342: the new value of [state.questions]. When the
    comparator is a consistent order on the questions, the result of the
    sort is the one a stable insertion sort gives. Two questions with one
    section, one kind and one id are answered [1] in both orders; the
    order an engine leaves them in is then its own, and the model gives
    one rearrangement of the same questions. *)
Definition organizeQuestionsBySection (qs : list QuestionData)
  : list QuestionData :=
  Structure.stable_sort compare qs.

(** [a] comes before [b]. *)
Definition before (a b : QuestionData) : Prop := compare a b = (-1)%Z.

(** The part of a question that [renderResponseStructure] reads. *)
Definition core (q : QuestionData) : Strength.Question :=
  {| Strength.response_section := response_section q;
     Strength.type := type q;
     Strength.original_text := original_text q |}.

Inductive Effect :=
| Post (url : string) (file_key : option string) (section text : string)
| ConsoleError (e : Error)
| AlertError (e : Error)          (* `Error creating question: ${message}` *)
| Rendered.                       (* renderQuestions() *)

Definition api_createQuestion : string := "/api/create-question".

Definition server_returned (status : nat) (statusText : string) : Error :=
  Thrown ("Server returned " ++ decimal status ++ ": " ++ statusText).

(** main.js:374-375: the question is filed under the section of the
    button. *)
Definition filed (sectionName : string) (q : QuestionData) : QuestionData :=
  {| id := id q; text := text q; original_text := original_text q;
     search_query := search_query q; section := Some sectionName;
     response_section := Some sectionName; type := type q |}.

Definition set_questions (qs : list QuestionData) (st : State) : State :=
  {| fileKey := fileKey st; fileName := fileName st; questions := qs;
     responses := responses st; metadata := metadata st;
     responseGuide := responseGuide st |}.

(** main.js:344-398, as one run of the call: [answer] is what the user
    typed into the prompt ([None] when cancelled), [o] the answer of the
    server, whose body carries [data.question]. The result is the new
    state and what the call did. A body that is [null] raises a TypeError
    on [data.question]. *)
Definition createCustomQuestion (sectionName : string)
           (answer : option string)
           (o : HttpOutcome (option QuestionData))
           (st : State)
  : State * list Effect :=
  match answer with
  | None => (st, [])
  | Some questionText =>
      if String.eqb questionText "" || String.eqb (Chat.trim questionText) ""
      then (st, [])
      else
        let sent :=
          Post api_createQuestion (fileKey st) sectionName questionText in
        match settle server_returned o with
        | inl e => (st, [sent; ConsoleError e; AlertError e])
        | inr None => (st, [sent; ConsoleError TypeError; AlertError TypeError])
        | inr (Some None) => (st, [sent])
        | inr (Some (Some q)) =>
            (set_questions
               (organizeQuestionsBySection
                  (questions st ++ [filed sectionName q])%list) st,
             [sent; Rendered])
        end
  end.

(** Every question the server sends carries its section. *)
Definition has_section (q : QuestionData) : Prop := section q <> None.

(** Three questions of two sections, out of order. *)
Definition sample : list QuestionData :=
  [{| id := "q2"; text := None; original_text := None; search_query := None;
      section := Some "Pricing"; response_section := Some "Pricing";
      type := Some "Strategic" |};
   {| id := "q3"; text := None; original_text := None; search_query := None;
      section := Some "Approach"; response_section := Some "Approach";
      type := None |};
   {| id := "q1"; text := None; original_text := None; search_query := None;
      section := Some "Pricing"; response_section := Some "Pricing";
      type := None |}].

(** A state with the three questions, and a server that returns a fourth
    one. *)
Definition sample_state : State :=
  {| fileKey := Some "rfp-1"; fileName := Some "rfp.pdf"; questions := sample;
     responses := []; metadata := Js.VObj []; responseGuide := Js.VObj [] |}.

Definition sample_created : QuestionData :=
  {| id := "custom_1"; text := Some "Who leads the team?";
     original_text := None; search_query := None; section := None;
     response_section := None; type := Some "Custom" |}.

End Organize.

(* ===================================================================== *)
(** ** Section navigation (main.js:1537-1568)                            *)
(* ===================================================================== *)

Module Navigation.

(** [element.classList]: the class names of an element, each once. *)
Definition ClassList := list string.

Definition contains (c : string) (l : ClassList) : bool :=
  existsb (String.eqb c) l.

(** [classList.add] and [classList.remove]. *)
Definition add (c : string) (l : ClassList) : ClassList :=
  if contains c l then l else (l ++ [c])%list.

Definition remove (c : string) (l : ClassList) : ClassList :=
  filter (fun x => negb (String.eqb x c)) l.

(** The class lists of the four section containers. *)
Record Page := {
  uploadSection : ClassList;
  questionsSection : ClassList;
  responsesSection : ClassList;
  exportSection : ClassList
}.

(** [remove('hidden-section'); add('active-section')] and the reverse. *)
Definition activate (l : ClassList) : ClassList :=
  add "active-section" (remove "hidden-section" l).

Definition hide (l : ClassList) : ClassList :=
  add "hidden-section" (remove "active-section" l).

(** main.js:1537-1549. *)
Definition showQuestionsSection (p : Page) : Page :=
  {| uploadSection := hide (uploadSection p);
     questionsSection := activate (questionsSection p);
     responsesSection := hide (responsesSection p);
     exportSection := hide (exportSection p) |}.

(** main.js:1551-1560. *)
Definition showResponsesSection (p : Page) : Page :=
  {| uploadSection := uploadSection p;
     questionsSection := hide (questionsSection p);
     responsesSection := activate (responsesSection p);
     exportSection := hide (exportSection p) |}.

(** main.js:1562-1568. *)
Definition showExportSection (p : Page) : Page :=
  {| uploadSection := uploadSection p;
     questionsSection := questionsSection p;
     responsesSection := hide (responsesSection p);
     exportSection := activate (exportSection p) |}.

Inductive Call := ShowQuestions | ShowResponses | ShowExport.

Definition call (c : Call) (p : Page) : Page :=
  match c with
  | ShowQuestions => showQuestionsSection p
  | ShowResponses => showResponsesSection p
  | ShowExport => showExportSection p
  end.

(** The calls of a session, one after the other. *)
Definition run (cs : list Call) (p : Page) : Page :=
  fold_left (fun p c => call c p) cs p.

Inductive Container := Upload | Questions | Responses | Export.

Definition classes (s : Container) (p : Page) : ClassList :=
  match s with
  | Upload => uploadSection p
  | Questions => questionsSection p
  | Responses => responsesSection p
  | Export => exportSection p
  end.

(** A container is on show when it is marked active and not hidden. *)
Definition active (s : Container) (p : Page) : bool :=
  contains "active-section" (classes s p)
  && negb (contains "hidden-section" (classes s p)).

Definition target (c : Call) : Container :=
  match c with
  | ShowQuestions => Questions
  | ShowResponses => Responses
  | ShowExport => Export
  end.

Definition same (a b : Container) : bool :=
  match a, b with
  | Upload, Upload | Questions, Questions
  | Responses, Responses | Export, Export => true
  | _, _ => false
  end.

(** The export view is opened from the responses view or from itself:
    no [ShowExport] comes right after [ShowQuestions]. *)
Fixpoint export_from_responses (prev : Call) (cs : list Call) : bool :=
  match cs with
  | [] => true
  | c :: rest =>
      match prev, c with
      | ShowQuestions, ShowExport => false
      | _, _ => export_from_responses c rest
      end
  end.

(** A page with the upload section on show. *)
Definition landing : Page :=
  {| uploadSection := ["active-section"];
     questionsSection := ["hidden-section"];
     responsesSection := ["hidden-section"];
     exportSection := ["hidden-section"] |}.

(** Only the container of the last call is on show. *)
Definition only (c : Call) (p : Page) : Prop :=
  forall s, active s p = same s (target c).

End Navigation.

(* ===================================================================== *)
(** ** Formatting a response text (main.js:1503-1513)                    *)
(* ===================================================================== *)

Module Markdown.

(** A text is the sequence of its code units, each below 256; a text with
    a code unit above 255 (the line separators U+2028 and U+2029 among
    them) is outside the model. *)

Definition lf : ascii := ascii_of_nat 10.
Definition cr : ascii := ascii_of_nat 13.

(** The line terminators below 256, LF and CR: [.] does not match them,
    and with the [m] flag [^] and [$] match next to them. *)
Definition is_line_terminator (c : ascii) : bool :=
  Ascii.eqb c lf || Ascii.eqb c cr.

(** [\s] below 256: TAB, LF, VT, FF, CR, SP and NBSP. *)
Definition is_space (c : ascii) : bool :=
  let n := nat_of_ascii c in
  ((9 <=? n) && (n <=? 13) || (n =? 32) || (n =? 160))%nat.

Definition not_star (c : ascii) : bool := negb (Ascii.eqb c "*").

Definition in_line (c : ascii) : bool := negb (is_line_terminator c).

Fixpoint every (p : ascii -> bool) (s : string) : bool :=
  match s with
  | EmptyString => true
  | String c r => p c && every p r
  end.

(** [s] without its prefix [p], when it has that prefix. *)
Fixpoint strip (p s : string) : option string :=
  match p, s with
  | EmptyString, _ => Some s
  | String a p', String b s' => if Ascii.eqb a b then strip p' s' else None
  | String _ _, EmptyString => None
  end.

(** The longest prefix of [s] of code units in the class [p], and what
    follows it. *)
Fixpoint span (p : ascii -> bool) (s : string) : string * string :=
  match s with
  | EmptyString => (EmptyString, EmptyString)
  | String c r =>
      if p c then let (g, rest) := span p r in (String c g, rest)
      else (EmptyString, s)
  end.

(** A match of a pattern at the head of a string: the text of group 1 and
    the number of code units matched. *)
Definition Match := option (string * nat).

(** [/\*\*([^*]+)\*\*/] at the head of [s]. The greedy [[^*]+] takes every
    code unit up to the next star; a shorter run cannot be followed by a
    star. *)
Definition bold_at (prev : option ascii) (s : string) : Match :=
  match strip "**" s with
  | Some r =>
      let (g, rest) := span not_star r in
      match g, strip "**" rest with
      | String _ _, Some _ => Some (g, 2 + String.length g + 2)
      | _, _ => None
      end
  | None => None
  end.

(** [/\*([^*]+)\*/] at the head of [s]. *)
Definition em_at (prev : option ascii) (s : string) : Match :=
  match strip "*" s with
  | Some r =>
      let (g, rest) := span not_star r in
      match g, strip "*" rest with
      | String _ _, Some _ => Some (g, 1 + String.length g + 1)
      | _, _ => None
      end
  | None => None
  end.

(** [^] with the [m] flag, [prev] being the code unit before the
    position. *)
Definition line_start (prev : option ascii) : bool :=
  match prev with
  | None => true
  | Some c => is_line_terminator c
  end.

(** [/^-\s(.+)$/m] at the head of [s]. The greedy [.+] runs to the end of
    the line, where [$] matches. *)
Definition item_at (prev : option ascii) (s : string) : Match :=
  if line_start prev then
    match s with
    | String d (String w r) =>
        if Ascii.eqb d "-" && is_space w then
          let (g, _) := span in_line r in
          match g with
          | String _ _ => Some (g, 2 + String.length g)
          | EmptyString => None
          end
        else None
    | _ => None
    end
  else None.

(** The longest [g], of one code unit or more and within the line, that
    [</li>] follows: what the greedy [(.+)] of [/<li>(.+)<\/li>/] takes
    after it has given back what it must. *)
Fixpoint upto_last_close (s : string) : option string :=
  match s with
  | EmptyString => None
  | String c r =>
      if in_line c then
        match upto_last_close r with
        | Some g => Some (String c g)
        | None =>
            match strip "</li>" r with
            | Some _ => Some (String c EmptyString)
            | None => None
            end
        end
      else None
  end.

(** [/<li>(.+)<\/li>/] at the head of [s]. *)
Definition wrap_at (prev : option ascii) (s : string) : Match :=
  match strip "<li>" s with
  | Some r =>
      match upto_last_close r with
      | Some g => Some (g, 4 + String.length g + 5)
      | None => None
      end
  | None => None
  end.

(** [text.replace(re, template)] for a global [re] that matches no empty
    string: the string is scanned from the left, each match found is
    replaced by the template filled with its group, and the search goes on
    after the match. [skip] counts the code units of the current match
    still to pass, [prev] is the code unit before the position. *)
Fixpoint replace_from (match_at : option ascii -> string -> Match)
         (template : string -> string)
         (prev : option ascii) (skip : nat) (s : string) : string :=
  match s with
  | EmptyString => EmptyString
  | String c r =>
      match skip with
      | S k => replace_from match_at template (Some c) k r
      | O =>
          match match_at prev s with
          | Some (g, n) =>
              template g ++ replace_from match_at template (Some c) (n - 1) r
          | None => String c (replace_from match_at template (Some c) 0 r)
          end
      end
  end.

Definition replace (match_at : option ascii -> string -> Match)
           (template : string -> string) (s : string) : string :=
  replace_from match_at template None 0 s.

(** [text.replace(/\n/g, '<br>')]. *)
Fixpoint breaks (s : string) : string :=
  match s with
  | EmptyString => EmptyString
  | String c r =>
      if Ascii.eqb c lf then "<br>" ++ breaks r else String c (breaks r)
  end.

Definition strong (g : string) : string := "<strong>" ++ g ++ "</strong>".
Definition em (g : string) : string := "<em>" ++ g ++ "</em>".
Definition li (g : string) : string := "<li>" ++ g ++ "</li>".
Definition ul (g : string) : string := "<ul><li>" ++ g ++ "</li></ul>".

(** main.js:1503-1513; [text] is a string at the one call of the function
    (main.js:1413). *)
Definition formatMarkdown (text : string) : string :=
  if String.eqb text "" then ""
  else
    replace wrap_at ul
      (replace item_at li
         (replace em_at em
            (replace bold_at strong
               (breaks text)))).

(** [p] is nowhere in [s]. *)
Fixpoint lacks (p s : string) : bool :=
  match s with
  | EmptyString => true
  | String _ r =>
      match strip p s with
      | Some _ => false
      | None => lacks p r
      end
  end.

Definition starts_with (c : ascii) (s : string) : bool :=
  match s with
  | String d _ => Ascii.eqb d c
  | EmptyString => false
  end.

Definition two_lines : string :=
  "- first" ++ String lf "- second".

(** The group of a match is part of the text matched. *)
Definition group_within (m : option ascii -> string -> Match) : Prop :=
  forall (q : ascii -> bool) prev s g n,
    every q s = true -> m prev s = Some (g, n) -> every q g = true.

Definition no_lf (c : ascii) : bool := negb (Ascii.eqb c lf).
Definition no_cr (c : ascii) : bool := negb (Ascii.eqb c cr).

(** A code unit that no replacement looks for. *)
Definition ordinary (c : ascii) : bool :=
  not_star c && in_line c && negb (Ascii.eqb c "<").

Definition no_lt (c : ascii) : bool := negb (Ascii.eqb c "<").

Definition with_markup : string :=
  "Use <script>alert(1)</script> here" ++ String lf "- not a list".

End Markdown.

(* ===================================================================== *)
(** ** Labels and headings made from keys (main.js:847, 924, 1158)       *)
(* ===================================================================== *)

Module Heading.

(** [\w]: a letter, a digit or the underscore. *)
Definition is_word (c : ascii) : bool :=
  let n := nat_of_ascii c in
  ((48 <=? n) && (n <=? 57) || (65 <=? n) && (n <=? 90)
   || (97 <=? n) && (n <=? 122) || (n =? 95))%nat.

Definition is_lower (c : ascii) : bool :=
  let n := nat_of_ascii c in ((97 <=? n) && (n <=? 122))%nat.

(** [l.toUpperCase()] for a code unit that [\w] matched. *)
Definition toUpperCase (c : ascii) : ascii :=
  if is_lower c then ascii_of_nat (nat_of_ascii c - 32) else c.

(** [key.replace(/_/g, ' ')]: the text of a label. *)
Fixpoint label (key : string) : string :=
  match key with
  | EmptyString => EmptyString
  | String c r => String (if Ascii.eqb c "_" then " "%char else c) (label r)
  end.

(** [s.replace(/\b\w/g, l => l.toUpperCase())]: [\b\w] matches a word
    code unit that begins the string or follows a code unit that is not
    one; [inside] tells whether the code unit before is a word one. *)
Fixpoint capitalise (inside : bool) (s : string) : string :=
  match s with
  | EmptyString => EmptyString
  | String c r =>
      String (if is_word c && negb inside then toUpperCase c else c)
             (capitalise (is_word c) r)
  end.

(** main.js:924 and 1158: the heading of a section that has no fixed
    title. *)
Definition heading (key : string) : string := capitalise false (label key).

(** No word of [s] begins with a small letter. *)
Fixpoint words_capitalised (inside : bool) (s : string) : bool :=
  match s with
  | EmptyString => true
  | String c r =>
      negb (is_word c && negb inside && is_lower c)
      && words_capitalised (is_word c) r
  end.

Fixpoint has_underscore (s : string) : bool :=
  match s with
  | EmptyString => false
  | String c r => Ascii.eqb c "_" || has_underscore r
  end.

End Heading.

(* ===================================================================== *)
(** * Theorems                                                           *)
(* ===================================================================== *)

Module StrengthFacts.
Import Strength.
Local Open Scope Z_scope.

Lemma collect_example :
  let q t ty := {| response_section := Some t; type := ty; original_text := None |} in
  map (fun s => (title s, requirementCount s, strategicCount s, strengthPercent s))
      (collect [q "Pricing" None; q "Pricing" (Some "Strategic"); q "Team" None])
  = [("Pricing", 1%nat, 1%nat, 50); ("Team", 1%nat, 0%nat, 10)].
Proof. reflexivity. Qed.

(** The percentage in terms of the two counters of the section. *)
Lemma strengthPercent_counters (s : SectionInfo) :
  strengthPercent s
  = if (requirementCount s + strategicCount s =? 0)%nat then 0
    else Z.min 100 (10 * Z.of_nat (requirementCount s + strategicCount s)
                    + (if (0 <? strategicCount s)%nat then 30 else 0)).
Proof.
  unfold strengthPercent, hasStrategic, totalQuestions.
  destruct s as [t qs r k]; cbn [requirementCount strategicCount].
  assert (Hk : (0 <? Z.of_nat k) = (0 <? k)%nat) by (destruct k; reflexivity).
  rewrite Hk.
  destruct (Nat.eqb_spec (r + k) 0) as [E | E];
    destruct (Z.eqb_spec (Z.of_nat r + Z.of_nat k) 0) as [E' | E'];
    try lia.
  all: rewrite Nat2Z.inj_add; reflexivity.
Qed.

End StrengthFacts.

Module UploadFacts.
Import Upload.

Lemma accepted_isValidFileType (f : File) :
  accepted (Some f) = isValidFileType f.
Proof.
  unfold accepted, isValidFileType, includes, validTypes; cbn.
  rewrite orb_false_r. rewrite (String.eqb_sym (type f) pdf).
  rewrite (String.eqb_sym (type f) docx). reflexivity.
Qed.

Lemma accepted_false (files : list File) :
  invalid_input files -> accepted (hd_error files) = false.
Proof.
  unfold invalid_input, valid_mime.
  destruct (hd_error files) as [f |]; cbn; [| reflexivity].
  intros H. apply orb_false_iff; split; apply String.eqb_neq; intros E;
    apply H; auto.
Qed.

Lemma handle_invalid (files : list File) :
  invalid_input files ->
  handle (hd_error files) = [Alert "Please upload a PDF or DOCX file"].
Proof.
  intros H. unfold handle. rewrite (accepted_false files H).
  destruct (hd_error files); reflexivity.
Qed.

(** C9: for a dropped or selected file whose MIME type is neither the PDF
    nor the DOCX type (or when there is no file), the handler only shows
    the alert: [uploadFile] is not called and no upload request is sent. *)
Theorem invalid_file_never_uploaded (files : list File) :
  invalid_input files ->
  handleDrop files = [Alert "Please upload a PDF or DOCX file"] /\
  handleFileSelect files = [Alert "Please upload a PDF or DOCX file"] /\
  (forall f, ~ In (CallUploadFile f) (handleDrop files)) /\
  (forall f, ~ In (CallUploadFile f) (handleFileSelect files)) /\
  requests (handleDrop files) = [] /\
  requests (handleFileSelect files) = [].
Proof.
  intros H. unfold handleDrop, handleFileSelect.
  rewrite (handle_invalid files H).
  repeat split; try reflexivity;
    intros f [E | []]; discriminate E.
Qed.

Lemma invalid_file_never_uploaded_witness :
  let files := [{| name := "notes.txt"; type := "text/plain" |}] in
  handleDrop files = [Alert "Please upload a PDF or DOCX file"] /\
  requests (handleFileSelect files) = [].
Proof.
  cbv zeta.
  pose proof (invalid_file_never_uploaded
                [{| name := "notes.txt"; type := "text/plain" |}]) as H.
  assert (Hin : invalid_input [{| name := "notes.txt"; type := "text/plain" |}]).
  { cbn. intros [E | E]; discriminate E. }
  destruct (H Hin) as (H1 & _ & _ & _ & _ & H6). split; assumption.
Defined.

End UploadFacts.

(** ** Text occurrence lemmas used for [getDisplayValue] *)

Module Text.
Import Metadata.

Lemma append_nil_r (s : string) : s ++ "" = s.
Proof. induction s; cbn; congruence. Qed.

Lemma append_assoc (a b c : string) : (a ++ b) ++ c = a ++ (b ++ c).
Proof. induction a; cbn; congruence. Qed.

Lemma prefix_split (p s : string) :
  prefix p s = true -> exists post, s = p ++ post.
Proof.
  revert s; induction p as [| c p IH]; intros s H.
  - exists s; reflexivity.
  - destruct s as [| d s]; cbn in H; [discriminate |].
    destruct (ascii_dec c d) as [-> | _]; [| discriminate].
    destruct (IH s H) as [post ->]. exists post; reflexivity.
Qed.

Lemma prefix_append (p post : string) : prefix p (p ++ post) = true.
Proof.
  induction p as [| c p IH]; cbn.
  - destruct post; reflexivity.
  - destruct (ascii_dec c c); [exact IH | congruence].
Qed.

Lemma occurs_prefix (p s : string) : prefix p s = true -> occurs p s.
Proof.
  intros H. destruct (prefix_split p s H) as [post ->].
  exists "", post; reflexivity.
Qed.

Lemma occurs_tail (p s : string) (c : ascii) :
  occurs p s -> occurs p (String c s).
Proof. intros (pre & post & ->). exists (String c pre), post; reflexivity. Qed.

Lemma occurs_inv (p s : string) (c : ascii) :
  occurs p (String c s) -> prefix p (String c s) = true \/ occurs p s.
Proof.
  intros (pre & post & E). destruct pre as [| d pre].
  - left. cbn [append] in E. rewrite E. apply prefix_append.
  - right. cbn in E. injection E as _ ->. exists pre, post; reflexivity.
Qed.

Lemma occurs_empty (p : string) : occurs p "" -> p = "".
Proof.
  intros (pre & post & E). destruct pre; [| discriminate].
  destruct p; [reflexivity | discriminate].
Qed.

(** A prefix that avoids [c] ends before the first [c]. *)
Lemma prefix_before (p a b : string) (c : ascii) :
  ~ has_char c p -> prefix p (a ++ String c b) = true -> prefix p a = true.
Proof.
  revert a; induction p as [| x p IH]; intros a Hc H.
  - destruct a; reflexivity.
  - destruct a as [| y a]; cbn in H |- *.
    + destruct (ascii_dec x c) as [-> | _]; [| discriminate].
      exfalso; apply Hc; left; reflexivity.
    + destruct (ascii_dec x y) as [_ | _]; [| discriminate].
      apply IH; [| exact H]. intros Hin; apply Hc; right; exact Hin.
Qed.

(** An occurrence of [p] cannot straddle a character that [p] lacks. *)
Lemma occurs_across (p a b : string) (c : ascii) :
  ~ has_char c p ->
  occurs p (a ++ String c b) -> occurs p a \/ occurs p b.
Proof.
  intros Hc. induction a as [| y a IH]; intros H.
  - cbn [append] in H. apply occurs_inv in H as [H | H]; [| right; exact H].
    left. apply occurs_prefix. apply (prefix_before p "" b c Hc H).
  - cbn [append] in H. apply occurs_inv in H as [H | H].
    + left. apply occurs_prefix.
      apply (prefix_before p (String y a) b c Hc H).
    + destruct (IH H) as [H' | H']; [left | right; exact H'].
      apply occurs_tail; exact H'.
Qed.

Lemma absent_empty : absent "".
Proof. intros H. apply occurs_empty in H. discriminate H. Qed.

Lemma absent_cons (c : ascii) (s : string) :
  c <> "["%char -> absent s -> absent (String c s).
Proof.
  intros Hc Hs H. apply occurs_inv in H as [H | H]; [| exact (Hs H)].
  unfold object_Object in H. cbn [prefix] in H.
  destruct (ascii_dec "[" c) as [E | _]; [| discriminate].
  apply Hc; symmetry; exact E.
Qed.

Lemma absent_no_bracket (s : string) :
  ~ has_char "[" s -> absent s.
Proof.
  induction s as [| c s IH]; intros H; [apply absent_empty |].
  apply absent_cons.
  - intros ->. apply H; left; reflexivity.
  - apply IH. intros Hin; apply H; right; exact Hin.
Qed.

Lemma comma_not_in : ~ has_char "," object_Object.
Proof. cbv. intuition discriminate. Qed.

Lemma colon_not_in : ~ has_char ":" object_Object.
Proof. cbv. intuition discriminate. Qed.

Lemma absent_comma (a b : string) :
  absent a -> absent b -> absent (a ++ "," ++ b).
Proof.
  intros Ha Hb H. destruct (occurs_across _ a b "," comma_not_in H); auto.
Qed.

Lemma absent_comma_space (a b : string) :
  absent a -> absent b -> absent (a ++ ", " ++ b).
Proof.
  intros Ha Hb H.
  destruct (occurs_across _ a (String " " b) "," comma_not_in H) as [H'|H'];
    [exact (Ha H') |].
  revert H'. apply absent_cons; [discriminate | exact Hb].
Qed.

Lemma absent_colon_space (a b : string) :
  absent a -> absent b -> absent (a ++ ": " ++ b).
Proof.
  intros Ha Hb H.
  destruct (occurs_across _ a (String " " b) ":" colon_not_in H) as [H'|H'];
    [exact (Ha H') |].
  revert H'. apply absent_cons; [discriminate | exact Hb].
Qed.

Lemma absent_concat (sep : string) (l : list string) :
  (forall a b, absent a -> absent b -> absent (a ++ sep ++ b)) ->
  Forall absent l -> absent (String.concat sep l).
Proof.
  intros Hsep. induction l as [| x l IH]; intros H; [apply absent_empty |].
  apply Forall_cons_iff in H as [Hx Hl].
  destruct l as [| y l]; [exact Hx |].
  change (absent (x ++ sep ++ String.concat sep (y :: l))).
  apply Hsep; [exact Hx | apply IH; exact Hl].
Qed.

End Text.

Module MetadataFacts.
Import Js Metadata Text.

(** Structural induction through the lists nested in [value]. *)
Lemma value_nested_ind (P : value -> Prop) :
  P VUndefined -> P VNull -> (forall b, P (VBool b)) ->
  (forall n, P (VNum n)) -> (forall s, P (VStr s)) ->
  (forall items, Forall P items -> P (VArr items)) ->
  (forall props, Forall (fun kv => P (snd kv)) props -> P (VObj props)) ->
  forall v, P v.
Proof.
  intros Hu Hn Hb Hz Hs Ha Ho.
  refine (fix go (v : value) : P v :=
            match v with
            | VUndefined => Hu
            | VNull => Hn
            | VBool b => Hb b
            | VNum n => Hz n
            | VStr s => Hs s
            | VArr items =>
                Ha items
                   ((fix all (l : list value) : Forall P l :=
                       match l with
                       | [] => Forall_nil P
                       | x :: r => Forall_cons x (go x) (all r)
                       end) items)
            | VObj props =>
                Ho props
                   ((fix all (l : list (string * value))
                       : Forall (fun kv => P (snd kv)) l :=
                       match l with
                       | [] => Forall_nil _
                       | kv :: r => Forall_cons kv (go (snd kv)) (all r)
                       end) props)
            end).
Qed.

Lemma uint_absent (d : Decimal.uint) : absent (NilEmpty.string_of_uint d).
Proof.
  induction d; cbn; try apply absent_empty;
    (apply absent_cons; [discriminate | assumption]).
Qed.

Lemma number_absent (n : Z) : absent (number_to_string n).
Proof.
  unfold number_to_string, NilZero.string_of_int, NilZero.string_of_uint.
  destruct (Z.to_int n) as [d | d].
  - destruct d; try apply uint_absent.
    apply absent_no_bracket; cbv; intuition discriminate.
  - apply absent_cons; [discriminate |].
    destruct d; try apply uint_absent.
    apply absent_no_bracket; cbv; intuition discriminate.
Qed.

Lemma plain_items (items : list value) :
  plain (VArr items) -> Forall plain items.
Proof.
  intros [Hf Ht]. cbn in Hf, Ht.
  rewrite forallb_forall in Hf. rewrite Forall_flat_map in Ht.
  rewrite Forall_forall in Ht |- *. intros x Hx. split; auto.
Qed.

Lemma ToString_plain (v : value) : plain v -> absent (ToString v).
Proof.
  induction v as [| | b | n | s | items IH | props _] using value_nested_ind;
    intros Hp.
  - apply absent_no_bracket; cbv; intuition discriminate.
  - apply absent_no_bracket; cbv; intuition discriminate.
  - destruct b; apply absent_no_bracket; cbv; intuition discriminate.
  - apply number_absent.
  - destruct Hp as [_ Ht]. cbn in Ht. apply Forall_cons_iff in Ht. tauto.
  - apply plain_items in Hp. cbn [ToString].
    apply absent_concat; [apply absent_comma |].
    rewrite Forall_map. rewrite Forall_forall in IH, Hp |- *.
    intros x Hx. specialize (IH x Hx (Hp x Hx)).
    destruct x; try exact IH; apply absent_empty.
  - destruct Hp as [Hf _]. discriminate Hf.
Qed.

Lemma element_text_plain (v : value) : plain v -> absent (element_text v).
Proof.
  intros Hp. pose proof (ToString_plain v Hp) as H.
  destruct v; try exact H; apply absent_empty.
Qed.

Lemma join_plain (l : list value) :
  Forall plain l -> absent (join ", " l).
Proof.
  intros H. unfold join. apply absent_concat; [apply absent_comma_space |].
  rewrite Forall_map. revert H. apply Forall_impl. apply element_text_plain.
Qed.

Lemma plain_undefined : plain VUndefined.
Proof. split; [reflexivity | constructor]. Qed.

(** The values of a mapping that holds no further mapping are plain. *)
Lemma plain_props (props : list (string * value)) :
  flat_props props = true -> Forall absent (texts (VObj props)) ->
  Forall (fun kv => absent (fst kv) /\ plain (snd kv)) props.
Proof.
  unfold flat_props. intros Hf Ht. cbn in Ht.
  rewrite forallb_forall in Hf. rewrite Forall_flat_map in Ht.
  rewrite Forall_forall in Ht |- *. intros kv Hkv.
  specialize (Ht kv Hkv). apply Forall_cons_iff in Ht as [Hk Hv].
  repeat split; auto.
Qed.

Lemma plain_lookup (k : string) (props : list (string * value)) :
  Forall (fun kv => absent (fst kv) /\ plain (snd kv)) props ->
  plain (lookup k props).
Proof.
  induction 1 as [| [k' v] rest [_ Hv] _ IH]; cbn.
  - apply plain_undefined.
  - destruct (String.eqb k' k); assumption.
Qed.

Lemma plain_values (props : list (string * value)) :
  Forall (fun kv => absent (fst kv) /\ plain (snd kv)) props ->
  Forall plain (map snd props).
Proof.
  intros H. rewrite Forall_map. revert H. apply Forall_impl. tauto.
Qed.

Lemma plain_or_else (a b : value) : plain a -> plain b -> plain (or_else a b).
Proof. unfold or_else. destruct (truthy a); auto. Qed.

Lemma item_display_absent (it : value) :
  shallow_item it = true -> Forall absent (texts it) ->
  absent (element_text (item_display it)).
Proof.
  intros Hs Ht. destruct it as [| | b | n | s | items | props];
    try (apply (ToString_plain _ (conj Hs Ht))).
  - (* array item: it has none of the three properties *)
    cbn. apply join_plain. apply plain_items. split; assumption.
  - cbn [shallow_item] in Hs. pose proof (plain_props props Hs Ht) as Hp.
    unfold item_display.
    destruct (truthy (prop (VObj props) "name")
              || truthy (prop (VObj props) "title")
              || truthy (prop (VObj props) "id")).
    + apply element_text_plain. cbn [prop].
      repeat apply plain_or_else; apply plain_lookup; exact Hp.
    + cbn. apply join_plain. apply plain_values; exact Hp.
Qed.

Lemma append_if_absent (acc x : value) :
  absent (ToString acc) -> plain x -> absent (ToString (append_if acc x)).
Proof.
  intros Ha Hx. unfold append_if. destruct (truthy x); [| exact Ha].
  cbn [ToString]. apply absent_comma_space; [exact Ha |].
  apply ToString_plain; exact Hx.
Qed.

Lemma push_if_plain (parts : list value) (x : value) :
  Forall plain parts -> plain x -> Forall plain (push_if parts x).
Proof.
  intros Hp Hx. unfold push_if. destruct (truthy x); [| exact Hp].
  apply Forall_app; split; [exact Hp |].
  apply Forall_cons; [exact Hx | apply Forall_nil].
Qed.

Lemma displayed_absent (v : value) :
  shallow v = true -> Forall absent (texts v) -> absent (displayed v).
Proof.
  intros Hs Ht. unfold displayed.
  destruct v as [| | b | n | s | items | props].
  - apply absent_empty.
  - apply absent_empty.
  - apply (ToString_plain (VBool b)). split; [reflexivity | constructor].
  - apply number_absent.
  - cbn in Ht |- *. apply Forall_cons_iff in Ht. tauto.
  - cbn [getDisplayValue ToString]. unfold join.
    apply absent_concat; [apply absent_comma_space |].
    rewrite !Forall_map. cbn in Hs, Ht.
    rewrite forallb_forall in Hs. rewrite Forall_flat_map in Ht.
    rewrite Forall_forall in Ht |- *. intros it Hit.
    apply item_display_absent; [apply (Hs it Hit) | apply (Ht it Hit)].
  - cbn [shallow] in Hs. pose proof (plain_props props Hs Ht) as Hp.
    assert (Hl : forall k, plain (prop (VObj props) k))
      by (intros k; apply plain_lookup; exact Hp).
    unfold getDisplayValue.
    destruct (truthy (prop (VObj props) "name")).
    { repeat apply append_if_absent; try apply Hl.
      apply ToString_plain, Hl. }
    destruct (truthy (prop (VObj props) "contact")
              || truthy (prop (VObj props) "email")
              || truthy (prop (VObj props) "phone")).
    { cbn [ToString]. apply join_plain.
      repeat apply push_if_plain; try apply Hl. constructor. }
    destruct (List.length (entries (VObj props)) <=? 3)%nat.
    + cbn [ToString entries].
      apply absent_concat; [apply absent_comma_space |].
      rewrite Forall_map. revert Hp. apply Forall_impl.
      intros [k x] [Hk Hx]. cbn [fst snd] in *.
      apply absent_colon_space; [exact Hk | apply ToString_plain; exact Hx].
    + cbn [ToString values]. apply join_plain. apply plain_values; exact Hp.
Qed.

Lemma absent_words (l : list string) :
  forallb (fun s => negb (existsb (Ascii.eqb "[") (list_ascii_of_string s))) l
  = true ->
  Forall absent l.
Proof.
  intros H. rewrite forallb_forall in H. apply Forall_forall. intros s Hs.
  apply absent_no_bracket. intros Hin. specialize (H s Hs).
  apply negb_true_iff in H.
  assert (E : existsb (Ascii.eqb "[") (list_ascii_of_string s) = true).
  { apply existsb_exists. exists "["%char. split; [exact Hin |].
    apply Ascii.eqb_refl. }
  congruence.
Qed.

(** C5: [getDisplayValue], whose comments say that it handles nested
    objects, shows a mapping that lies inside a mapping by the default
    object rendering, as a list item and as a property value. The sibling
    [renderResponseGuide] turns such a value into JSON text. *)
Lemma nested_mapping_shows_object_Object :
  getDisplayValue (VArr [VObj [("details", VObj [("city", VStr "Paris")])]])
  = VStr "[object Object]"
  /\ getDisplayValue (VObj [("address", VObj [("city", VStr "Paris")])])
     = VStr "address: [object Object]".
Proof. split; reflexivity. Qed.

(** Where the rendering is readable: when mappings occur only at the top
    or as direct items of a top-level list and hold no mapping among their
    values, and no string or key of the value contains the default object
    rendering, the text shown for the value does not contain it either;
    strings are returned unchanged, [null] and [undefined] as the empty
    string, and a list as its item renderings joined by a comma and a
    space. *)
Theorem shallow_value_is_readable
  (v : value) (Hshallow : shallow v = true)
  (Htexts : Forall absent (texts v)) :
  getDisplayValue VUndefined = VStr ""
  /\ getDisplayValue VNull = VStr ""
  /\ (forall s, getDisplayValue (VStr s) = VStr s)
  /\ (forall items,
        getDisplayValue (VArr items)
        = VStr (String.concat ", "
                  (map (fun it => element_text (item_display it)) items)))
  /\ absent (displayed v)
  /\ displayed v <> "[object Object]".
Proof.
  repeat split.
  - intros items. cbn. unfold join. rewrite map_map. reflexivity.
  - apply displayed_absent; assumption.
  - intros E. apply (displayed_absent v Hshallow Htexts).
    rewrite E. exists "", "". reflexivity.
Qed.

Lemma shallow_value_is_readable_witness :
  let v := VArr [VObj [("name", VStr "Ann"); ("role", VStr "PM")];
                 VNum 3;
                 VArr [VStr "a"; VNull; VNum (-2)];
                 VObj [("city", VStr "Paris"); ("zip", VNum 75001)]] in
  displayed v = "Ann, 3, a, , -2, Paris, 75001"
  /\ absent (displayed v).
Proof.
  cbv zeta. split; [reflexivity |].
  refine (proj1 (proj2 (proj2 (proj2 (proj2
            (shallow_value_is_readable _ _ _)))))).
  - reflexivity.
  - apply absent_words. reflexivity.
Defined.

End MetadataFacts.

Module ChatFacts.
Import Api Chat.
Local Open Scope list_scope.

Lemma count_app (l1 l2 : list Node) :
  List.length (filter is_current_loading (l1 ++ l2))
  = List.length (filter is_current_loading l1)
    + List.length (filter is_current_loading l2).
Proof. rewrite filter_app, length_app. reflexivity. Qed.

Lemma count_remove (l : list Node) :
  List.length (filter is_current_loading (remove_first_loading l))
  = pred (List.length (filter is_current_loading l)).
Proof.
  induction l as [| n l IH]; [reflexivity |]. cbn.
  destruct (is_current_loading n) eqn:E; cbn; [reflexivity |].
  rewrite E. exact IH.
Qed.

Lemma inv_initial : inv initial.
Proof. left. repeat split. Qed.

Lemma sendChatMessage_busy (w : World) :
  loading (chatState w) = true -> sendChatMessage w = w.
Proof.
  intros H. unfold sendChatMessage. rewrite H, orb_true_r. reflexivity.
Qed.

Lemma sendChatMessage_blank (w : World) :
  trim (chatInput w) = "" -> sendChatMessage w = w.
Proof. intros H. unfold sendChatMessage. rewrite H. reflexivity. Qed.

Lemma sendChatMessage_sends (w : World) :
  trim (chatInput w) <> "" -> loading (chatState w) = false ->
  requests (sendChatMessage w)
  = requests w ++ [{| url := chatAPI; method := "POST";
                      body_message := trim (chatInput w) |}]
  /\ suspended (sendChatMessage w) = suspended w ++ [AwaitFetch]
  /\ loading (chatState (sendChatMessage w)) = true
  /\ count_loading (sendChatMessage w) = S (count_loading w).
Proof.
  intros Ht Hl. unfold sendChatMessage.
  apply String.eqb_neq in Ht. rewrite Ht, Hl. cbn.
  repeat split. unfold count_loading; cbn.
  rewrite <- app_assoc, !count_app. cbn. lia.
Qed.

Lemma catch_block_idle (i : nat) (e : string) (w : World) :
  inv w -> i < in_flight w ->
  loading (chatState (catch_block i e w)) = false
  /\ suspended (catch_block i e w) = []
  /\ count_loading (catch_block i e w) = 0.
Proof.
  unfold in_flight.
  intros [(_ & Hs & _) | (_ & Hc & st & Hs)] Hi; rewrite Hs in Hi; cbn in Hi;
    [lia |].
  assert (i = 0) by lia; subst i.
  unfold catch_block, count_loading in *; cbn. rewrite Hs; cbn.
  repeat split. rewrite count_app, count_remove, Hc. reflexivity.
Qed.

Lemma nth_error_in_flight (w : World) (i : nat) (st : Stage) :
  nth_error (suspended w) i = Some st -> i < in_flight w.
Proof.
  intros H. unfold in_flight. apply nth_error_Some. congruence.
Qed.

Lemma idle_inv (w : World) :
  loading (chatState w) = false /\ suspended w = [] /\ count_loading w = 0 ->
  inv w.
Proof. intros H. left. exact H. Qed.

Lemma resume_json_idle (i : nat) (o : JsonOutcome) (w : World) :
  inv w -> nth_error (suspended w) i = Some AwaitJson ->
  loading (chatState (resume_json i o w)) = false
  /\ suspended (resume_json i o w) = []
  /\ count_loading (resume_json i o w) = 0.
Proof.
  intros Hinv Hn. unfold resume_json. rewrite Hn.
  destruct o as [e | data].
  - apply catch_block_idle; [exact Hinv |].
    apply (nth_error_in_flight w i AwaitJson Hn).
  - pose proof (nth_error_in_flight w i _ Hn) as Hi. unfold in_flight in Hi.
    destruct Hinv as [(_ & Hs & _) | (_ & Hc & st & Hs)];
      rewrite Hs in Hi; cbn in Hi; [lia |].
    assert (i = 0) by lia; subst i.
    unfold count_loading in *.
    destruct (response_text data) as [t |]; [destruct (String.eqb t "") |];
      cbn; rewrite Hs; cbn; repeat split;
      rewrite count_app, count_remove, Hc; reflexivity.
Qed.

Lemma resume_fetch_failed_idle (i : nat) (o : FetchOutcome) (w : World) :
  inv w -> nth_error (suspended w) i = Some AwaitFetch -> failed o ->
  loading (chatState (resume_fetch i o w)) = false
  /\ suspended (resume_fetch i o w) = []
  /\ count_loading (resume_fetch i o w) = 0.
Proof.
  intros Hinv Hn Hf. unfold resume_fetch. rewrite Hn.
  pose proof (nth_error_in_flight w i _ Hn) as Hi.
  destruct o as [e | status]; cbn in Hf.
  - apply catch_block_idle; assumption.
  - rewrite Hf. cbn [negb]. apply catch_block_idle; assumption.
Qed.

Lemma step_inv (w : World) (e : Event) : inv w -> inv (step w e).
Proof.
  intros Hinv. destruct e as [s | | | i o | i o]; cbn [step].
  - exact Hinv.
  - unfold sendChatMessage.
    destruct (String.eqb (trim (chatInput w)) "") eqn:Et; [exact Hinv |].
    destruct (loading (chatState w)) eqn:El; [exact Hinv |].
    apply String.eqb_neq in Et.
    destruct (sendChatMessage_sends w Et El) as (_ & Hs & Hl & Hc).
    unfold sendChatMessage in Hs, Hl, Hc.
    apply String.eqb_neq in Et. rewrite Et, El in Hs, Hl, Hc. cbn [orb] in *.
    destruct Hinv as [(_ & Hs0 & Hc0) | (Hl0 & _)]; [| congruence].
    right. rewrite Hl, Hc, Hs, Hs0, Hc0. repeat split. exists AwaitFetch.
    reflexivity.
  - exact Hinv.
  - unfold resume_fetch.
    destruct (nth_error (suspended w) i) as [[|] |] eqn:Hn; try exact Hinv.
    pose proof (nth_error_in_flight w i _ Hn) as Hi.
    destruct o as [err | status];
      [| destruct (response_ok status); cbn [negb]].
    + apply idle_inv. apply catch_block_idle; assumption.
    + unfold in_flight in Hi.
      destruct Hinv as [(_ & Hs & _) | (Hl & Hc & st & Hs)];
        rewrite Hs in Hi; cbn in Hi; [lia |].
      assert (i = 0) by lia; subst i.
      right. cbn. rewrite Hs. repeat split; try assumption.
      exists AwaitJson. reflexivity.
    + apply idle_inv. apply catch_block_idle; assumption.
  - destruct (nth_error (suspended w) i) as [[|] |] eqn:Hn;
      try (unfold resume_json; rewrite Hn; exact Hinv).
    apply idle_inv. apply resume_json_idle; assumption.
Qed.

Lemma run_from_inv (events : list Event) (w : World) :
  inv w -> inv (fold_left step events w).
Proof.
  revert w; induction events as [| e events IH]; intros w H; cbn.
  - exact H.
  - apply IH, step_inv, H.
Qed.

Lemma run_inv (events : list Event) : inv (run events).
Proof. apply run_from_inv, inv_initial. Qed.

Lemma inv_in_flight (w : World) :
  inv w ->
  in_flight w <= 1 /\ (loading (chatState w) = true <-> in_flight w = 1).
Proof.
  unfold in_flight.
  intros [(Hl & Hs & _) | (Hl & _ & st & Hs)]; rewrite Hl, Hs; cbn;
    repeat split; intros; try lia; try congruence.
Qed.

Lemma catch_block_shape (i : nat) (e : string) (w : World) :
  chatMessages (catch_block i e w)
  = remove_first_loading (chatMessages w)
    ++ [message_node failure_text "system" []]
  /\ messages (chatState (catch_block i e w))
     = messages (chatState w)
       ++ [{| msg_text := failure_text; msg_type := "system";
              msg_sources := [] |}]
  /\ isOpen (chatState (catch_block i e w)) = isOpen (chatState w)
  /\ requests (catch_block i e w) = requests w
  /\ chatInput (catch_block i e w) = chatInput w
  /\ console (catch_block i e w) = console w ++ [e].
Proof. repeat split. Qed.

(** C4: a chat request that fails (network error or non-OK status) ends
    with the fixed failure message, which does not depend on the error;
    the loading indicator is gone, the loading flag is false, the earlier
    transcript is kept, and the next non-blank input is sent. *)
Theorem failed_request_recovers
  (events : list Event) (i : nat) (o : FetchOutcome)
  (Hwait : nth_error (suspended (run events)) i = Some AwaitFetch)
  (Hfail : failed o) :
  let w := run events in
  let w' := resume_fetch i o w in
  chatMessages w'
  = remove_first_loading (chatMessages w)
    ++ [MessageNode "system" failure_text "none" []]
  /\ count_loading w' = 0
  /\ loading (chatState w') = false
  /\ in_flight w' = 0
  /\ messages (chatState w')
     = messages (chatState w)
       ++ [{| msg_text := failure_text; msg_type := "system";
              msg_sources := [] |}]
  /\ isOpen (chatState w') = isOpen (chatState w)
  /\ requests w' = requests w
  /\ (forall s, trim s <> "" ->
        requests (step (step w' (UserTypes s)) SendRequested)
        = requests w' ++ [{| url := chatAPI; method := "POST";
                             body_message := trim s |}]).
Proof.
  intros w w'.
  destruct (resume_fetch_failed_idle i o w (run_inv events) Hwait Hfail)
    as (Hl & Hs & Hc).
  fold w' in Hl, Hs, Hc.
  assert (Hw' : exists e, w' = catch_block i e w).
  { unfold w', resume_fetch. fold w in Hwait. rewrite Hwait.
    destruct o as [e | status]; cbn in Hfail.
    - exists e; reflexivity.
    - rewrite Hfail. exists (status_error status); reflexivity. }
  destruct Hw' as [e Hw'].
  destruct (catch_block_shape i e w) as (Hm & Hmsg & Hopen & Hreq & _ & _).
  rewrite <- Hw' in Hm, Hmsg, Hopen, Hreq.
  repeat split; try assumption.
  - unfold in_flight. rewrite Hs. reflexivity.
  - intros s Hne. cbn [step].
    apply (sendChatMessage_sends (set_input s w')); [exact Hne | exact Hl].
Qed.

Lemma failed_request_recovers_witness :
  let w' := resume_fetch 0 (FetchResponse 500)
              (run [UserTypes "  hello "; SendRequested]) in
  chatMessages w'
  = [MessageNode "user" "hello" "none" [];
     MessageNode "system" failure_text "none" []]
  /\ loading (chatState w') = false.
Proof.
  cbv zeta.
  destruct (failed_request_recovers
              [UserTypes "  hello "; SendRequested] 0
              (FetchResponse 500) eq_refl eq_refl)
    as (H1 & _ & H3 & _).
  split; [exact H1 | exact H3].
Defined.

(** C8: at most one chat request is in flight. While [chatState.loading]
    is true a call of [sendChatMessage] changes nothing, and every way a
    suspended call can finish (success, non-OK response, thrown error)
    resets the flag. *)
Theorem at_most_one_request_in_flight (events : list Event) :
  let w := run events in
  in_flight w <= 1
  /\ (loading (chatState w) = true <-> in_flight w = 1)
  /\ (loading (chatState w) = true -> sendChatMessage w = w)
  /\ (forall i data, nth_error (suspended w) i = Some AwaitJson ->
        loading (chatState (resume_json i (JsonResolved data) w)) = false)
  /\ (forall i status, nth_error (suspended w) i = Some AwaitFetch ->
        response_ok status = false ->
        loading (chatState (resume_fetch i (FetchResponse status) w))
        = false)
  /\ (forall i e, nth_error (suspended w) i = Some AwaitFetch ->
        loading (chatState (resume_fetch i (FetchRejected e) w)) = false)
  /\ (forall i e, nth_error (suspended w) i = Some AwaitJson ->
        loading (chatState (resume_json i (JsonRejected e) w)) = false).
Proof.
  intros w. pose proof (run_inv events) as Hinv. fold w in Hinv.
  destruct (inv_in_flight w Hinv) as [Hle Hiff].
  split; [exact Hle |]. split; [exact Hiff |].
  split; [apply sendChatMessage_busy |].
  repeat split; intros i x Hn.
  - apply (resume_json_idle i (JsonResolved x) w Hinv Hn).
  - intros Hx. apply (resume_fetch_failed_idle i _ w Hinv Hn). exact Hx.
  - apply (resume_fetch_failed_idle i _ w Hinv Hn). exact I.
  - apply (resume_json_idle i (JsonRejected x) w Hinv Hn).
Qed.

Lemma at_most_one_request_in_flight_witness :
  let w := run [UserTypes "first"; SendRequested;
                UserTypes "second"; SendRequested] in
  in_flight w <= 1 /\ sendChatMessage w = w
  /\ List.length (requests w) = 1.
Proof.
  cbv zeta.
  destruct (at_most_one_request_in_flight
              [UserTypes "first"; SendRequested;
               UserTypes "second"; SendRequested])
    as (H1 & _ & H3 & _).
  split; [exact H1 |]. split; [apply H3; reflexivity | reflexivity].
Defined.

End ChatFacts.

Module ShellFacts.
Import Shell.

Lemma services_script_dirs (inv : Invocation) :
  embedder_dirs (services_embed_knowledge_sh inv)
  = Some (deployment_root ++ "/Responses", deployment_root ++ "/rfp-data").
Proof. reflexivity. Qed.

Lemma not_supplied (script : Invocation -> list Effect) (d : string * string) :
  (forall inv, embedder_dirs (script inv) = Some d) ->
  ~ externally_supplied script.
Proof.
  intros Hconst Hext.
  destruct (Hext (String "x" (fst d)) (snd d)) as [inv Hinv].
  rewrite Hconst in Hinv. destruct d as [a b]; cbn in Hinv.
  injection Hinv as Ha.
  assert (Hlen : String.length a = String.length (String "x" a))
    by (rewrite <- Ha; reflexivity).
  cbn in Hlen. lia.
Qed.

(** C1, as stated, fails: started with other directories in its arguments
    and its environment, services/embed_knowledge.sh still hands the fixed
    deployment paths to the embedder, and so no invocation can choose
    them. *)
Lemma scripts_hardcode_directories :
  embedder_dirs (services_embed_knowledge_sh some_invocation)
  = Some ("/Users/u1112870/Library/CloudStorage/OneDrive-IQVIA/Ananth/Personal/Arokia_sir/Responses",
          "/Users/u1112870/Library/CloudStorage/OneDrive-IQVIA/Ananth/Personal/Arokia_sir/rfp-data")
  /\ embedder_dirs (services_embed_knowledge_sh some_invocation)
     <> Some ("/srv/docs", "/srv/index")
  /\ ~ externally_supplied services_embed_knowledge_sh.
Proof.
  split; [reflexivity |]. split; [discriminate |].
  apply (not_supplied _ _ services_script_dirs).
Qed.

(** C1, amended: each script fixes the two directories in its own text and
    hands them to the embedder as its two positional arguments, whatever
    the arguments and the environment of the script are. *)
Theorem scripts_pass_fixed_directories (inv : Invocation) :
  embedder_dirs (services_embed_knowledge_sh inv)
  = Some (deployment_root ++ "/Responses", deployment_root ++ "/rfp-data")
  /\ embedder_dirs (embed_knowledge_sh inv)
     = Some ("../Responses", "../rfp-data")
  /\ embedder_dirs (embed_knowledge_bat inv)
     = Some ("../Responses", "../rfp-data").
Proof. repeat split. Qed.

End ShellFacts.

Module EmbedderFacts.
Import Embedder.

Lemma substring_whole (s : string) (n : nat) :
  String.length s <= n -> substring 0 n s = s.
Proof.
  revert n; induction s as [| c s IH]; intros n H.
  - destruct n; reflexivity.
  - destruct n; cbn in H |- *; [lia |]. rewrite IH by lia. reflexivity.
Qed.

Lemma windows_short (s : string) (size step : nat) :
  String.length s <= size -> windows s size step 0 = [(0, s)].
Proof.
  intros H. simp windows.
  destruct (le_lt_dec (String.length s) (0 + size)) as [Hle | Hlt]; cbn.
  - rewrite substring_whole by exact H. reflexivity.
  - cbn in Hlt. lia.
Qed.

Lemma chunk_example :
  map text (chunk "doc" "abcdefghij" 4 1) = ["abcd"; "defg"; "ghij"].
Proof. reflexivity. Qed.

(** C6: a document no longer than [maxChunkSize] yields exactly one chunk,
    whose text is the document. *)
Theorem short_document_one_chunk
  (doc D : string) (maxChunkSize overlapSize : nat)
  (Hshort : String.length D <= maxChunkSize) :
  exists c, chunk doc D maxChunkSize overlapSize = [c] /\ text c = D.
Proof.
  unfold chunk. rewrite windows_short by exact Hshort.
  eexists; split; reflexivity.
Qed.

Lemma short_document_one_chunk_witness :
  exists c, chunk "notes.txt" "short text" 500 50 = [c]
            /\ text c = "short text".
Proof.
  apply (short_document_one_chunk "notes.txt" "short text" 500 50).
  cbn. lia.
Defined.

End EmbedderFacts.

Module ResponsesFacts.
Import Api Responses.

Lemma or_default_cases (fallback : string) :
  or_default None fallback = fallback
  /\ or_default (Some "") fallback = fallback
  /\ (forall label, label <> "" -> or_default (Some label) fallback = label).
Proof.
  repeat split. intros label H. unfold or_default.
  apply String.eqb_neq in H. rewrite H. reflexivity.
Qed.








End ResponsesFacts.

Module RetrieverFacts.
Import Retriever.
Local Open Scope list_scope.

Section Facts.

Variables Vector Index : Type.
Variable load : option (Index * Store).
Variable embedText : string -> option Vector.
Variable with_score : Index -> Vector -> nat -> option (list (ChunkId * Q)).
Variable with_relevance : Index -> Vector -> nat -> option (list (ChunkId * Q)).
Variable bare : Index -> Vector -> nat -> option (list ChunkId).

Let nearest := nearest with_score with_relevance bare.
Let search := search load embedText with_score with_relevance bare.

Lemma attempts_app (t1 t2 : list IO) :
  attempts (t1 ++ t2) = attempts t1 ++ attempts t2.
Proof.
  induction t1 as [| io t1 IH]; [reflexivity |].
  destruct io; cbn; rewrite IH; reflexivity.
Qed.

Lemma attempts_resolve (store : Store) (hits : list (ChunkId * Q))
      (st : State Index) :
  attempts (trace_of (resolve store hits st)) = []
  /\ state_of (resolve store hits st) = st.
Proof.
  induction hits as [| [id sc] hits [IHt IHs]]; [split; reflexivity |].
  cbn. unfold bind, emit. cbn.
  destruct (store id) as [c |]; cbn; [| split; reflexivity].
  unfold trace_of, state_of in IHt, IHs.
  destruct (resolve store hits st) as [[t st'] [e | rs]]; cbn in *;
    rewrite ?app_nil_r; split; assumption.
Qed.

(** The three possible logs of the strategy chain. *)
Lemma nearest_cases (index : Index) (v : Vector) (k : nat) (st : State Index) :
  nearest index v k st
  = match with_score index v k with
    | Some hits => ([IndexSearch Primary; Served Primary], st, inr hits)
    | None =>
        match with_relevance index v k with
        | Some hits =>
            ([IndexSearch Primary; IndexSearch Normalized; Served Normalized],
             st, inr hits)
        | None =>
            match bare index v k with
            | Some ids =>
                ([IndexSearch Primary; IndexSearch Normalized;
                  IndexSearch Bare; Served Bare],
                 st, inr (with_rank_scores 0 ids))
            | None =>
                ([IndexSearch Primary; IndexSearch Normalized;
                  IndexSearch Bare], st, inl SearchFailure)
            end
        end
    end.
Proof.
  unfold nearest, Retriever.nearest, attempt, bind, emit, ret, raise; cbn.
  destruct (with_score index v k); [reflexivity |].
  destruct (with_relevance index v k); [reflexivity |].
  destruct (bare index v k); reflexivity.
Qed.

Lemma search_invalid (queryText : string) (k : Z) (st : State Index) :
  queryText = "" \/ (k <= 0)%Z ->
  search queryText k st = ([], st, inl InputValidation).
Proof.
  intros H. unfold search, Retriever.search.
  assert (E : String.eqb queryText "" || (k <=? 0)%Z = true).
  { destruct H as [-> | H]; [reflexivity |].
    apply orb_true_iff; right. apply Z.leb_le; exact H. }
  rewrite E. reflexivity.
Qed.

(** What [ensure_ready] does in each state. *)
Lemma ensure_ready_entry (st : State Index) :
  match entry load st with
  | Some (index, store) =>
      exists t, ensure_ready load st = (t, Ready index store, inr (index, store))
                /\ attempts t = []
  | None =>
      exists t st', ensure_ready load st = (t, st', inl NotInitialized)
                    /\ attempts t = []
  end.
Proof.
  destruct st as [| index store |]; cbn.
  - destruct load as [[index store] |]; cbn.
    + exists [LoadIndex]. split; reflexivity.
    + exists [LoadIndex], Unavailable. split; reflexivity.
  - exists []. split; reflexivity.
  - exists [], Unavailable. split; reflexivity.
Qed.

(** A valid query tries exactly the strategies that the chain tries, when
    the retriever is ready or becomes ready and the query is embedded, and
    none otherwise. *)
Lemma search_attempts (queryText : string) (k : Z) (st : State Index) :
  queryText <> "" -> (0 < k)%Z ->
  attempts (trace_of (search queryText k st))
  = match entry load st, embedText queryText with
    | Some (index, store), Some v =>
        attempts (trace_of (nearest index v (Z.to_nat k) (Ready index store)))
    | _, _ => []
    end.
Proof.
  intros Hq Hk. unfold search, Retriever.search.
  apply String.eqb_neq in Hq. apply Z.leb_gt in Hk. rewrite Hq, Hk. cbn [orb].
  unfold bind at 1.
  pose proof (ensure_ready_entry st) as Hready.
  destruct (entry load st) as [[index store] |].
  - destruct Hready as (t0 & -> & Ht0).
    unfold bind at 1. unfold embed, bind at 1, emit.
    destruct (embedText queryText) as [v |]; cbn [ret raise fst snd].
    + unfold bind at 1.
      fold (nearest index v (Z.to_nat k) (Ready index store)).
      rewrite nearest_cases.
      destruct (with_score index v (Z.to_nat k)) as [h1 |];
        [| destruct (with_relevance index v (Z.to_nat k)) as [h2 |];
           [| destruct (bare index v (Z.to_nat k)) as [ids |]]].
      4: { cbn. rewrite attempts_app, Ht0. reflexivity. }
      all: unfold bind;
        match goal with
        | |- context [resolve ?sto ?h ?s] =>
            destruct (attempts_resolve sto h s) as [Ht _];
            unfold trace_of in Ht;
            destruct (resolve sto h s) as [[t st'] [e | rs]]
        end; cbn in *;
        rewrite ?app_nil_r, ?attempts_app, ?Ht0; cbn;
        rewrite ?attempts_app, ?Ht; cbn; rewrite ?Ht; reflexivity.
    + cbn. rewrite attempts_app, Ht0. reflexivity.
  - destruct Hready as (t0 & st' & -> & Ht0). cbn. exact Ht0.
Qed.

Lemma rank_score_nth (ids : list ChunkId) (r i : nat) (hit : ChunkId * Q) :
  nth_error (with_rank_scores r ids) i = Some hit ->
  snd hit = rank_score (r + i).
Proof.
  revert r i; induction ids as [| id ids IH]; intros r i H.
  - destruct i; discriminate H.
  - destruct i as [| i]; cbn in H.
    + injection H as <-. cbn. rewrite Nat.add_0_r. reflexivity.
    + rewrite (IH (S r) i H). f_equal. lia.
Qed.

Lemma with_rank_scores_ids (ids : list ChunkId) (r : nat) :
  map fst (with_rank_scores r ids) = ids.
Proof.
  revert r; induction ids as [| id ids IH]; intros r; [reflexivity |].
  cbn. rewrite IH. reflexivity.
Qed.

End Facts.

(** The default score falls with the rank. *)
Lemma rank_score_descending (i j : nat) :
  i < j -> Qlt (rank_score j) (rank_score i).
Proof.
  intros Hij. unfold rank_score, Qlt. cbn.
  rewrite !Zpos_P_of_succ_nat. lia.
Qed.

(** C3: a valid query tries the strategies in the order primary,
    relevance-normalized, bare, from whatever state the retriever is in:
    none when the retriever is not ready and cannot load, or the query
    cannot be embedded; otherwise the primary one always, a later one
    exactly when every earlier one raised, whatever hits an earlier one
    returned; and the hits of the bare search carry scores made from their
    ranks that fall strictly along the ranking. *)
Theorem fallback_only_after_error
  (Vector Index : Type)
  (load : option (Index * Store))
  (embedText : string -> option Vector)
  (with_score with_relevance : Index -> Vector -> nat -> option (list (ChunkId * Q)))
  (bare : Index -> Vector -> nat -> option (list ChunkId))
  (queryText : string) (k : Z) (st : State Index)
  (Hquery : queryText <> "") (Hk : (0 < k)%Z) :
  let run := search load embedText with_score with_relevance bare
               queryText k st in
  let tried := attempts (trace_of run) in
  match st, load with
  | Unavailable, _ | Uninitialized, None => tried = []
  | Ready index store, _ | Uninitialized, Some (index, store) =>
      match embedText queryText with
      | None => tried = []
      | Some v =>
          let n := Z.to_nat k in
          let chain := nearest with_score with_relevance bare
                         index v n (Ready index store) in
          (tried = [Primary] \/ tried = [Primary; Normalized]
           \/ tried = [Primary; Normalized; Bare])
          /\ (In Normalized tried <-> with_score index v n = None)
          /\ (In Bare tried <->
              with_score index v n = None /\ with_relevance index v n = None)
          /\ (forall hits, with_score index v n = Some hits ->
                tried = [Primary] /\ result_of chain = inr hits)
          /\ (forall hits, with_score index v n = None ->
                with_relevance index v n = Some hits ->
                tried = [Primary; Normalized] /\ result_of chain = inr hits)
          /\ (forall ids, with_score index v n = None ->
                with_relevance index v n = None ->
                bare index v n = Some ids ->
                tried = [Primary; Normalized; Bare]
                /\ exists hits, result_of chain = inr hits
                   /\ map fst hits = ids
                   /\ forall i j a b, i < j ->
                        nth_error hits i = Some a ->
                        nth_error hits j = Some b ->
                        Qeq (snd a) (1 # Pos.of_succ_nat i)
                        /\ Qeq (snd b) (1 # Pos.of_succ_nat j)
                        /\ Qlt (snd b) (snd a))
      end
  end.
Proof.
  intros run tried.
  pose proof (search_attempts Vector Index load embedText with_score
                with_relevance bare queryText k st Hquery Hk) as Htried.
  fold run in Htried. fold tried in Htried.
  assert (Hmain : forall index store,
            entry load st = Some (index, store) ->
            match embedText queryText with
            | None => tried = []
            | Some v =>
                let n := Z.to_nat k in
                let chain := nearest with_score with_relevance bare
                               index v n (Ready index store) in
                (tried = [Primary] \/ tried = [Primary; Normalized]
                 \/ tried = [Primary; Normalized; Bare])
                /\ (In Normalized tried <-> with_score index v n = None)
                /\ (In Bare tried <->
                    with_score index v n = None
                    /\ with_relevance index v n = None)
                /\ (forall hits, with_score index v n = Some hits ->
                      tried = [Primary] /\ result_of chain = inr hits)
                /\ (forall hits, with_score index v n = None ->
                      with_relevance index v n = Some hits ->
                      tried = [Primary; Normalized]
                      /\ result_of chain = inr hits)
                /\ (forall ids, with_score index v n = None ->
                      with_relevance index v n = None ->
                      bare index v n = Some ids ->
                      tried = [Primary; Normalized; Bare]
                      /\ exists hits, result_of chain = inr hits
                         /\ map fst hits = ids
                         /\ forall i j a b, i < j ->
                              nth_error hits i = Some a ->
                              nth_error hits j = Some b ->
                              Qeq (snd a) (1 # Pos.of_succ_nat i)
                              /\ Qeq (snd b) (1 # Pos.of_succ_nat j)
                              /\ Qlt (snd b) (snd a))
            end).
  { intros index store Hentry. rewrite Hentry in Htried.
    destruct (embedText queryText) as [v |]; [| exact Htried].
    intros n chain. subst chain.
    rewrite nearest_cases in Htried |- *. fold n in Htried.
    destruct (with_score index v n) as [h1 |];
      [| destruct (with_relevance index v n) as [h2 |];
         [| destruct (bare index v n) as [ids |]]];
      cbn in Htried; rewrite Htried; cbn [result_of snd].
    all: repeat match goal with |- _ /\ _ => split end;
      try (intros; discriminate); try tauto;
      try (split; [cbn; intuition discriminate | intros; intuition discriminate]);
      try (split; [intros _; auto | cbn; auto]).
    - intros hits [= <-]. auto.
    - intros hits _ [= <-]. auto.
    - intros ids' _ _ [= <-]. split; [reflexivity |].
      exists (with_rank_scores 0 ids). split; [reflexivity |].
      split; [apply with_rank_scores_ids |].
      intros i j a b Hij Ha Hb.
      rewrite (rank_score_nth ids 0 i a Ha).
      rewrite (rank_score_nth ids 0 j b Hb). cbn [Nat.add].
      split; [reflexivity |]. split; [reflexivity |].
      apply rank_score_descending; exact Hij. }
  destruct st as [| index store |]; cbn [entry] in *.
  - destruct load as [[index store] |]; [apply Hmain; reflexivity |].
    exact Htried.
  - apply Hmain; reflexivity.
  - exact Htried.
Qed.

End RetrieverFacts.

Module ValidationFacts.
Import Retriever.

(** C2: a search with an empty query or a non-positive [k] is rejected as
    an input-validation failure with an empty access log and an unchanged
    retriever; a chat input that trims to the empty string sends no request
    and adds no message. *)
Theorem invalid_input_rejected_before_io
  (Vector Index : Type)
  (load : option (Index * Store))
  (embedText : string -> option Vector)
  (with_score with_relevance : Index -> Vector -> nat -> option (list (ChunkId * Q)))
  (bare : Index -> Vector -> nat -> option (list ChunkId))
  (queryText : string) (k : Z) (st : State Index) (w : Chat.World)
  (Hinvalid : queryText = "" \/ (k <= 0)%Z)
  (Hblank : Chat.trim (Chat.chatInput w) = "") :
  search load embedText with_score with_relevance bare queryText k st
  = ([], st, inl InputValidation)
  /\ Chat.sendChatMessage w = w
  /\ Chat.requests (Chat.sendChatMessage w) = Chat.requests w
  /\ Chat.messages (Chat.chatState (Chat.sendChatMessage w))
     = Chat.messages (Chat.chatState w)
  /\ Chat.chatMessages (Chat.sendChatMessage w) = Chat.chatMessages w.
Proof.
  split; [apply RetrieverFacts.search_invalid; exact Hinvalid |].
  rewrite (ChatFacts.sendChatMessage_blank w Hblank). repeat split.
Qed.

Lemma invalid_input_rejected_before_io_witness :
  search (Vector := unit) (Index := unit) None (fun _ => None)
    (fun _ _ _ => None) (fun _ _ _ => None) (fun _ _ _ => None)
    "pricing" 0 Uninitialized
  = ([], Uninitialized, inl InputValidation)
  /\ Chat.sendChatMessage (Chat.set_input Chat.blank_input Chat.initial)
     = Chat.set_input Chat.blank_input Chat.initial.
Proof.
  destruct (invalid_input_rejected_before_io unit unit None (fun _ => None)
              (fun _ _ _ => None) (fun _ _ _ => None) (fun _ _ _ => None)
              "pricing" 0 Uninitialized
              (Chat.set_input Chat.blank_input Chat.initial))
    as (H1 & H2 & _).
  - right. lia.
  - reflexivity.
  - split; assumption.
Defined.

Lemma fallback_only_after_error_witness :
  attempts
    (trace_of
       (search (Vector := nat) (Index := unit)
          (Some (tt, sample_store)) (fun _ => Some 7)
          (fun _ _ _ => None) (fun _ _ _ => None)
          (fun _ _ _ => Some [("guide.pdf", 0); ("guide.pdf", 900)])
          "pricing model" 2 Uninitialized))
  = [Primary; Normalized; Bare]
  /\ result_of
       (nearest (Vector := nat) (Index := unit)
          (fun _ _ _ => None) (fun _ _ _ => None)
          (fun _ _ _ => Some [("guide.pdf", 0); ("guide.pdf", 900)])
          tt 7 2 (Ready tt sample_store))
     = inr [(("guide.pdf", 0), Qmake 1 1); (("guide.pdf", 900), Qmake 1 2)].
Proof.
  pose proof (RetrieverFacts.fallback_only_after_error nat unit
                (Some (tt, sample_store))
                (fun _ => Some 7) (fun _ _ _ => None) (fun _ _ _ => None)
                (fun _ _ _ => Some [("guide.pdf", 0); ("guide.pdf", 900)])
                "pricing model" 2 Uninitialized
                ltac:(discriminate) ltac:(lia)) as H.
  cbv zeta in H. cbv beta iota in H.
  destruct H as (_ & _ & _ & _ & _ & H).
  destruct (H [("guide.pdf", 0); ("guide.pdf", 900)] eq_refl eq_refl eq_refl)
    as [Ht _].
  split; [exact Ht | reflexivity].
Defined.

End ValidationFacts.

Module ChatTranscriptFacts.
Import Api Chat ChatTranscript.
Local Open Scope list_scope.

(** Every property of the reachable states is shown along the events. *)
Lemma run_ind (P : World -> Prop) :
  P initial -> (forall w e, P w -> P (step w e)) ->
  forall events, P (run events).
Proof.
  intros H0 Hstep events. unfold run.
  assert (G : forall w, P w -> P (fold_left step events w)).
  { induction events as [| e events IH]; intros w Hw; cbn; [exact Hw |].
    apply IH, Hstep, Hw. }
  apply G, H0.
Qed.

(** The cases of one step, by the branch of the code that runs. *)
Ltac step_cases w e :=
  destruct e as [s | | | i o | i o]; cbn [step];
  [ | unfold sendChatMessage;
      destruct (String.eqb (trim (chatInput w)) "") eqn:Et; cbn [orb];
      [| destruct (loading (chatState w)) eqn:El]
    | | unfold resume_fetch;
      destruct (nth_error (suspended w) i) as [[|] |] eqn:Hn;
      [destruct o as [err | status];
       [| destruct (response_ok status); cbn [negb]] | |]
    | unfold resume_json;
      destruct (nth_error (suspended w) i) as [[|] |] eqn:Hn;
      [| destruct o as [err | data];
         [| destruct (response_text data) as [t |];
            [destruct (String.eqb t "") eqn:Ett |]] |] ].

Lemma shown_remove (l : list Node) :
  filter is_message_node (remove_first_loading l) = filter is_message_node l.
Proof.
  induction l as [| n l IH]; [reflexivity |].
  destruct n as [ty tx d it | id]; cbn; [rewrite IH; reflexivity |].
  destruct (String.eqb id "current-loading"); cbn; [reflexivity | exact IH].
Qed.

(** X1: after any sequence of events, the message elements on the page are
    exactly the messages recorded in [chatState.messages], in order. *)
Theorem page_mirrors_state (events : list Event) :
  shown (run events) = map node_of (messages (chatState (run events))).
Proof.
  apply (run_ind (fun w => shown w = map node_of (messages (chatState w))));
    [reflexivity |].
  intros w e IH. unfold shown in *.
  step_cases w e; try exact IH; cbn;
    rewrite ?filter_app, ?shown_remove, ?map_app, ?IH; cbn;
    rewrite ?app_nil_r; reflexivity.
Qed.

Lemma trim_start_idem (l : list ascii) :
  trim_start (trim_start l) = trim_start l.
Proof.
  induction l as [| c l IH]; [reflexivity |]. cbn.
  destruct (is_space c) eqn:E; [exact IH |]. cbn. rewrite E. reflexivity.
Qed.

Lemma trim_start_snoc (l : list ascii) (c : ascii) :
  is_space c = false -> trim_start (l ++ [c]) = trim_start l ++ [c].
Proof.
  intros Hc. induction l as [| x l IH]; cbn.
  - rewrite Hc. reflexivity.
  - destruct (is_space x); [exact IH | reflexivity].
Qed.

Lemma trim_start_head (l : list ascii) :
  match trim_start l with
  | [] => True
  | c :: _ => is_space c = false
  end.
Proof.
  induction l as [| c l IH]; cbn; [exact I |].
  destruct (is_space c) eqn:E; [exact IH | exact E].
Qed.

(** [trim] leaves an already trimmed string as it is. *)
Lemma trim_idem (s : string) : trim (trim s) = trim s.
Proof.
  unfold trim. rewrite list_ascii_of_string_of_list_ascii. f_equal.
  pose proof (trim_start_head (list_ascii_of_string s)) as Hh.
  destruct (trim_start (list_ascii_of_string s)) as [| c r]; [reflexivity |].
  cbn [rev]. rewrite (trim_start_snoc _ _ Hh), rev_app_distr. cbn [rev app].
  cbn [trim_start]. rewrite Hh. cbn [rev].
  rewrite (trim_start_snoc _ _ Hh), rev_app_distr. cbn [rev app].
  rewrite rev_involutive, trim_start_idem. reflexivity.
Qed.

(** X2: every request is a POST to /api/chat, and the bodies of the requests
    sent so far are the texts of the user messages of the transcript, one
    request per user message, in order. *)
Theorem requests_match_user_messages (events : list Event) :
  map body_message (requests (run events))
  = map msg_text (user_messages (run events))
  /\ Forall (fun r => url r = "/api/chat" /\ method r = "POST")
            (requests (run events)).
Proof.
  apply (run_ind (fun w =>
    map body_message (requests w) = map msg_text (user_messages w)
    /\ Forall (fun r => url r = "/api/chat" /\ method r = "POST")
              (requests w))).
  - split; [reflexivity | constructor].
  - intros w e [IH1 IH2]. unfold user_messages in *.
    step_cases w e; try (split; assumption); cbn;
      rewrite ?filter_app, ?map_app; cbn; rewrite ?app_nil_r;
      try (split; assumption).
    split; [rewrite IH1; reflexivity |].
    apply Forall_app; split; [exact IH2 |].
    constructor; [split; reflexivity | constructor].
Qed.

Lemma trim_start_suffix (l : list ascii) :
  exists pre, l = pre ++ trim_start l.
Proof.
  induction l as [| c l [pre IH]]; [exists []; reflexivity |]. cbn.
  destruct (is_space c).
  - exists (c :: pre). cbn. rewrite <- IH. reflexivity.
  - exists []. reflexivity.
Qed.

Lemma list_ascii_of_string_app (a b : string) :
  list_ascii_of_string (a ++ b)%string
  = list_ascii_of_string a ++ list_ascii_of_string b.
Proof. induction a as [| c a IH]; cbn; [| rewrite IH]; reflexivity. Qed.

Lemma is_space_codes (c : ascii) :
  is_space c = false -> ~ In (nat_of_ascii c) [9; 10; 11; 12; 13; 32; 160].
Proof.
  unfold is_space. intros H Hin. cbn [In] in Hin.
  repeat (destruct Hin as [E | Hin]; [rewrite <- E in H; discriminate H |]).
  exact Hin.
Qed.

(** The first and the last code unit of a trimmed string are no white
    space. *)
Lemma trim_ends (s : string) (c : ascii) :
  (exists rest, trim s = String c rest)
  \/ (exists init, trim s = (init ++ String c "")%string) ->
  is_space c = false.
Proof.
  assert (Hl : list_ascii_of_string (trim s)
               = rev (trim_start (rev (trim_start (list_ascii_of_string s)))))
    by (unfold trim; apply list_ascii_of_string_of_list_ascii).
  set (l := trim_start (list_ascii_of_string s)) in *.
  pose proof (trim_start_head (list_ascii_of_string s)) as Hhead. fold l in Hhead.
  pose proof (trim_start_head (rev l)) as Hlast.
  destruct (trim_start_suffix (rev l)) as [pre Hpre].
  intros [[rest E] | [init E]]; rewrite E in Hl.
  - cbn [list_ascii_of_string] in Hl.
    assert (El : l = (c :: list_ascii_of_string rest) ++ rev pre).
    { rewrite Hl, <- rev_app_distr, <- Hpre. symmetry. apply rev_involutive. }
    rewrite El in Hhead. exact Hhead.
  - rewrite list_ascii_of_string_app in Hl. cbn [list_ascii_of_string] in Hl.
    assert (Et : trim_start (rev l) = c :: rev (list_ascii_of_string init)).
    { rewrite <- (rev_involutive (trim_start (rev l))), <- Hl.
      rewrite rev_app_distr. reflexivity. }
    rewrite Et in Hlast. exact Hlast.
Qed.

(** X3: no request carries a blank message: every body sent is non-empty
    and trimmed, so neither its first nor its last code unit is white
    space (TAB, LF, VT, FF, CR, SP or NBSP). *)
Theorem request_bodies_are_trimmed (events : list Event) :
  Forall (fun r =>
            body_message r <> ""
            /\ trim (body_message r) = body_message r
            /\ (forall c rest, body_message r = String c rest ->
                   ~ In (nat_of_ascii c) [9; 10; 11; 12; 13; 32; 160])
            /\ (forall c init, body_message r = (init ++ String c "")%string ->
                   ~ In (nat_of_ascii c) [9; 10; 11; 12; 13; 32; 160]))
         (requests (run events)).
Proof.
  apply (run_ind (fun w =>
    Forall (fun r =>
              body_message r <> ""
              /\ trim (body_message r) = body_message r
              /\ (forall c rest, body_message r = String c rest ->
                     ~ In (nat_of_ascii c) [9; 10; 11; 12; 13; 32; 160])
              /\ (forall c init, body_message r = (init ++ String c "")%string ->
                     ~ In (nat_of_ascii c) [9; 10; 11; 12; 13; 32; 160]))
           (requests w))); [constructor |].
  intros w e IH. step_cases w e; try exact IH.
  cbn. apply Forall_app; split; [exact IH |].
  constructor; [| constructor]. cbn. split; [| split; [| split]].
  - apply String.eqb_neq; exact Et.
  - apply trim_idem.
  - intros c rest E. apply is_space_codes.
    apply (trim_ends (chatInput w) c). left. exists rest. exact E.
  - intros c init E. apply is_space_codes.
    apply (trim_ends (chatInput w) c). right. exists init. exact E.
Qed.

Lemma remove_nth_length {A : Type} (i : nat) (l : list A) (a : A) :
  nth_error l i = Some a -> S (List.length (remove_nth i l)) = List.length l.
Proof.
  revert i; induction l as [| x l IH]; intros i H.
  - destruct i; discriminate H.
  - destruct i as [| i]; cbn; [reflexivity |].
    cbn in H. rewrite (IH i H). reflexivity.
Qed.

Lemma replace_nth_length {A : Type} (i : nat) (a : A) (l : list A) :
  List.length (replace_nth i a l) = List.length l.
Proof.
  revert i; induction l as [| x l IH]; intros i; [destruct i; reflexivity |].
  destruct i; cbn; [reflexivity | rewrite IH; reflexivity].
Qed.

(** X4: every message of the transcript is a user or a system message, and
    each user message has exactly one system reply once its request is no
    longer in flight: the user messages number the system messages plus the
    requests in flight. *)
Theorem every_user_message_gets_one_reply (events : list Event) :
  let w := run events in
  List.length (user_messages w)
  = List.length (system_messages w) + in_flight w
  /\ List.length (messages (chatState w))
     = List.length (user_messages w) + List.length (system_messages w).
Proof.
  apply (run_ind (fun w =>
    List.length (user_messages w)
    = List.length (system_messages w) + in_flight w
    /\ List.length (messages (chatState w))
       = List.length (user_messages w) + List.length (system_messages w))).
  - split; reflexivity.
  - intros w e [IH1 IH2].
    unfold user_messages, system_messages, in_flight in *.
    step_cases w e; try (split; assumption); cbn;
      rewrite ?filter_app, ?length_app, ?replace_nth_length; cbn;
      try (pose proof (remove_nth_length i _ _ Hn)); lia.
Qed.

(** X5: the transcript only grows: whatever happens next, the messages
    recorded so far stay, in place, at the front of [chatState.messages]. *)
Theorem transcript_only_grows (events more : list Event) :
  exists added,
    messages (chatState (run (events ++ more)))
    = messages (chatState (run events)) ++ added.
Proof.
  unfold run. rewrite fold_left_app. generalize (fold_left step events initial).
  induction more as [| e more IH]; intros w; cbn [fold_left].
  - exists []. rewrite app_nil_r. reflexivity.
  - destruct (IH (step w e)) as [added Hadd]. rewrite Hadd.
    assert (Hstep : exists one, messages (chatState (step w e))
                                = messages (chatState w) ++ one).
    { step_cases w e;
        try (exists []; rewrite app_nil_r; reflexivity);
        cbn; eexists; reflexivity. }
    destruct Hstep as [one ->]. exists (one ++ added).
    rewrite app_assoc. reflexivity.
Qed.

(** X6: no message of the transcript has an empty text. *)
Theorem no_empty_message (events : list Event) :
  Forall (fun m => msg_text m <> "") (messages (chatState (run events))).
Proof.
  apply (run_ind (fun w =>
    Forall (fun m => msg_text m <> "") (messages (chatState w))));
    [constructor |].
  intros w e IH.
  step_cases w e; try exact IH; cbn;
    (apply Forall_app; split; [exact IH |]);
    (constructor; [| constructor]); cbn;
    try discriminate; apply String.eqb_neq; assumption.
Qed.

End ChatTranscriptFacts.

Module StructureFacts.
Import Strength Structure.
Local Open Scope list_scope.

Lemma collect_snoc (qs : list Question) (q : Question) :
  collect (qs ++ [q]) = add_question (collect qs) q.
Proof. unfold collect. rewrite fold_left_app. reflexivity. Qed.

Lemma add_question_section (secs : list SectionInfo) (q : Question) :
  add_question secs q
  = match section_of q with
    | Some t => update t q secs
    | None => secs
    end.
Proof.
  unfold add_question, section_of.
  destruct (response_section q) as [t |]; [| reflexivity].
  destruct (String.eqb t ""); reflexivity.
Qed.

Lemma update_titles (t : string) (q : Question) (secs : list SectionInfo) :
  map title (update t q secs)
  = if existsb (fun s => String.eqb (title s) t) secs
    then map title secs else map title secs ++ [t].
Proof.
  induction secs as [| s secs IH]; [reflexivity |]. cbn.
  destruct (String.eqb (title s) t); cbn; [reflexivity |].
  rewrite IH. destruct (existsb _ secs); reflexivity.
Qed.

Lemma existsb_title (t : string) (secs : list SectionInfo) :
  existsb (fun s => String.eqb (title s) t) secs = true
  <-> In t (map title secs).
Proof.
  rewrite existsb_exists, in_map_iff. split.
  - intros (s & Hs & E). apply String.eqb_eq in E. exists s. auto.
  - intros (s & E & Hs). exists s. split; [exact Hs |].
    apply String.eqb_eq; exact E.
Qed.

(** What [update] does to each section, given distinct titles. *)
Lemma update_forall (P : SectionInfo -> Prop) (t : string) (q : Question)
      (secs : list SectionInfo) :
  NoDup (map title secs) ->
  (forall s, In s secs -> title s <> t -> P s) ->
  (forall s, In s secs -> title s = t -> P (track q s)) ->
  (~ In t (map title secs) -> P (track q (new_section t))) ->
  Forall P (update t q secs).
Proof.
  induction secs as [| s secs IH]; intros Hnd Hother Hsame Hnew.
  - cbn. constructor; [| constructor]. apply Hnew. intros [].
  - cbn in Hnd. apply NoDup_cons_iff in Hnd as [Hnot Hnd]. cbn.
    destruct (String.eqb_spec (title s) t) as [E | E].
    + constructor; [apply Hsame; [left; reflexivity | exact E] |].
      apply Forall_forall. intros x Hx. apply Hother; [right; exact Hx |].
      intros Ex. apply Hnot. rewrite E, <- Ex. apply in_map; exact Hx.
    + constructor; [apply Hother; [left; reflexivity | exact E] |].
      apply IH; try exact Hnd.
      * intros x Hx. apply Hother; right; exact Hx.
      * intros x Hx. apply Hsame; right; exact Hx.
      * intros Hn. apply Hnew. intros [Hin | Hin]; [exact (E Hin) | exact (Hn Hin)].
Qed.

Lemma in_section_eq (t : string) (q : Question) :
  in_section t q = true <-> section_of q = Some t.
Proof.
  unfold in_section. destruct (section_of q) as [t' |].
  - rewrite String.eqb_eq. split; [intros ->; reflexivity | intros [= ->]; reflexivity].
  - split; discriminate.
Qed.

Lemma section_of_nonempty (q : Question) (t : string) :
  section_of q = Some t -> t <> "".
Proof.
  unfold section_of. destruct (response_section q) as [t' |]; [| discriminate].
  destruct (String.eqb_spec t' ""); [discriminate |]. intros [= <-]. assumption.
Qed.

Lemma filter_none {A : Type} (f : A -> bool) (l : list A) :
  (forall x, In x l -> f x = false) -> filter f l = [].
Proof.
  induction l as [| x l IH]; intros H; [reflexivity |]. cbn.
  rewrite (H x (or_introl eq_refl)). apply IH. intros y Hy. apply H; right; exact Hy.
Qed.

(** The sections of [collect] have distinct titles, each holds the questions
    filed under its title, and every filed question has its section. *)
Lemma collect_ok (qs : list Question) :
  NoDup (map title (collect qs))
  /\ Forall (section_ok qs) (collect qs)
  /\ (forall q t, In q qs -> section_of q = Some t ->
        In t (map title (collect qs))).
Proof.
  induction qs as [| q qs (Hnd & Hok & Hcov)] using rev_ind.
  - repeat split; [constructor | constructor | intros q t []].
  - rewrite collect_snoc, add_question_section.
    destruct (section_of q) as [t |] eqn:Hq.
    + assert (Hne : t <> "") by (apply (section_of_nonempty q); exact Hq).
      assert (Hin_t : in_section t q = true) by (apply in_section_eq; exact Hq).
      split; [| split].
      * rewrite update_titles.
        destruct (existsb _ (collect qs)) eqn:E; [exact Hnd |].
        apply NoDup_app; [exact Hnd | repeat constructor; intros [] |].
        intros x Hx [<- | []].
        apply existsb_title in Hx. congruence.
      * rewrite Forall_forall in Hok.
        apply update_forall; [exact Hnd | | |].
        -- intros s Hs Hst. destruct (Hok s Hs) as (H1 & H2 & H3 & H4 & H5).
           assert (Hout : in_section (title s) q = false).
           { destruct (in_section (title s) q) eqn:E; [| reflexivity].
             apply in_section_eq in E. congruence. }
           unfold section_ok. rewrite filter_app. cbn. rewrite Hout, app_nil_r.
           repeat split; assumption.
        -- intros s Hs Hst. destruct (Hok s Hs) as (H1 & H2 & H3 & H4 & H5).
           unfold section_ok. cbn. rewrite filter_app. cbn.
           rewrite Hst, Hin_t, <- Hst, <- H2, !filter_app, !length_app, <- H4, <- H5.
           cbn. repeat split; try assumption.
           ++ destruct (questions s); discriminate.
           ++ destruct (isStrategic q); cbn; lia.
           ++ destruct (isStrategic q); cbn; lia.
        -- intros Hnew. unfold section_ok. cbn. rewrite filter_app. cbn.
           rewrite Hin_t.
           assert (Hnone : filter (in_section t) qs = []).
           { apply filter_none. intros x Hx.
             destruct (in_section t x) eqn:E; [| reflexivity].
             apply in_section_eq in E. exfalso. apply Hnew.
             apply (Hcov x t Hx E). }
           rewrite Hnone. cbn. repeat split; try assumption; try discriminate;
             destruct (isStrategic q); reflexivity.
      * intros x t' Hx Hxt. rewrite update_titles.
        assert (Hcase : In t' (map title (collect qs)) \/ t' = t).
        { apply in_app_or in Hx as [Hx | [<- | []]].
          - left. apply (Hcov x t' Hx Hxt).
          - right. congruence. }
        destruct (existsb _ (collect qs)) eqn:E.
        -- destruct Hcase as [H | ->]; [exact H |]. apply existsb_title; exact E.
        -- apply in_or_app. destruct Hcase as [H | ->]; [left; exact H |].
           right; left; reflexivity.
    + split; [exact Hnd |]. split.
      * revert Hok. apply Forall_impl. intros s (H1 & H2 & H3 & H4 & H5).
        unfold section_ok. rewrite filter_app. cbn.
        unfold in_section at 2. rewrite Hq. rewrite app_nil_r.
        repeat split; assumption.
      * intros x t Hx Hxt. apply in_app_or in Hx as [Hx | [<- | []]].
        -- apply (Hcov x t Hx Hxt).
        -- congruence.
Qed.

Lemma collect_files (qs : list Question) (q : Question) (t : string) :
  In q qs -> section_of q = Some t ->
  exists s, In s (collect qs) /\ title s = t /\ In q (questions s).
Proof.
  intros Hq Hqt. destruct (collect_ok qs) as (_ & Hok & Hcov).
  specialize (Hcov q t Hq Hqt).
  apply in_map_iff in Hcov as (s & Hst & Hs). exists s.
  split; [exact Hs |]. split; [exact Hst |].
  rewrite Forall_forall in Hok. destruct (Hok s Hs) as (_ & H2 & _).
  rewrite H2. apply filter_In. split; [exact Hq |].
  apply in_section_eq. rewrite Hst. exact Hqt.
Qed.

(** X7: when no question names an inherited property, the collected
    sections have distinct non-empty titles; each holds exactly the
    questions filed under its title, in their order, at least one; its two
    counters are the numbers of its requirement and strategic questions;
    and every filed question is in the section of its name. *)
Theorem sections_partition_questions
  (qs : list Question) (secs : list SectionInfo)
  (Hcollect : collect_js qs = Some secs) :
  NoDup (map title secs)
  /\ Forall (section_ok qs) secs
  /\ (forall q t, In q qs -> section_of q = Some t ->
        exists s, In s secs /\ title s = t /\ In q (questions s)).
Proof.
  unfold collect_js in Hcollect.
  destruct (existsb names_inherited qs); [discriminate |].
  injection Hcollect as <-.
  destruct (collect_ok qs) as (Hnd & Hok & _).
  split; [exact Hnd |]. split; [exact Hok |].
  intros q t Hq Hqt. apply collect_files; assumption.
Qed.

Lemma sections_partition_questions_witness :
  exists secs,
    collect_js sample_questions = Some secs
    /\ map title secs = ["Pricing"; "Team"]
    /\ Forall (section_ok sample_questions) secs.
Proof.
  eexists. split; [reflexivity |]. split; [reflexivity |].
  exact (proj1 (proj2 (sections_partition_questions sample_questions _ eq_refl))).
Defined.

Lemma by_kind_requirement (x y : Question) :
  isStrategic x = false -> (by_kind x y <=? 0)%Z = true.
Proof.
  intros Hx. unfold by_kind. rewrite Hx. cbn.
  destruct (isStrategic y); reflexivity.
Qed.

Lemma insert_requirement (x : Question) (l : list Question) :
  isStrategic x = false -> insert_sorted by_kind x l = x :: l.
Proof.
  intros Hx. destruct l as [| y l]; [reflexivity |]. cbn.
  rewrite (by_kind_requirement x y Hx). reflexivity.
Qed.

Lemma insert_strategic (x : Question) (reqs strs : list Question) :
  isStrategic x = true ->
  Forall (fun q => isStrategic q = false) reqs ->
  Forall (fun q => isStrategic q = true) strs ->
  insert_sorted by_kind x (reqs ++ strs) = reqs ++ x :: strs.
Proof.
  intros Hx Hr Hs. induction Hr as [| y reqs Hy _ IH]; cbn.
  - destruct Hs as [| y strs Hy _]; [reflexivity |]. cbn.
    unfold by_kind. rewrite Hx, Hy. reflexivity.
  - unfold by_kind at 1. rewrite Hx, Hy. cbn. rewrite IH. reflexivity.
Qed.

Lemma filter_all {A : Type} (f : A -> bool) (l : list A) :
  Forall (fun x => f x = true) (filter f l).
Proof.
  apply Forall_forall. intros x Hx. apply filter_In in Hx. tauto.
Qed.

(** X8: the questions of a section are shown with all requirements first
    and all strategic additions after them, each group in the order the
    questions had. *)
Theorem sortedQuestions_groups (qs : list Question) :
  sortedQuestions qs
  = filter (fun q => negb (isStrategic q)) qs ++ filter isStrategic qs.
Proof.
  unfold sortedQuestions, stable_sort.
  induction qs as [| x qs IH]; [reflexivity |]. cbn [fold_right]. rewrite IH.
  cbn [filter]. destruct (isStrategic x) eqn:Hx; cbn [negb].
  - apply insert_strategic; [exact Hx | | apply filter_all].
    apply Forall_forall. intros q Hq. apply filter_In in Hq as [_ Hq].
    apply negb_true_iff; exact Hq.
  - apply insert_requirement; exact Hx.
Qed.

Lemma take_some (t : string) (secs : list SectionInfo) (s : SectionInfo)
      (rest : list SectionInfo) :
  take t secs = Some (s, rest) ->
  Permutation secs (s :: rest) /\ title s = t.
Proof.
  revert s rest; induction secs as [| x secs IH]; intros s rest H;
    [discriminate |]. cbn in H.
  destruct (String.eqb_spec (title x) t) as [E | E].
  - injection H as <- <-. split; [reflexivity | exact E].
  - destruct (take t secs) as [[y rest'] |]; [| discriminate].
    injection H as <- <-. destruct (IH y rest' eq_refl) as [Hp Ht].
    split; [| exact Ht].
    rewrite Hp. apply perm_swap.
Qed.

Lemma by_guide_spec (names : list string) (secs : list SectionInfo) :
  Permutation secs
    (with_questions (fst (by_guide names secs)) ++ snd (by_guide names secs))
  /\ Forall empty_placeholder (fst (by_guide names secs)).
Proof.
  revert secs; induction names as [| t names IH]; intros secs; cbn.
  - split; [reflexivity | constructor].
  - destruct (take t secs) as [[s secs'] |] eqn:Ht.
    + destruct (take_some t secs s secs' Ht) as [Hp _].
      destruct (IH secs') as [Hp' Hf].
      destruct (by_guide names secs') as [placed left]; cbn in *.
      split.
      * rewrite Hp. unfold with_questions; cbn. constructor. exact Hp'.
      * constructor; [intros H; discriminate H | exact Hf].
    + destruct (IH secs) as [Hp' Hf].
      destruct (by_guide names secs) as [placed left]; cbn in *.
      split; [exact Hp' |].
      constructor; [intros _; repeat split | exact Hf].
Qed.

Lemma with_questions_collected (l : list SectionInfo) :
  with_questions (map collected l) = l.
Proof.
  unfold with_questions. induction l as [| s l IH]; [reflexivity |].
  cbn. rewrite IH. reflexivity.
Qed.

Lemma with_questions_app (a b : list Rendered) :
  with_questions (a ++ b) = with_questions a ++ with_questions b.
Proof. unfold with_questions. rewrite filter_app, map_app. reflexivity. Qed.

Lemma orderedSections_spec (guide : option (list GuideItem))
      (secs : list SectionInfo) :
  Permutation (with_questions (orderedSections guide secs)) secs
  /\ Forall empty_placeholder (orderedSections guide secs)
  /\ existsb is_summary (orderedSections guide secs) = true.
Proof.
  unfold orderedSections.
  assert (H : exists placed left,
             match guide with
             | Some items => by_guide (guideStructure items) secs
             | None => ([], secs)
             end = (placed, left)
             /\ Permutation secs (with_questions placed ++ left)
             /\ Forall empty_placeholder placed).
  { destruct guide as [items |].
    - destruct (by_guide_spec (guideStructure items) secs) as [Hp Hf].
      destruct (by_guide (guideStructure items) secs) as [placed left].
      exists placed, left. repeat split; assumption.
    - exists [], secs. repeat split; [reflexivity | constructor]. }
  destruct H as (placed & left & -> & Hp & Hf).
  assert (Hall : Permutation (with_questions (placed ++ map collected left)) secs
                 /\ Forall empty_placeholder (placed ++ map collected left)).
  { split.
    - rewrite with_questions_app, with_questions_collected. symmetry; exact Hp.
    - apply Forall_app; split; [exact Hf |].
      apply Forall_forall. intros r Hr. apply in_map_iff in Hr as (s & <- & _).
      intros H; discriminate H. }
  destruct Hall as [Hperm Hempty].
  destruct (existsb is_summary (placed ++ map collected left)) eqn:E.
  - split; [exact Hperm |]. split; [exact Hempty | exact E].
  - split; [exact Hperm |]. split; [| reflexivity].
    constructor; [intros _; repeat split | exact Hempty].
Qed.

Lemma rendered_sections_spec
  (guide : option (list GuideItem)) (qs : list Question)
  (out : list Rendered) :
  renderResponseStructure guide qs = Sections out ->
  Permutation (with_questions out) (collect qs)
  /\ Forall empty_placeholder out.
Proof.
  intros Hrender. unfold renderResponseStructure in Hrender.
  destruct qs as [| q qs]; [discriminate |].
  unfold collect_js in Hrender.
  destruct (existsb names_inherited (q :: qs)); [discriminate |].
  destruct (match guide with
            | Some items => existsb is_inherited (guideStructure items)
            | None => false
            end); [discriminate |].
  injection Hrender as <-.
  destruct (orderedSections_spec guide (collect (q :: qs))) as (Hp & Hf & _).
  split; assumption.
Qed.

(** X9: whenever [renderResponseStructure] gets to render, no question is
    lost or shown twice by the ordering: the rendered sections that are not
    placeholders are exactly the collected sections, each once; every
    placeholder is empty with both counters zero; and a section titled
    Executive Summary is always among the rendered ones. *)
Theorem guide_order_keeps_every_section
  (guide : option (list GuideItem)) (qs : list Question)
  (out : list Rendered)
  (Hrender : renderResponseStructure guide qs = Sections out) :
  Permutation (with_questions out) (collect qs)
  /\ Forall empty_placeholder out
  /\ In "Executive Summary" (map (fun r => title (info r)) out).
Proof.
  unfold renderResponseStructure in Hrender.
  destruct qs as [| q qs]; [discriminate |].
  unfold collect_js in Hrender.
  destruct (existsb names_inherited (q :: qs)); [discriminate |].
  destruct (match guide with
            | Some items => existsb is_inherited (guideStructure items)
            | None => false
            end); [discriminate |].
  injection Hrender as <-.
  destruct (orderedSections_spec guide (collect (q :: qs))) as (Hp & Hf & He).
  split; [exact Hp |]. split; [exact Hf |].
  apply existsb_exists in He as (r & Hr & E). apply String.eqb_eq in E.
  apply in_map_iff. exists r. split; assumption.
Qed.

Lemma guide_order_keeps_every_section_witness :
  exists out,
    renderResponseStructure (Some sample_guide) sample_questions = Sections out
    /\ map (fun r => title (info r)) out
       = ["Executive Summary"; "Team"; "Approach"; "Pricing"]
    /\ Permutation (with_questions out) (collect sample_questions).
Proof.
  eexists. split; [reflexivity |]. split; [reflexivity |].
  exact (proj1 (guide_order_keeps_every_section
                  (Some sample_guide) sample_questions _ eq_refl)).
Defined.

Lemma strategic_badges (qs : list Question) :
  List.length (filter (String.eqb "Strategic") (map type_badge qs))
  = List.length (filter isStrategic qs).
Proof.
  induction qs as [| q qs IH]; [reflexivity |]. cbn [map filter].
  unfold type_badge at 1. destruct (isStrategic q).
  - change (String.eqb "Strategic" "Strategic") with true.
    cbn [List.length]. rewrite IH. reflexivity.
  - change (String.eqb "Strategic" "Requirement") with false. exact IH.
Qed.

Lemma requirement_badges (qs : list Question) :
  List.length (filter (String.eqb "Requirement") (map type_badge qs))
  = List.length (filter (fun q => negb (isStrategic q)) qs).
Proof.
  induction qs as [| q qs IH]; [reflexivity |]. cbn [map filter].
  unfold type_badge at 1. destruct (isStrategic q); cbn [negb].
  - change (String.eqb "Requirement" "Strategic") with false. exact IH.
  - change (String.eqb "Requirement" "Requirement") with true.
    cbn [List.length]. rewrite IH. reflexivity.
Qed.

Lemma length_filter_perm {A : Type} (f : A -> bool) (l l' : list A) :
  Permutation l l' ->
  List.length (filter f l) = List.length (filter f l').
Proof.
  induction 1 as [| x l l' _ IH | x y l | l l' l'' _ IH1 _ IH2]; cbn.
  - reflexivity.
  - destruct (f x); cbn; rewrite IH; reflexivity.
  - destruct (f x), (f y); reflexivity.
  - rewrite IH1. exact IH2.
Qed.

Lemma sortedQuestions_perm (qs : list Question) :
  Permutation (sortedQuestions qs) qs.
Proof.
  rewrite sortedQuestions_groups.
  induction qs as [| q qs IH]; [constructor |]. cbn.
  destruct (isStrategic q); cbn.
  - rewrite <- Permutation_middle. constructor. exact IH.
  - constructor. exact IH.
Qed.

(** X10: in every rendered section the type badges agree with the two
    counts of its header: as many question items carry the Strategic badge
    as [strategicCount] says, as many the Requirement badge as
    [requirementCount] says, and there is one item per question. *)
Theorem badges_agree_with_header_counts
  (guide : option (list GuideItem)) (qs : list Question)
  (out : list Rendered) (r : Rendered)
  (Hrender : renderResponseStructure guide qs = Sections out)
  (Hin : In r out) :
  let badges := map type_badge (sortedQuestions (questions (info r))) in
  List.length (filter (String.eqb "Strategic") badges)
  = strategicCount (info r)
  /\ List.length (filter (String.eqb "Requirement") badges)
     = requirementCount (info r)
  /\ List.length badges
     = requirementCount (info r) + strategicCount (info r).
Proof.
  intros badges.
  destruct (rendered_sections_spec guide qs out Hrender)
    as (Hp & Hf).
  assert (Hcounts :
    requirementCount (info r)
    = List.length (filter (fun q => negb (isStrategic q)) (questions (info r)))
    /\ strategicCount (info r)
       = List.length (filter isStrategic (questions (info r)))).
  { destruct (isEmpty r) eqn:E.
    - rewrite Forall_forall in Hf. destruct (Hf r Hin E) as (-> & -> & ->).
      split; reflexivity.
    - assert (Hs : In (info r) (collect qs)).
      { apply (Permutation_in _ Hp). unfold with_questions.
        apply in_map. apply filter_In. split; [exact Hin |].
        rewrite E. reflexivity. }
      destruct (collect_ok qs) as (_ & Hok & _).
      rewrite Forall_forall in Hok.
      destruct (Hok _ Hs) as (_ & _ & _ & H4 & H5). split; assumption. }
  destruct Hcounts as [Hreq Hstr]. unfold badges.
  rewrite strategic_badges, requirement_badges, length_map.
  rewrite !(length_filter_perm _ _ _ (sortedQuestions_perm _)).
  rewrite (Permutation_length (sortedQuestions_perm _)).
  rewrite Hreq, Hstr. repeat split.
  generalize (questions (info r)). intros l.
  induction l as [| q l IH]; [reflexivity |]. cbn.
  destruct (isStrategic q); cbn; lia.
Qed.

Lemma badges_agree_with_header_counts_witness :
  exists out r,
    renderResponseStructure (Some sample_guide) sample_questions = Sections out
    /\ In r out
    /\ title (info r) = "Pricing"
    /\ List.length
         (filter (String.eqb "Strategic")
            (map type_badge (sortedQuestions (questions (info r)))))
       = strategicCount (info r).
Proof.
  eexists. exists (nth 3 (orderedSections (Some sample_guide)
                            (collect sample_questions))
                      (placeholder "")).
  assert (Hin : In (nth 3 (orderedSections (Some sample_guide)
                             (collect sample_questions))
                       (placeholder ""))
                   (orderedSections (Some sample_guide)
                      (collect sample_questions))).
  { apply nth_In. cbn. lia. }
  split; [reflexivity |]. split; [exact Hin |]. split; [reflexivity |].
  exact (proj1 (badges_agree_with_header_counts
                  (Some sample_guide) sample_questions _ _ eq_refl Hin)).
Defined.

End StructureFacts.

Module AppFacts.
Import Api App.
Local Open Scope list_scope.








(** X11: an upload that is not accepted (network error, status outside
    200-299, unreadable body, or a body without a file id) changes nothing
    in the application state, sends no further request, and tells the user
    with one alert and the progress text, both carrying the error. *)
Theorem rejected_upload_keeps_state
  (o : UploadOutcomes) (w : World) (e : Error)
  (Hrejected : upload_result (on_upload o) = inl e) :
  state (uploadFile o w) = state w
  /\ fetches (uploadFile o w) = fetches w ++ [("POST", "/api/upload")]
  /\ alerts (uploadFile o w) = alerts w ++ [AlertError "File upload failed: " e]
  /\ text_shown (progress (uploadFile o w)) = ErrorText e
  /\ error_colour (progress (uploadFile o w)) = true.
Proof.
  unfold uploadFile. rewrite Hrejected. cbn.
  repeat split; unfold fetches, alerts; cbn;
    rewrite ?flat_map_app, ?filter_app; cbn; rewrite ?app_nil_r; reflexivity.
Qed.

Lemma rejected_upload_keeps_state_witness :
  let o := {| on_upload := HttpResponse 503 "Service Unavailable"
                             (JsonValue None);
              on_questions := NetworkError "";
              on_metadata := NetworkError "";
              on_guide := NetworkError "" |} in
  state (uploadFile o start) = initial
  /\ fetches (uploadFile o start) = [("POST", "/api/upload")].
Proof.
  cbv zeta.
  destruct (rejected_upload_keeps_state
              {| on_upload := HttpResponse 503 "Service Unavailable"
                                (JsonValue None);
                 on_questions := NetworkError "";
                 on_metadata := NetworkError "";
                 on_guide := NetworkError "" |}
              start
              (Thrown "Server error: 503 Service Unavailable") eq_refl)
    as (H1 & H2 & _).
  split; [exact H1 | exact H2].
Defined.








End AppFacts.

Module GenerateFacts.
Import Api App Generate.
Local Open Scope list_scope.

Lemma find_update (qid k : string) (f : Item -> Item)
      (l : list (string * Item)) :
  find_item k (update_item qid f l)
  = if String.eqb k qid then option_map f (find_item k l) else find_item k l.
Proof.
  induction l as [| [k' it] l IH]; cbn.
  - destruct (String.eqb k qid); reflexivity.
  - destruct (String.eqb_spec k' qid) as [-> | Hk']; cbn.
    + destruct (String.eqb_spec qid k) as [-> | Hk].
      * rewrite String.eqb_refl. reflexivity.
      * apply not_eq_sym in Hk. apply String.eqb_neq in Hk. rewrite Hk.
        reflexivity.
    + destruct (String.eqb_spec k' k) as [-> | Hk].
      * apply String.eqb_neq in Hk'. rewrite Hk'. reflexivity.
      * exact IH.
Qed.

Lemma on_page_on_item (qid : string) (f : Item -> Item) (p : Page)
      (q : QuestionData) :
  on_page (on_item qid f p) q = on_page p q.
Proof.
  unfold on_page, on_item; cbn. rewrite find_update.
  destruct (String.eqb (id q) qid), (find_item (id q) (items p)); reflexivity.
Qed.











End GenerateFacts.

Module ExportFacts.
Import Api App Exporting.

Lemma fold_blocks (block : Response -> string) (b : string) (l : list Response)
      (init : string) :
  (forall item, block item = b) ->
  fold_left (fun acc item => acc ++ block item) l init
  = init ++ copies (List.length l) b.
Proof.
  intros Hb. revert init; induction l as [| item l IH]; intros init; cbn.
  - rewrite Text.append_nil_r. reflexivity.
  - rewrite IH, Hb, Text.append_assoc. reflexivity.
Qed.

(** X17: the exported document never shows a question or a response text:
    the stored responses carry [question_text] and [response_text], and the
    export reads [question] and [response], so the downloaded markdown is
    the title followed by one block of the text "undefined" per stored
    response, and so is the preview. The file is named after the uploaded
    file, or rfp-response.md. *)
Theorem export_shows_undefined (st : State) :
  let n := List.length (responses st) in
  handleDownload st
  = ("# " ++ or_default (fileName st) "RFP Response" ++ nl ++ nl
     ++ copies n ("## undefined" ++ nl ++ nl ++ "undefined" ++ nl ++ nl),
     or_default (fileName st) "rfp-response" ++ ".md")
  /\ handleExport st
     = "<h1>" ++ or_default (fileName st) "RFP Response" ++ "</h1>" ++ nl ++ nl
       ++ copies n ("<h2>undefined</h2>" ++ nl ++ "<p>undefined</p>" ++ nl ++ nl).
Proof.
  cbv zeta. unfold handleDownload, handleExport. split.
  - f_equal.
    rewrite (fold_blocks
               (fun item => "## " ++ show (read item "question") ++ nl ++ nl
                            ++ show (read item "response") ++ nl ++ nl)
               ("## undefined" ++ nl ++ nl ++ "undefined" ++ nl ++ nl));
      [| reflexivity].
    rewrite !Text.append_assoc. reflexivity.
  - rewrite (fold_blocks
               (fun item => "<h2>" ++ show (read item "question") ++ "</h2>" ++ nl
                            ++ "<p>" ++ show (read item "response") ++ "</p>"
                            ++ nl ++ nl)
               ("<h2>undefined</h2>" ++ nl ++ "<p>undefined</p>" ++ nl ++ nl));
      [| reflexivity].
    rewrite !Text.append_assoc. reflexivity.
Qed.

End ExportFacts.

Module FinalResponseFacts.
Import Api App FinalResponse.
Local Open Scope list_scope.

Lemma given_key_text (o : option string) :
  given o = true -> key_text o <> "".
Proof.
  destruct o as [s |]; cbn; [| discriminate].
  intros H. apply negb_true_iff in H. apply String.eqb_neq; exact H.
Qed.

Lemma failed_alerts (e : Error) (btn : option Button) :
  alert_count (snd (failed e btn)) = 1 /\ posts (snd (failed e btn)) = [].
Proof.
  unfold failed. cbn [snd]. destruct e as [m |]; [| split; reflexivity].
  destruct (includes "No responses found" m); split; reflexivity.
Qed.

(** X18: every call of [handleCreateFinalResponse] ends with exactly one
    alert. A request is sent exactly when [state.fileKey] is set and the
    button is on the page, and it carries [state.fileKey]: with a key in
    the state [getFileKey] never falls back to the [key] parameter of the
    page address and never returns the empty string, so the check for a
    missing file key cannot fire. A button that is there is enabled again
    whenever the call got past the first check. *)
Theorem final_response_uses_state_key
  (st : State) (url_key : option string) (btn : option Button)
  (o : HttpOutcome unit) :
  let r := handleCreateFinalResponse st url_key btn o in
  alert_count (snd r) = 1
  /\ posts (snd r)
     = (if given (fileKey st) then
          match btn with
          | Some _ => [("/api/create-final-response", key_text (fileKey st))]
          | None => []
          end
        else [])
  /\ (given (fileKey st) = true ->
      getFileKey st url_key = key_text (fileKey st)
      /\ getFileKey st url_key <> ""
      /\ match fst r with
         | Some b => btn <> None /\ disabled b = false
         | None => btn = None
         end).
Proof.
  cbv zeta. unfold handleCreateFinalResponse.
  destruct (given (fileKey st)) eqn:Hkey; cbn [negb].
  - assert (Hget : getFileKey st url_key = key_text (fileKey st))
      by (unfold getFileKey; rewrite Hkey; reflexivity).
    pose proof (given_key_text _ Hkey) as Hne.
    rewrite Hget. destruct btn as [b |].
    + pose proof Hne as Hneb. apply String.eqb_neq in Hneb. rewrite Hneb.
      destruct (settle server_returned o) as [e | d].
      * destruct (failed_alerts e (Some b)) as [Ha Hp]. cbn [fst snd].
        split; [exact Ha |]. split.
        { unfold posts in *. cbn [flat_map]. rewrite Hp. reflexivity. }
        intros _. split; [reflexivity |]. split; [exact Hne |].
        cbn. split; [discriminate | reflexivity].
      * cbn. repeat split; try discriminate; exact Hne.
    + destruct (failed_alerts (Thrown "Create final response button not found")
                  None) as [Ha Hp].
      split; [exact Ha |]. split; [exact Hp |].
      intros _. repeat split. exact Hne.
  - cbn. repeat split; discriminate.
Qed.

End FinalResponseFacts.

Module OrganizeFacts.
Import Api App Organize.
Local Open Scope list_scope.

(** *** The order of strings *)

Lemma ascii_compare_refl (a : ascii) : Ascii.compare a a = Eq.
Proof. unfold Ascii.compare. apply N.compare_refl. Qed.

Lemma ascii_compare_trans (a b c : ascii) :
  Ascii.compare a b = Lt -> Ascii.compare b c = Lt -> Ascii.compare a c = Lt.
Proof.
  unfold Ascii.compare. rewrite !N.compare_lt_iff. apply N.lt_trans.
Qed.

Lemma compare_refl (s : string) : String.compare s s = Eq.
Proof.
  induction s as [| c s IH]; [reflexivity |]. cbn.
  rewrite ascii_compare_refl. exact IH.
Qed.

Lemma compare_trans (a b c : string) :
  String.compare a b = Lt -> String.compare b c = Lt ->
  String.compare a c = Lt.
Proof.
  revert b c; induction a as [| x a IH]; intros [| y b] [| z c]; cbn;
    try discriminate; try reflexivity.
  destruct (Ascii.compare x y) eqn:Exy; try discriminate;
    destruct (Ascii.compare y z) eqn:Eyz; try discriminate; intros H1 H2.
  - apply Ascii.compare_eq_iff in Exy, Eyz. subst.
    rewrite ascii_compare_refl. apply (IH b c); assumption.
  - apply Ascii.compare_eq_iff in Exy. subst. rewrite Eyz. reflexivity.
  - apply Ascii.compare_eq_iff in Eyz. subst. rewrite Exy. reflexivity.
  - rewrite (ascii_compare_trans x y z Exy Eyz). reflexivity.
Qed.

Lemma ltb_lt (a b : string) : String.ltb a b = true <-> String.compare a b = Lt.
Proof.
  unfold String.ltb. destruct (String.compare a b); split;
    intros H; congruence.
Qed.

Lemma ltb_irrefl (a : string) : String.ltb a a = false.
Proof. unfold String.ltb. rewrite compare_refl. reflexivity. Qed.

Lemma ltb_trans (a b c : string) :
  String.ltb a b = true -> String.ltb b c = true -> String.ltb a c = true.
Proof. rewrite !ltb_lt. apply compare_trans. Qed.

Lemma ltb_asym (a b : string) :
  String.ltb a b = true -> String.ltb b a = false.
Proof.
  rewrite ltb_lt. intros H. unfold String.ltb.
  rewrite String.compare_antisym, H. reflexivity.
Qed.

Lemma ltb_total (a b : string) :
  String.ltb a b = false -> String.ltb b a = false -> a = b.
Proof.
  unfold String.ltb. rewrite (String.compare_antisym b a).
  destruct (String.compare a b) eqn:E; cbn; try discriminate.
  intros _ _. apply String.compare_eq_iff; exact E.
Qed.

(** *** The comparator *)

Lemma compare_values (a b : QuestionData) :
  compare a b = (-1)%Z \/ compare a b = 1%Z.
Proof.
  unfold compare.
  repeat match goal with |- context [if ?c then _ else _] => destruct c end;
    auto.
Qed.

(** With sections on both sides and different ids the comparator answers
    the two orders of its arguments consistently. *)
Lemma compare_antisym (a b : QuestionData) :
  has_section a -> has_section b -> id a <> id b ->
  (compare a b = 1%Z <-> compare b a = (-1)%Z).
Proof.
  unfold has_section, compare. intros Ha Hb Hid.
  destruct (section a) as [sa |]; [| contradiction].
  destruct (section b) as [sb |]; [| contradiction]. cbn [js_lt].
  destruct (String.ltb sa sb) eqn:Eab.
  - rewrite (ltb_asym _ _ Eab). split; discriminate.
  - destruct (String.ltb sb sa) eqn:Eba; [split; reflexivity |].
    destruct (isStrategic a), (isStrategic b); cbn;
      try (split; (reflexivity || discriminate)).
    + destruct (String.ltb (id a) (id b)) eqn:Ei.
      * rewrite (ltb_asym _ _ Ei). split; discriminate.
      * destruct (String.ltb (id b) (id a)) eqn:Ej; [split; reflexivity |].
        exfalso. apply Hid. apply ltb_total; assumption.
    + destruct (String.ltb (id a) (id b)) eqn:Ei.
      * rewrite (ltb_asym _ _ Ei). split; discriminate.
      * destruct (String.ltb (id b) (id a)) eqn:Ej; [split; reflexivity |].
        exfalso. apply Hid. apply ltb_total; assumption.
Qed.

Lemma before_trans (a b c : QuestionData) :
  has_section a -> has_section b -> has_section c ->
  before a b -> before b c -> before a c.
Proof.
  unfold has_section, before, compare. intros Ha Hb Hc.
  destruct (section a) as [sa |]; [| contradiction].
  destruct (section b) as [sb |]; [| contradiction].
  destruct (section c) as [sc |]; [| contradiction]. cbn [js_lt].
  destruct (String.ltb sa sb) eqn:Eab.
  - intros _. destruct (String.ltb sb sc) eqn:Ebc.
    + intros _. rewrite (ltb_trans _ _ _ Eab Ebc). reflexivity.
    + destruct (String.ltb sc sb) eqn:Ecb; [discriminate |].
      assert (sb = sc) by (apply ltb_total; assumption). subst sc.
      rewrite Eab. reflexivity.
  - destruct (String.ltb sb sa) eqn:Eba; [discriminate |].
    assert (sa = sb) by (apply ltb_total; assumption). subst sb.
    destruct (String.ltb sa sc) eqn:Eac; [reflexivity |].
    destruct (String.ltb sc sa) eqn:Eca; [intros _; discriminate |].
    destruct (isStrategic a), (isStrategic b), (isStrategic c); cbn;
      try discriminate; try reflexivity.
    + destruct (String.ltb (id a) (id b)) eqn:E1; [| discriminate].
      destruct (String.ltb (id b) (id c)) eqn:E2; [| discriminate].
      rewrite (ltb_trans _ _ _ E1 E2). reflexivity.
    + destruct (String.ltb (id a) (id b)) eqn:E1; [| discriminate].
      destruct (String.ltb (id b) (id c)) eqn:E2; [| discriminate].
      rewrite (ltb_trans _ _ _ E1 E2). reflexivity.
Qed.

(** *** The sort *)

Lemma insert_perm {A : Type} (cmp : A -> A -> Z) (x : A) (l : list A) :
  Permutation (Structure.insert_sorted cmp x l) (x :: l).
Proof.
  induction l as [| y l IH]; cbn; [reflexivity |].
  destruct (cmp x y <=? 0)%Z; [reflexivity |].
  rewrite IH. apply perm_swap.
Qed.

Lemma stable_sort_perm {A : Type} (cmp : A -> A -> Z) (l : list A) :
  Permutation (Structure.stable_sort cmp l) l.
Proof.
  unfold Structure.stable_sort.
  induction l as [| x l IH]; cbn; [constructor |].
  rewrite insert_perm. constructor. exact IH.
Qed.

Lemma insert_sorted_sorted (x : QuestionData) (l : list QuestionData) :
  has_section x -> Forall has_section l ->
  ~ In (id x) (map id l) ->
  StronglySorted before l ->
  StronglySorted before (Structure.insert_sorted compare x l).
Proof.
  intros Hx Hl Hid Hs. induction Hs as [| y l Hs IH Hy]; cbn.
  - constructor; constructor.
  - apply Forall_cons_iff in Hl as [Hys Hl].
    assert (Hxy : id x <> id y) by (intros E; apply Hid; left; symmetry; exact E).
    assert (Hid' : ~ In (id x) (map id l)) by (intros H; apply Hid; right; exact H).
    destruct (compare_values x y) as [E | E]; rewrite E; cbn.
    + constructor; [constructor; assumption |].
      constructor; [exact E |].
      rewrite Forall_forall in Hy, Hl |- *. intros z Hz.
      apply (before_trans x y z); auto.
    + constructor; [apply IH; assumption |].
      apply compare_antisym in E; try assumption.
      apply Forall_forall. intros z Hz.
      apply (Permutation_in _ (insert_perm compare x l)) in Hz as [<- | Hz];
        [exact E |].
      rewrite Forall_forall in Hy. apply Hy; exact Hz.
Qed.

(** X19: when every question has a section and the ids are pairwise
    different, the comparator of [organizeQuestionsBySection] is a strict
    total order on the questions (the two orders of a pair answer
    oppositely, and "before" is transitive), so the sort has one result:
    the same questions, each before all later ones, ordered by section
    name, then requirements before strategic questions, then by id. *)
Theorem organize_sorts_questions
  (qs : list QuestionData)
  (Hsections : Forall has_section qs)
  (Hids : NoDup (map id qs)) :
  Permutation (organizeQuestionsBySection qs) qs
  /\ StronglySorted before (organizeQuestionsBySection qs)
  /\ (forall a b, In a qs -> In b qs -> id a <> id b ->
        (compare a b = 1%Z <-> compare b a = (-1)%Z))
  /\ (forall a b c, In a qs -> In b qs -> In c qs ->
        before a b -> before b c -> before a c).
Proof.
  split; [apply stable_sort_perm |]. split; [| split].
  - unfold organizeQuestionsBySection, Structure.stable_sort.
    induction qs as [| x qs IH]; cbn; [constructor |].
    apply Forall_cons_iff in Hsections as [Hx Hqs].
    cbn in Hids. apply NoDup_cons_iff in Hids as [Hnot Hnd].
    apply insert_sorted_sorted; try assumption.
    + apply Forall_forall. intros z Hz.
      apply (Permutation_in _ (stable_sort_perm compare qs)) in Hz.
      rewrite Forall_forall in Hqs. apply Hqs; exact Hz.
    + intros H. apply Hnot.
      apply (Permutation_in _ (Permutation_map id (stable_sort_perm compare qs))).
      exact H.
    + apply IH; assumption.
  - rewrite Forall_forall in Hsections. intros a b Ha Hb.
    apply compare_antisym; auto.
  - rewrite Forall_forall in Hsections. intros a b c Ha Hb Hc.
    apply before_trans; auto.
Qed.

Lemma organize_sorts_questions_witness :
  map id (organizeQuestionsBySection sample) = ["q3"; "q1"; "q2"]
  /\ StronglySorted before (organizeQuestionsBySection sample).
Proof.
  split; [reflexivity |].
  refine (proj1 (proj2 (organize_sorts_questions sample _ _))).
  - repeat constructor; discriminate.
  - repeat constructor; cbn; intuition discriminate.
Defined.

(** X20: when the user types a question that is not blank and the server
    returns the created question, [createCustomQuestion] adds exactly that
    question, filed under the section of the button, to [state.questions]
    and leaves the rest of the state alone; and when the name of that
    section is not empty and the response structure then renders, the
    section with that title shows the new question. *)
Theorem created_question_is_shown
  (sectionName t statusText : string) (status : nat) (q : QuestionData)
  (st : State) (guide : option (list Structure.GuideItem))
  (out : list Structure.Rendered)
  (Htext : Chat.trim t <> "")
  (Hname : sectionName <> "")
  (Hok : Chat.response_ok status = true)
  (Hrender :
     Structure.renderResponseStructure guide
       (map core
          (questions
             (fst (createCustomQuestion sectionName (Some t)
                     (HttpResponse status statusText (JsonValue (Some (Some q))))
                     st))))
     = Structure.Sections out) :
  let st' :=
    fst (createCustomQuestion sectionName (Some t)
           (HttpResponse status statusText (JsonValue (Some (Some q)))) st) in
  Permutation (questions st') (questions st ++ [filed sectionName q])
  /\ set_questions (questions st) st' = st
  /\ exists s,
       In s (Structure.with_questions out)
       /\ Strength.title s = sectionName
       /\ In (core (filed sectionName q)) (Strength.questions s).
Proof.
  assert (Hrun :
    createCustomQuestion sectionName (Some t)
      (HttpResponse status statusText (JsonValue (Some (Some q)))) st
    = (set_questions
         (organizeQuestionsBySection (questions st ++ [filed sectionName q])) st,
       [Post api_createQuestion (fileKey st) sectionName t; Rendered])).
  { unfold createCustomQuestion, settle. rewrite Hok.
    destruct (String.eqb_spec t "") as [E | _].
    - exfalso. apply Htext. rewrite E. reflexivity.
    - destruct (String.eqb_spec (Chat.trim t) "") as [E | _];
        [contradiction | reflexivity]. }
  rewrite Hrun in Hrender |- *. cbn [fst set_questions questions] in *.
  assert (Hperm :
    Permutation
      (organizeQuestionsBySection (questions st ++ [filed sectionName q]))
      (questions st ++ [filed sectionName q]))
    by apply stable_sort_perm.
  split; [exact Hperm |]. split; [destruct st; reflexivity |].
  destruct (StructureFacts.rendered_sections_spec _ _ _ Hrender) as [Hsecs _].
  destruct (StructureFacts.collect_files
              (map core
                 (organizeQuestionsBySection
                    (questions st ++ [filed sectionName q])))
              (core (filed sectionName q)) sectionName) as (s & Hs & Ht & Hq).
  - apply in_map. apply (Permutation_in _ (Permutation_sym Hperm)).
    apply in_or_app. right. left. reflexivity.
  - unfold Structure.section_of, core, filed. cbn.
    destruct (String.eqb_spec sectionName ""); [contradiction | reflexivity].
  - exists s. split; [| split; assumption].
    apply (Permutation_in _ (Permutation_sym Hsecs)). exact Hs.
Qed.

Lemma created_question_is_shown_witness :
  let shown :=
    Structure.renderResponseStructure None
      (map core
         (questions
            (fst (createCustomQuestion "Team" (Some " Who leads the team? ")
                    (HttpResponse 200 "OK" (JsonValue (Some (Some sample_created))))
                    sample_state)))) in
  exists out s,
    shown = Structure.Sections out
    /\ In s (Structure.with_questions out)
    /\ Strength.title s = "Team"
    /\ In (core (filed "Team" sample_created)) (Strength.questions s).
Proof.
  intros shown.
  destruct shown as [| | out] eqn:Hshown;
    [vm_compute in Hshown; discriminate Hshown
    | vm_compute in Hshown; discriminate Hshown |].
  destruct (created_question_is_shown "Team" " Who leads the team? " "OK" 200
              sample_created sample_state None out)
    as (_ & _ & s & Hs & Ht & Hq).
  - vm_compute. discriminate.
  - discriminate.
  - reflexivity.
  - exact Hshown.
  - exists out, s. split; [reflexivity |]. split; [exact Hs |].
    split; [exact Ht | exact Hq].
Defined.

End OrganizeFacts.

Module NavigationFacts.
Import Navigation.
Local Open Scope list_scope.

Lemma contains_app (c : string) (a b : ClassList) :
  contains c (a ++ b) = contains c a || contains c b.
Proof. unfold contains. apply existsb_app. Qed.

Lemma contains_remove (c d : string) (l : ClassList) :
  contains c (remove d l) = negb (String.eqb c d) && contains c l.
Proof.
  unfold contains, remove. induction l as [| x l IH]; cbn.
  - rewrite andb_false_r. reflexivity.
  - destruct (String.eqb_spec x d) as [-> | Hx]; cbn.
    + rewrite IH. destruct (String.eqb_spec c d) as [-> | Hc]; cbn;
        [reflexivity |].
      destruct (String.eqb_spec c d); [contradiction | reflexivity].
    + rewrite IH. destruct (String.eqb_spec c x) as [-> | Hc]; cbn.
      * destruct (String.eqb_spec x d); [contradiction | reflexivity].
      * reflexivity.
Qed.

Lemma contains_add (c d : string) (l : ClassList) :
  contains c (add d l) = String.eqb c d || contains c l.
Proof.
  unfold add. destruct (contains d l) eqn:E.
  - destruct (String.eqb_spec c d) as [-> | _]; [rewrite E |]; reflexivity.
  - rewrite contains_app. cbn. rewrite orb_false_r. apply orb_comm.
Qed.

Lemma activate_active (l : ClassList) :
  contains "active-section" (activate l) = true
  /\ contains "hidden-section" (activate l) = false.
Proof.
  unfold activate. rewrite !contains_add, !contains_remove. split; reflexivity.
Qed.

Lemma hide_hidden (l : ClassList) :
  contains "active-section" (hide l) = false
  /\ contains "hidden-section" (hide l) = true.
Proof.
  unfold hide. rewrite !contains_add, !contains_remove. split; reflexivity.
Qed.

Lemma active_activate (l : ClassList) :
  contains "active-section" (activate l)
  && negb (contains "hidden-section" (activate l)) = true.
Proof. destruct (activate_active l) as [-> ->]. reflexivity. Qed.

Lemma active_hide (l : ClassList) :
  contains "active-section" (hide l)
  && negb (contains "hidden-section" (hide l)) = false.
Proof. destruct (hide_hidden l) as [-> ->]. reflexivity. Qed.

Lemma showQuestions_only (p : Page) : only ShowQuestions (call ShowQuestions p).
Proof.
  intros []; unfold active; cbn [call showQuestionsSection classes target same
    uploadSection questionsSection responsesSection exportSection];
    first [apply active_activate | apply active_hide].
Qed.

Lemma call_only (prev c : Call) (p : Page) :
  only prev p ->
  match prev, c with ShowQuestions, ShowExport => False | _, _ => True end ->
  only c (call c p).
Proof.
  intros Hp Hc. destruct c.
  - apply showQuestions_only.
  - intros s. pose proof (Hp Upload) as Hu.
    destruct s; unfold active in *; cbn [call showResponsesSection classes
      target same uploadSection questionsSection responsesSection
      exportSection] in *;
      try first [apply active_activate | apply active_hide].
    rewrite Hu. destruct prev; reflexivity.
  - intros s. pose proof (Hp Upload) as Hu. pose proof (Hp Questions) as Hq.
    destruct s; unfold active in *; cbn [call showExportSection classes
      target same uploadSection questionsSection responsesSection
      exportSection] in *;
      try first [apply active_activate | apply active_hide].
    + rewrite Hu. destruct prev; reflexivity.
    + rewrite Hq. destruct prev; [contradiction | reflexivity | reflexivity].
Qed.

Lemma run_only (cs : list Call) (prev : Call) (p : Page) :
  only prev p -> export_from_responses prev cs = true ->
  only (last cs prev) (run cs p).
Proof.
  revert prev p; induction cs as [| c cs IH]; intros prev p Hp Hcs;
    [exact Hp |].
  assert (Hstep : only c (call c p) /\ export_from_responses c cs = true).
  { cbn in Hcs. split.
    - apply (call_only prev); [exact Hp |].
      destruct prev, c; try exact I. discriminate Hcs.
    - destruct prev, c; try exact Hcs; discriminate Hcs. }
  destruct Hstep as [H1 H2].
  specialize (IH c (call c p) H1 H2).
  unfold run in *. cbn [fold_left].
  destruct cs as [| d cs]; [exact IH |].
  change (last (c :: d :: cs) prev) with (last (d :: cs) prev).
  assert (E : forall x, last (d :: cs) x = last (d :: cs) c).
  { clear. revert d. induction cs as [| e cs IH]; intros d x; [reflexivity |].
    change (last (d :: e :: cs) x) with (last (e :: cs) x).
    change (last (d :: e :: cs) c) with (last (e :: cs) c). apply IH. }
  rewrite (E prev). exact IH.
Qed.

(** X21: in a session that begins with [showQuestionsSection] and opens the
    export view only from the responses view or from itself, exactly one
    of the four containers is on show after every call: the one the last
    call names, whatever classes the containers had before. The order
    matters: [showExportSection] right after [showQuestionsSection] leaves
    the questions and the export container on show together. *)
Theorem one_section_on_show
  (p : Page) (cs : list Call)
  (Horder : export_from_responses ShowQuestions cs = true) :
  (forall s, active s (run (ShowQuestions :: cs) p)
             = same s (target (last cs ShowQuestions)))
  /\ active Questions (run [ShowQuestions; ShowExport] p) = true
  /\ active Export (run [ShowQuestions; ShowExport] p) = true.
Proof.
  split; [| split].
  - apply (run_only cs ShowQuestions (call ShowQuestions p));
      [apply showQuestions_only | exact Horder].
  - unfold active, run. cbn [fold_left call showExportSection
      showQuestionsSection classes questionsSection].
    apply active_activate.
  - unfold active, run. cbn [fold_left call showExportSection
      showQuestionsSection classes exportSection].
    apply active_activate.
Qed.

Lemma one_section_on_show_witness :
  map (fun s =>
         active s (run [ShowQuestions; ShowResponses; ShowExport; ShowResponses]
                       landing))
      [Upload; Questions; Responses; Export]
  = [false; false; true; false].
Proof.
  pose proof (proj1 (one_section_on_show landing
                       [ShowResponses; ShowExport; ShowResponses] eq_refl))
    as H.
  cbn [map]. rewrite !H. reflexivity.
Defined.

End NavigationFacts.

Module MarkdownFacts.
Import Markdown.
Local Open Scope string_scope.

Lemma every_app (p : ascii -> bool) (a b : string) :
  every p (a ++ b) = every p a && every p b.
Proof.
  induction a as [| c a IH]; [reflexivity |]. cbn. rewrite IH.
  apply andb_assoc.
Qed.

Lemma strip_cons (a : ascii) (p s r : string) :
  strip (String a p) s = Some r ->
  exists s', s = String a s' /\ strip p s' = Some r.
Proof.
  destruct s as [| b s]; cbn; [discriminate |].
  destruct (Ascii.eqb_spec a b) as [-> | _]; [| discriminate].
  intros H. exists s. split; [reflexivity | exact H].
Qed.

Lemma strip_app (p r : string) : strip p (p ++ r) = Some r.
Proof.
  induction p as [| a p IH]; cbn; [destruct r; reflexivity |].
  rewrite Ascii.eqb_refl. exact IH.
Qed.

Lemma strip_every (q : ascii -> bool) (p s r : string) :
  every q s = true -> strip p s = Some r -> every q r = true.
Proof.
  revert s; induction p as [| a p IH]; intros s Hs H.
  - destruct s; cbn in H; injection H as <-; exact Hs.
  - apply strip_cons in H as (s' & -> & H). cbn in Hs.
    apply andb_true_iff in Hs as [_ Hs]. apply (IH s'); assumption.
Qed.

Lemma span_every (q p : ascii -> bool) (s : string) :
  every q s = true ->
  every q (fst (span p s)) = true /\ every q (snd (span p s)) = true.
Proof.
  induction s as [| c s IH]; intros H; [split; reflexivity |].
  cbn in H |- *. apply andb_true_iff in H as [Hc Hs].
  destruct (p c).
  - destruct (IH Hs) as [H1 H2]. destruct (span p s) as [g rest]; cbn in *.
    rewrite Hc, H1. split; [reflexivity | exact H2].
  - cbn. rewrite Hc, Hs. split; reflexivity.
Qed.

Lemma span_all (p : ascii -> bool) (s : string) :
  every p s = true -> span p s = (s, "").
Proof.
  induction s as [| c s IH]; intros H; [reflexivity |].
  cbn in H |- *. apply andb_true_iff in H as [Hc Hs].
  rewrite Hc, (IH Hs). reflexivity.
Qed.

Lemma span_stop (p : ascii -> bool) (x r : string) (c : ascii) :
  every p x = true -> p c = false ->
  span p (x ++ String c r) = (x, String c r).
Proof.
  intros Hx Hc. induction x as [| d x IH]; cbn.
  - rewrite Hc. reflexivity.
  - cbn in Hx. apply andb_true_iff in Hx as [Hd Hx].
    rewrite Hd, (IH Hx). reflexivity.
Qed.

Lemma upto_every (q : ascii -> bool) (s g : string) :
  every q s = true -> upto_last_close s = Some g -> every q g = true.
Proof.
  revert g; induction s as [| c s IH]; intros g Hs H; [discriminate |].
  cbn [every] in Hs. cbn [upto_last_close] in H.
  apply andb_true_iff in Hs as [Hc Hs].
  destruct (in_line c); [| discriminate].
  destruct (upto_last_close s) as [g' |].
  - injection H as <-. cbn [every]. rewrite Hc.
    apply IH; [exact Hs | reflexivity].
  - destruct (strip "</li>" s); [| discriminate].
    injection H as <-. cbn [every]. rewrite Hc. reflexivity.
Qed.

Lemma bold_within : group_within bold_at.
Proof.
  intros q prev s g n Hs H. unfold bold_at in H.
  destruct (strip "**" s) as [r |] eqn:Hr; [| discriminate].
  pose proof (strip_every q _ _ _ Hs Hr) as Hq.
  destruct (span_every q not_star r Hq) as [H1 _].
  destruct (span not_star r) as [g' rest]; cbn in H1.
  destruct g' as [| c g']; [discriminate |].
  destruct (strip "**" rest); [| discriminate].
  injection H as <- _. exact H1.
Qed.

Lemma em_within : group_within em_at.
Proof.
  intros q prev s g n Hs H. unfold em_at in H.
  destruct (strip "*" s) as [r |] eqn:Hr; [| discriminate].
  pose proof (strip_every q _ _ _ Hs Hr) as Hq.
  destruct (span_every q not_star r Hq) as [H1 _].
  destruct (span not_star r) as [g' rest]; cbn in H1.
  destruct g' as [| c g']; [discriminate |].
  destruct (strip "*" rest); [| discriminate].
  injection H as <- _. exact H1.
Qed.

Lemma item_within : group_within item_at.
Proof.
  intros q prev s g n Hs H. unfold item_at in H.
  destruct (line_start prev); [| discriminate].
  destruct s as [| d [| w r]]; try discriminate.
  destruct (Ascii.eqb d "-" && is_space w); [| discriminate].
  cbn in Hs. apply andb_true_iff in Hs as [_ Hs].
  apply andb_true_iff in Hs as [_ Hs].
  destruct (span_every q in_line r Hs) as [H1 _].
  destruct (span in_line r) as [g' rest]; cbn in H1.
  destruct g' as [| c g']; [discriminate |].
  injection H as <- _. exact H1.
Qed.

Lemma wrap_within : group_within wrap_at.
Proof.
  intros q prev s g n Hs H. unfold wrap_at in H.
  destruct (strip "<li>" s) as [r |] eqn:Hr; [| discriminate].
  pose proof (strip_every q _ _ _ Hs Hr) as Hq.
  destruct (upto_last_close r) as [g' |] eqn:Hg; [| discriminate].
  injection H as <- _. apply (upto_every q r); assumption.
Qed.

Lemma replace_from_every (q : ascii -> bool)
      (m : option ascii -> string -> Match) (t : string -> string) :
  group_within m ->
  (forall g, every q g = true -> every q (t g) = true) ->
  forall s prev skip,
    every q s = true -> every q (replace_from m t prev skip s) = true.
Proof.
  intros Hm Ht. induction s as [| c s IH]; intros prev skip Hs;
    [reflexivity |].
  cbn [replace_from]. pose proof Hs as Hcs.
  cbn in Hs. apply andb_true_iff in Hs as [Hc Hs].
  destruct skip as [| k]; [| apply IH; exact Hs].
  destruct (m prev (String c s)) as [[g n] |] eqn:E.
  - rewrite every_app, (IH _ _ Hs), andb_true_r.
    apply Ht. apply (Hm q prev (String c s) g n); assumption.
  - cbn. rewrite Hc. apply IH; exact Hs.
Qed.

Lemma breaks_every (q : ascii -> bool) (s : string) :
  every q "<br>" = true ->
  every (fun c => Ascii.eqb c lf || q c) s = true ->
  every q (breaks s) = true.
Proof.
  intros Hbr. induction s as [| c s IH]; intros H; [reflexivity |].
  cbn [every breaks] in H |- *. apply andb_true_iff in H as [Hc Hs].
  destruct (Ascii.eqb c lf); cbn [orb] in Hc.
  - rewrite every_app, Hbr, (IH Hs). reflexivity.
  - cbn [every]. rewrite Hc, (IH Hs). reflexivity.
Qed.

Lemma every_impl (p q : ascii -> bool) (s : string) :
  (forall c, p c = true -> q c = true) ->
  every p s = true -> every q s = true.
Proof.
  intros Hpq. induction s as [| c s IH]; intros H; [reflexivity |].
  cbn in H |- *. apply andb_true_iff in H as [Hc Hs].
  rewrite (Hpq c Hc), (IH Hs). reflexivity.
Qed.

Lemma breaks_no_lf (s : string) : every no_lf (breaks s) = true.
Proof.
  apply breaks_every; [reflexivity |].
  induction s as [| c s IH]; [reflexivity |]. cbn [every]. rewrite IH.
  unfold no_lf. destruct (Ascii.eqb c lf); reflexivity.
Qed.

Lemma template_every (q : ascii -> bool) (a b g : string) :
  every q a = true -> every q b = true -> every q g = true ->
  every q (a ++ g ++ b) = true.
Proof. intros Ha Hb Hg. rewrite !every_app, Ha, Hb, Hg. reflexivity. Qed.

(** What the four replacements keep: a class of code units that holds the
    markup they insert. *)
Lemma passes_every (q : ascii -> bool) (s : string) :
  every q "<strong></strong><em></em><ul><li></li></ul>" = true ->
  every q s = true ->
  every q (replace wrap_at ul (replace item_at li
             (replace em_at em (replace bold_at strong s)))) = true.
Proof.
  intros Hq Hs. unfold replace.
  assert (Ht : forall a b, every q a = true -> every q b = true ->
                 forall g, every q g = true -> every q (a ++ g ++ b) = true)
    by (intros; apply template_every; assumption).
  cbn in Hq. repeat (apply andb_true_iff in Hq as [? Hq]).
  apply replace_from_every; [exact wrap_within | |].
  { apply Ht; cbn; repeat (apply andb_true_iff; split); auto. }
  apply replace_from_every; [exact item_within | |].
  { apply Ht; cbn; repeat (apply andb_true_iff; split); auto. }
  apply replace_from_every; [exact em_within | |].
  { apply Ht; cbn; repeat (apply andb_true_iff; split); auto. }
  apply replace_from_every; [exact bold_within | |].
  { apply Ht; cbn; repeat (apply andb_true_iff; split); auto. }
  exact Hs.
Qed.

(** X22: the markup that [formatMarkdown] returns holds no line feed:
    every line feed of the text has become a [<br>], and the later
    replacements bring none back. *)
Theorem formatted_text_has_no_line_feed (text : string) :
  every (fun c => negb (Ascii.eqb c lf)) (formatMarkdown text) = true.
Proof.
  unfold formatMarkdown. destruct (String.eqb text ""); [reflexivity |].
  apply (passes_every no_lf); [reflexivity | apply breaks_no_lf].
Qed.

Lemma length_app (a b : string) :
  String.length (a ++ b) = String.length a + String.length b.
Proof. induction a as [| c a IH]; cbn; [reflexivity | rewrite IH; reflexivity]. Qed.

Lemma replace_from_all_skipped (m : option ascii -> string -> Match)
      (t : string -> string) (s : string) (prev : option ascii) (k : nat) :
  String.length s <= k -> replace_from m t prev k s = "".
Proof.
  revert prev k; induction s as [| c s IH]; intros prev k H; [reflexivity |].
  cbn [replace_from]. cbn [String.length] in H.
  destruct k as [| k]; [lia |]. apply IH. lia.
Qed.

Lemma replace_from_match (m : option ascii -> string -> Match)
      (t : string -> string) (prev : option ascii) (c : ascii)
      (r g : string) (n : nat) :
  m prev (String c r) = Some (g, n) ->
  replace_from m t prev 0 (String c r)
  = t g ++ replace_from m t (Some c) (n - 1) r.
Proof. intros E. cbn [replace_from]. rewrite E. reflexivity. Qed.

Lemma not_star_strip (c : ascii) (p r : string) :
  not_star c = true -> strip (String "*" p) (String c r) = None.
Proof.
  unfold not_star. intros H. cbn [strip].
  rewrite Ascii.eqb_sym. apply negb_true_iff in H. rewrite H. reflexivity.
Qed.

Lemma bold_needs_star (prev : option ascii) (c : ascii) (r : string) :
  not_star c = true -> bold_at prev (String c r) = None.
Proof. intros H. unfold bold_at. rewrite (not_star_strip c _ r H). reflexivity. Qed.

Lemma em_needs_star (prev : option ascii) (c : ascii) (r : string) :
  not_star c = true -> em_at prev (String c r) = None.
Proof. intros H. unfold em_at. rewrite (not_star_strip c _ r H). reflexivity. Qed.

Lemma replace_bold_id (t : string -> string) (s : string)
      (prev : option ascii) :
  every not_star s = true -> replace_from bold_at t prev 0 s = s.
Proof.
  revert prev; induction s as [| c s IH]; intros prev H; [reflexivity |].
  cbn [every] in H. apply andb_true_iff in H as [Hc Hs].
  cbn [replace_from]. rewrite (bold_needs_star prev c s Hc), (IH _ Hs).
  reflexivity.
Qed.

Lemma replace_em_id (t : string -> string) (s : string)
      (prev : option ascii) :
  every not_star s = true -> replace_from em_at t prev 0 s = s.
Proof.
  revert prev; induction s as [| c s IH]; intros prev H; [reflexivity |].
  cbn [every] in H. apply andb_true_iff in H as [Hc Hs].
  cbn [replace_from]. rewrite (em_needs_star prev c s Hc), (IH _ Hs).
  reflexivity.
Qed.

Lemma replace_item_inside (t : string -> string) (s : string)
      (prev : option ascii) :
  line_start prev = false -> every in_line s = true ->
  replace_from item_at t prev 0 s = s.
Proof.
  revert prev; induction s as [| c s IH]; intros prev Hp H; [reflexivity |].
  cbn [every] in H. apply andb_true_iff in H as [Hc Hs].
  cbn [replace_from]. unfold item_at at 1. rewrite Hp.
  rewrite (IH (Some c)); [reflexivity | | exact Hs].
  cbn [line_start]. unfold in_line in Hc. apply negb_true_iff; exact Hc.
Qed.

Lemma replace_item_id (t : string -> string) (s : string) :
  starts_with "-" s = false -> every in_line s = true ->
  replace item_at t s = s.
Proof.
  unfold replace. destruct s as [| c s]; intros Hd H; [reflexivity |].
  cbn [every] in H. apply andb_true_iff in H as [Hc Hs].
  cbn [starts_with] in Hd. cbn [replace_from].
  assert (E : item_at None (String c s) = None).
  { unfold item_at. cbn [line_start]. destruct s as [| w r]; [reflexivity |].
    rewrite Hd. reflexivity. }
  rewrite E. rewrite replace_item_inside; [reflexivity | | exact Hs].
  cbn [line_start]. unfold in_line in Hc. apply negb_true_iff; exact Hc.
Qed.

Lemma replace_wrap_id (t : string -> string) (s : string)
      (prev : option ascii) :
  lacks "<li>" s = true -> replace_from wrap_at t prev 0 s = s.
Proof.
  revert prev; induction s as [| c s IH]; intros prev H; [reflexivity |].
  cbn [lacks] in H.
  destruct (strip "<li>" (String c s)) eqn:E; [discriminate |].
  cbn [replace_from]. unfold wrap_at at 1. rewrite E, (IH _ H). reflexivity.
Qed.

(** A prefix that holds neither [<] nor a line feed is read off the same
    code units before and after the line feeds are replaced. *)
Lemma strip_breaks (p r x : string) :
  p <> "" ->
  every (fun c => no_lt c && no_lf c) p = true ->
  strip p (breaks r) = Some x -> exists y, strip p r = Some y.
Proof.
  revert r x; induction p as [| a p IH]; intros r x Hne Hp H;
    [contradiction |].
  cbn [every] in Hp. apply andb_true_iff in Hp as [Ha Hp].
  apply andb_true_iff in Ha as [Hlt Hlf].
  destruct r as [| c r]; [discriminate H |].
  cbn [breaks] in H. destruct (Ascii.eqb_spec c lf) as [-> | Hc].
  - exfalso. change ("<br>" ++ breaks r)
      with (String "<" ("br>" ++ breaks r)) in H.
    cbn [strip] in H. unfold no_lt in Hlt. apply negb_true_iff in Hlt.
    rewrite Hlt in H. discriminate H.
  - cbn [strip] in H |- *. destruct (Ascii.eqb a c); [| discriminate H].
    destruct p as [| b p].
    + destruct r; eexists; reflexivity.
    + apply (IH r x); [discriminate | exact Hp | exact H].
Qed.

Lemma lacks_br (s : string) : lacks "<li>" ("<br>" ++ s) = lacks "<li>" s.
Proof. reflexivity. Qed.

Lemma lacks_breaks (s : string) :
  lacks "<li>" s = true -> lacks "<li>" (breaks s) = true.
Proof.
  induction s as [| c s IH]; intros H; [reflexivity |].
  cbn [lacks] in H.
  destruct (strip "<li>" (String c s)) eqn:E; [discriminate |].
  cbn [breaks]. destruct (Ascii.eqb c lf).
  - rewrite lacks_br. apply IH; exact H.
  - cbn [lacks].
    destruct (strip "<li>" (String c (breaks s))) as [x |] eqn:E2;
      [| apply IH; exact H].
    exfalso. apply strip_cons in E2 as (s' & Es & E2).
    injection Es as Hc Hs'. subst c s'.
    destruct (strip_breaks "li>" s x) as [y Hy];
      [discriminate | reflexivity | exact E2 |].
    cbn [strip] in E. rewrite Ascii.eqb_refl in E.
    cbn [strip] in Hy. rewrite Hy in E. discriminate E.
Qed.

Lemma starts_breaks (s : string) :
  starts_with "-" s = false -> starts_with "-" (breaks s) = false.
Proof.
  destruct s as [| c s]; [reflexivity |]. cbn [breaks starts_with].
  destruct (Ascii.eqb c lf); [reflexivity | trivial].
Qed.

Lemma breaks_not_star (s : string) :
  every not_star s = true -> every not_star (breaks s) = true.
Proof.
  intros H. apply breaks_every; [reflexivity |].
  apply (every_impl not_star); [| exact H].
  intros c Hc. rewrite Hc. apply orb_true_r.
Qed.

Lemma breaks_in_line (s : string) :
  every no_cr s = true -> every in_line (breaks s) = true.
Proof.
  intros H. apply breaks_every; [reflexivity |].
  apply (every_impl no_cr); [| exact H].
  intros c Hc. unfold in_line, is_line_terminator, no_cr in *.
  destruct (Ascii.eqb c lf); [reflexivity |]. exact Hc.
Qed.

(** X23: a text of code units below 256 with no star, no carriage return
    and no [<li>], and that does not begin with a dash, comes back with its
    line feeds replaced by [<br>] and nothing else changed: markup in the
    text reaches the page as it is, and a dash that begins a later line
    makes no list item. *)
Theorem plain_text_is_not_escaped
  (text : string)
  (Hstar : every not_star text = true)
  (Hcr : every no_cr text = true)
  (Hli : lacks "<li>" text = true)
  (Hdash : starts_with "-" text = false) :
  formatMarkdown text = breaks text.
Proof.
  unfold formatMarkdown. destruct (String.eqb_spec text "") as [-> | _];
    [reflexivity |].
  unfold replace at 4. rewrite replace_bold_id by (apply breaks_not_star; exact Hstar).
  unfold replace at 3. rewrite replace_em_id by (apply breaks_not_star; exact Hstar).
  rewrite replace_item_id;
    [| apply starts_breaks; exact Hdash | apply breaks_in_line; exact Hcr].
  unfold replace. apply replace_wrap_id. apply lacks_breaks; exact Hli.
Qed.

Lemma plain_text_is_not_escaped_witness :
  formatMarkdown with_markup
  = "Use <script>alert(1)</script> here<br>- not a list".
Proof.
  rewrite (plain_text_is_not_escaped with_markup);
    [reflexivity | reflexivity | reflexivity | reflexivity | reflexivity].
Defined.

Lemma upto_exact (g : string) :
  g <> "" -> every in_line g = true ->
  upto_last_close (g ++ "</li>") = Some g.
Proof.
  induction g as [| c g IH]; intros Hne H; [contradiction |].
  cbn [every] in H. apply andb_true_iff in H as [Hc Hg].
  cbn [append upto_last_close]. rewrite Hc.
  destruct g as [| d g].
  - reflexivity.
  - rewrite (IH ltac:(discriminate) Hg). reflexivity.
Qed.

Lemma breaks_nonempty (s : string) : s <> "" -> breaks s <> "".
Proof.
  destruct s as [| c s]; [contradiction |]. intros _. cbn [breaks].
  destruct (Ascii.eqb c lf); discriminate.
Qed.

Lemma item_whole (g : string) :
  g <> "" -> every in_line g = true ->
  replace item_at li (String "-" (String " " g)) = li g.
Proof.
  intros Hne Hg. unfold replace.
  assert (E : item_at None (String "-" (String " " g))
              = Some (g, 2 + String.length g)).
  { unfold item_at. cbn [line_start].
    change (Ascii.eqb "-" "-" && is_space " ") with true. cbv iota.
    rewrite (span_all in_line g Hg).
    destruct g; [contradiction | reflexivity]. }
  rewrite (replace_from_match _ _ _ _ _ _ _ E).
  rewrite replace_from_all_skipped.
  - apply Text.append_nil_r.
  - cbn [String.length]. lia.
Qed.

Lemma wrap_whole (g : string) :
  g <> "" -> every in_line g = true ->
  replace wrap_at ul (li g) = ul g.
Proof.
  intros Hne Hg. unfold replace, li.
  change ("<li>" ++ g ++ "</li>") with (String "<" ("li>" ++ g ++ "</li>")).
  assert (E : wrap_at None (String "<" ("li>" ++ g ++ "</li>"))
              = Some (g, 4 + String.length g + 5)).
  { unfold wrap_at.
    change (String "<" ("li>" ++ g ++ "</li>")) with ("<li>" ++ g ++ "</li>").
    rewrite strip_app, (upto_exact g Hne Hg). reflexivity. }
  rewrite (replace_from_match _ _ _ _ _ _ _ E).
  rewrite replace_from_all_skipped.
  - apply Text.append_nil_r.
  - rewrite !length_app. cbn [String.length]. lia.
Qed.

(** X24: a text of code units below 256 that begins with a dash and a
    space, with no star and no carriage return after them, becomes one list
    with one item that holds all the rest of the text, later lines
    included: when the list pattern runs, the line feeds are already
    [<br>], so the text is a single line. *)
Theorem dash_text_is_one_list_item
  (t : string)
  (Hrest : t <> "")
  (Hstar : every not_star t = true)
  (Hcr : every no_cr t = true) :
  formatMarkdown ("- " ++ t) = ul (breaks t).
Proof.
  unfold formatMarkdown.
  change (String.eqb ("- " ++ t) "") with false. cbv iota.
  change (breaks ("- " ++ t)) with (String "-" (String " " (breaks t))).
  assert (Hs : every not_star (String "-" (String " " (breaks t))) = true)
    by (cbn [every]; rewrite (breaks_not_star t Hstar); reflexivity).
  unfold replace at 4. rewrite (replace_bold_id _ _ _ Hs).
  unfold replace at 3. rewrite (replace_em_id _ _ _ Hs).
  rewrite item_whole;
    [| apply breaks_nonempty; exact Hrest | apply breaks_in_line; exact Hcr].
  apply wrap_whole;
    [apply breaks_nonempty; exact Hrest | apply breaks_in_line; exact Hcr].
Qed.

Lemma dash_text_is_one_list_item_witness :
  formatMarkdown two_lines = "<ul><li>first<br>- second</li></ul>".
Proof.
  change two_lines with ("- " ++ ("first" ++ String lf "- second")).
  rewrite dash_text_is_one_list_item;
    [reflexivity | discriminate | reflexivity | reflexivity].
Defined.

Lemma replace_from_prev (m : option ascii -> string -> Match)
      (t : string -> string) :
  (forall p p' s, m p s = m p' s) ->
  forall p p' k s, replace_from m t p k s = replace_from m t p' k s.
Proof.
  intros Hm p p' k s. destruct s as [| c s]; [reflexivity |].
  cbn [replace_from]. destruct k; [| reflexivity].
  rewrite (Hm p p'). reflexivity.
Qed.

Lemma replace_from_skip (m : option ascii -> string -> Match)
      (t : string -> string) :
  (forall p p' s, m p s = m p' s) ->
  forall a s prev,
    replace_from m t prev (String.length a) (a ++ s)
    = replace_from m t None 0 s.
Proof.
  intros Hm. induction a as [| c a IH]; intros s prev.
  - apply replace_from_prev; exact Hm.
  - cbn [String.length append replace_from]. apply IH.
Qed.

Lemma replace_bold_prefix (t : string -> string) (a s : string)
      (prev : option ascii) :
  every not_star a = true ->
  replace_from bold_at t prev 0 (a ++ s)
  = a ++ replace_from bold_at t None 0 s.
Proof.
  revert prev; induction a as [| c a IH]; intros prev H.
  - apply replace_from_prev. reflexivity.
  - cbn [every] in H. apply andb_true_iff in H as [Hc Ha].
    cbn [append replace_from].
    rewrite (bold_needs_star prev c _ Hc), (IH _ Ha). reflexivity.
Qed.

Lemma replace_em_prefix (t : string -> string) (a s : string)
      (prev : option ascii) :
  every not_star a = true ->
  replace_from em_at t prev 0 (a ++ s)
  = a ++ replace_from em_at t None 0 s.
Proof.
  revert prev; induction a as [| c a IH]; intros prev H.
  - apply replace_from_prev. reflexivity.
  - cbn [every] in H. apply andb_true_iff in H as [Hc Ha].
    cbn [append replace_from].
    rewrite (em_needs_star prev c _ Hc), (IH _ Ha). reflexivity.
Qed.

Lemma replace_bold_segment (a x b : string) :
  every not_star a = true -> every not_star x = true ->
  every not_star b = true -> x <> "" ->
  replace bold_at strong (a ++ "**" ++ x ++ "**" ++ b) = a ++ strong x ++ b.
Proof.
  intros Ha Hx Hb Hne. unfold replace. rewrite (replace_bold_prefix _ _ _ _ Ha).
  assert (E : bold_at None (String "*" (String "*" (x ++ "**" ++ b)))
              = Some (x, 2 + String.length x + 2)).
  { unfold bold_at.
    change (String "*" (String "*" (x ++ "**" ++ b)))
      with ("**" ++ (x ++ "**" ++ b)).
    rewrite strip_app.
    change (x ++ "**" ++ b) with (x ++ String "*" (String "*" b)).
    rewrite (span_stop not_star x _ "*" Hx eq_refl).
    destruct x; [contradiction |].
    change (String "*" (String "*" b)) with ("**" ++ b).
    rewrite strip_app. reflexivity. }
  change ("**" ++ x ++ "**" ++ b)
    with (String "*" (String "*" (x ++ "**" ++ b))).
  rewrite (replace_from_match _ _ _ _ _ _ _ E).
  replace (String "*" (x ++ "**" ++ b)) with (String "*" (x ++ "**") ++ b)
    by (cbn [append]; rewrite Text.append_assoc; reflexivity).
  replace (2 + String.length x + 2 - 1)
    with (String.length (String "*" (x ++ "**")))
    by (cbn [String.length]; rewrite length_app; cbn [String.length]; lia).
  rewrite replace_from_skip by reflexivity.
  rewrite (replace_bold_id _ _ _ Hb). reflexivity.
Qed.

Lemma replace_bold_single (a x b : string) :
  every not_star a = true -> every not_star x = true ->
  every not_star b = true -> x <> "" ->
  replace bold_at strong (a ++ "*" ++ x ++ "*" ++ b)
  = a ++ "*" ++ x ++ "*" ++ b.
Proof.
  intros Ha Hx Hb Hne. unfold replace. rewrite (replace_bold_prefix _ _ _ _ Ha).
  f_equal. change ("*" ++ x ++ "*" ++ b) with (String "*" (x ++ String "*" b)).
  assert (E1 : bold_at None (String "*" (x ++ String "*" b)) = None).
  { unfold bold_at. destruct x as [| c x]; [contradiction |].
    cbn [every] in Hx. apply andb_true_iff in Hx as [Hc _].
    cbn [append strip]. change (Ascii.eqb "*" "*") with true. cbv iota.
    unfold not_star in Hc. apply negb_true_iff in Hc.
    rewrite Ascii.eqb_sym, Hc. reflexivity. }
  assert (E2 : bold_at None (String "*" b) = None).
  { unfold bold_at. destruct b as [| c b]; [reflexivity |].
    cbn [every] in Hb. apply andb_true_iff in Hb as [Hc _].
    cbn [strip]. change (Ascii.eqb "*" "*") with true. cbv iota.
    unfold not_star in Hc. apply negb_true_iff in Hc.
    rewrite Ascii.eqb_sym, Hc. reflexivity. }
  cbn [replace_from]. rewrite E1. f_equal.
  rewrite (replace_bold_prefix _ _ _ _ Hx). f_equal.
  cbn [replace_from]. rewrite E2, (replace_bold_id _ _ _ Hb). reflexivity.
Qed.

Lemma replace_em_segment (a x b : string) :
  every not_star a = true -> every not_star x = true ->
  every not_star b = true -> x <> "" ->
  replace em_at em (a ++ "*" ++ x ++ "*" ++ b) = a ++ em x ++ b.
Proof.
  intros Ha Hx Hb Hne. unfold replace. rewrite (replace_em_prefix _ _ _ _ Ha).
  assert (E : em_at None (String "*" (x ++ "*" ++ b))
              = Some (x, 1 + String.length x + 1)).
  { unfold em_at.
    change (String "*" (x ++ "*" ++ b)) with ("*" ++ (x ++ "*" ++ b)).
    rewrite strip_app.
    change (x ++ "*" ++ b) with (x ++ String "*" b).
    rewrite (span_stop not_star x _ "*" Hx eq_refl).
    destruct x; [contradiction |].
    change (String "*" b) with ("*" ++ b).
    rewrite strip_app. reflexivity. }
  change ("*" ++ x ++ "*" ++ b) with (String "*" (x ++ "*" ++ b)).
  rewrite (replace_from_match _ _ _ _ _ _ _ E).
  replace (x ++ "*" ++ b) with ((x ++ "*") ++ b)
    by (rewrite Text.append_assoc; reflexivity).
  replace (1 + String.length x + 1 - 1) with (String.length (x ++ "*"))
    by (rewrite length_app; cbn [String.length]; lia).
  rewrite replace_from_skip by reflexivity.
  rewrite (replace_em_id _ _ _ Hb). reflexivity.
Qed.

Lemma breaks_id (s : string) : every no_lf s = true -> breaks s = s.
Proof.
  induction s as [| c s IH]; intros H; [reflexivity |].
  cbn [every] in H. apply andb_true_iff in H as [Hc Hs].
  cbn [breaks]. unfold no_lf in Hc. apply negb_true_iff in Hc.
  rewrite Hc, (IH Hs). reflexivity.
Qed.

Lemma lacks_no_lt_app (a s : string) :
  every no_lt a = true -> lacks "<li>" (a ++ s) = lacks "<li>" s.
Proof.
  induction a as [| c a IH]; intros H; [reflexivity |].
  cbn [every] in H. apply andb_true_iff in H as [Hc Ha].
  cbn [append lacks strip]. unfold no_lt in Hc. apply negb_true_iff in Hc.
  rewrite Ascii.eqb_sym, Hc. apply IH; exact Ha.
Qed.

Lemma lacks_no_lt (a : string) :
  every no_lt a = true -> lacks "<li>" a = true.
Proof.
  intros H. rewrite <- (Text.append_nil_r a).
  rewrite (lacks_no_lt_app a "" H). reflexivity.
Qed.

Lemma lacks_strong (rest : string) :
  lacks "<li>" ("<strong>" ++ rest) = lacks "<li>" rest
  /\ lacks "<li>" ("</strong>" ++ rest) = lacks "<li>" rest
  /\ lacks "<li>" ("<em>" ++ rest) = lacks "<li>" rest
  /\ lacks "<li>" ("</em>" ++ rest) = lacks "<li>" rest.
Proof. repeat split. Qed.

Lemma ordinary_parts (s : string) :
  every ordinary s = true ->
  every not_star s = true /\ every in_line s = true
  /\ every no_lt s = true /\ every no_lf s = true.
Proof.
  intros H. repeat split; apply (every_impl ordinary); try exact H;
    intros c Hc; unfold ordinary in Hc;
    apply andb_true_iff in Hc as [Hc H3];
    apply andb_true_iff in Hc as [H1 H2]; try assumption.
  unfold in_line, is_line_terminator in H2. unfold no_lf.
  destruct (Ascii.eqb c lf); [discriminate H2 | reflexivity].
Qed.

(** A text [a ++ open ++ x ++ close ++ b] of ordinary parts around markup
    that the last two replacements leave alone. *)
Lemma marked_up_stays (a x b tag_open tag_close : string) :
  every ordinary a = true -> every ordinary x = true ->
  every ordinary b = true ->
  starts_with "-" a = false ->
  starts_with "-" tag_open = false ->
  every not_star tag_open = true -> every not_star tag_close = true ->
  every in_line tag_open = true -> every in_line tag_close = true ->
  (forall rest, lacks "<li>" (tag_open ++ rest) = lacks "<li>" rest) ->
  (forall rest, lacks "<li>" (tag_close ++ rest) = lacks "<li>" rest) ->
  tag_open <> "" ->
  replace wrap_at ul
    (replace item_at li (a ++ (tag_open ++ x ++ tag_close) ++ b))
  = a ++ (tag_open ++ x ++ tag_close) ++ b.
Proof.
  intros Ha Hx Hb Hdash Hdo Hso Hsc Hlo Hlc Hopen Hclose Hne.
  destruct (ordinary_parts a Ha) as (_ & Ha2 & Ha3 & _).
  destruct (ordinary_parts x Hx) as (_ & Hx2 & Hx3 & _).
  destruct (ordinary_parts b Hb) as (_ & Hb2 & Hb3 & _).
  rewrite replace_item_id.
  - unfold replace. apply replace_wrap_id.
    rewrite (lacks_no_lt_app a _ Ha3).
    rewrite !Text.append_assoc, Hopen, (lacks_no_lt_app x _ Hx3), Hclose.
    apply lacks_no_lt; exact Hb3.
  - destruct a as [| c a]; [| exact Hdash]. cbn [append].
    destruct tag_open as [| d tag_open]; [contradiction | exact Hdo].
  - rewrite !every_app, Ha2, Hlo, Hx2, Hlc, Hb2. reflexivity.
Qed.

(** X25: in a text of ordinary code units (no star, no line break, no
    [<]) that does not begin with a dash, a part between double stars
    comes back inside [<strong>] and a part between single stars inside
    [<em>], with the text around it unchanged. *)
Theorem emphasis_is_marked_up
  (a x b : string)
  (Ha : every ordinary a = true)
  (Hx : every ordinary x = true)
  (Hb : every ordinary b = true)
  (Hpart : x <> "")
  (Hdash : starts_with "-" a = false) :
  formatMarkdown (a ++ "**" ++ x ++ "**" ++ b) = a ++ strong x ++ b
  /\ formatMarkdown (a ++ "*" ++ x ++ "*" ++ b) = a ++ em x ++ b.
Proof.
  destruct (ordinary_parts a Ha) as (Ha1 & Ha2 & Ha3 & Ha4).
  destruct (ordinary_parts x Hx) as (Hx1 & Hx2 & Hx3 & Hx4).
  destruct (ordinary_parts b Hb) as (Hb1 & Hb2 & Hb3 & Hb4).
  split.
  - unfold formatMarkdown.
    assert (E : String.eqb (a ++ "**" ++ x ++ "**" ++ b) "" = false)
      by (destruct a; reflexivity).
    rewrite E.
    rewrite breaks_id
      by (rewrite !every_app, Ha4, Hx4, Hb4; reflexivity).
    rewrite (replace_bold_segment a x b Ha1 Hx1 Hb1 Hpart).
    unfold replace at 3. rewrite replace_em_id
      by (unfold strong; rewrite !every_app, Ha1, Hx1, Hb1; reflexivity).
    unfold strong.
    apply (marked_up_stays a x b "<strong>" "</strong>"); try assumption;
      try reflexivity; try discriminate;
      intros rest; apply lacks_strong.
  - unfold formatMarkdown.
    assert (E : String.eqb (a ++ "*" ++ x ++ "*" ++ b) "" = false)
      by (destruct a; reflexivity).
    rewrite E.
    rewrite breaks_id
      by (rewrite !every_app, Ha4, Hx4, Hb4; reflexivity).
    rewrite (replace_bold_single a x b Ha1 Hx1 Hb1 Hpart).
    rewrite (replace_em_segment a x b Ha1 Hx1 Hb1 Hpart).
    unfold em.
    apply (marked_up_stays a x b "<em>" "</em>"); try assumption;
      try reflexivity; try discriminate;
      intros rest; apply lacks_strong.
Qed.

Lemma emphasis_is_marked_up_witness :
  formatMarkdown "We are **certified** today"
  = "We are <strong>certified</strong> today"
  /\ formatMarkdown "We are *certified* today"
     = "We are <em>certified</em> today".
Proof.
  exact (emphasis_is_marked_up "We are " "certified" " today"
           eq_refl eq_refl eq_refl ltac:(discriminate) eq_refl).
Defined.

End MarkdownFacts.


Module HeadingFacts.
Import Heading.
Local Open Scope string_scope.

Lemma toUpperCase_spec (c : ascii) :
  is_word (toUpperCase c) = is_word c
  /\ is_lower (toUpperCase c) = false
  /\ (Ascii.eqb c "_" = false -> Ascii.eqb (toUpperCase c) "_" = false).
Proof.
  destruct c as [[] [] [] [] [] [] [] []]; vm_compute; repeat split;
    intros; congruence.
Qed.

Lemma space_not_word : is_word " " = false.
Proof. reflexivity. Qed.

Lemma capitalise_length (inside : bool) (s : string) :
  String.length (capitalise inside s) = String.length s.
Proof.
  revert inside; induction s as [| c s IH]; intros inside; [reflexivity |].
  cbn [capitalise String.length]. rewrite IH. reflexivity.
Qed.

Lemma label_length (s : string) : String.length (label s) = String.length s.
Proof.
  induction s as [| c s IH]; [reflexivity |].
  cbn [label String.length]. rewrite IH. reflexivity.
Qed.

Lemma label_no_underscore (s : string) : has_underscore (label s) = false.
Proof.
  induction s as [| c s IH]; [reflexivity |].
  cbn [label has_underscore]. rewrite IH.
  destruct (Ascii.eqb c "_") eqn:E; [reflexivity | rewrite E; reflexivity].
Qed.

Lemma label_id (s : string) : has_underscore s = false -> label s = s.
Proof.
  induction s as [| c s IH]; intros H; [reflexivity |].
  cbn [has_underscore] in H. apply orb_false_iff in H as [Hc Hs].
  cbn [label]. rewrite Hc, (IH Hs). reflexivity.
Qed.

Lemma capitalise_no_underscore (inside : bool) (s : string) :
  has_underscore s = false -> has_underscore (capitalise inside s) = false.
Proof.
  revert inside; induction s as [| c s IH]; intros inside H; [reflexivity |].
  cbn [has_underscore] in H. apply orb_false_iff in H as [Hc Hs].
  cbn [capitalise has_underscore]. rewrite (IH _ Hs), orb_false_r.
  destruct (is_word c && negb inside); [| exact Hc].
  apply toUpperCase_spec; exact Hc.
Qed.

Lemma capitalise_words (inside : bool) (s : string) :
  words_capitalised inside (capitalise inside s) = true.
Proof.
  revert inside; induction s as [| c s IH]; intros inside; [reflexivity |].
  cbn [capitalise words_capitalised].
  destruct (toUpperCase_spec c) as (Hw & Hl & _).
  destruct (is_word c && negb inside) eqn:E.
  - rewrite Hw, Hl, andb_false_r. cbn [negb andb]. apply IH.
  - rewrite E. cbn [negb andb]. apply IH.
Qed.

Lemma capitalise_idem (inside : bool) (s : string) :
  capitalise inside (capitalise inside s) = capitalise inside s.
Proof.
  revert inside; induction s as [| c s IH]; intros inside; [reflexivity |].
  cbn [capitalise]. destruct (toUpperCase_spec c) as (Hw & Hl & _).
  destruct (is_word c && negb inside) eqn:E.
  - rewrite Hw. rewrite E. rewrite IH. f_equal.
    unfold toUpperCase at 1. rewrite Hl. reflexivity.
  - rewrite E, IH. reflexivity.
Qed.

(** X26: the heading made from a key has the length of the key and no
    underscore, none of its words begins with a small letter, and making
    a heading of it again changes nothing. *)
Theorem heading_is_title_case (key : string) :
  String.length (heading key) = String.length key
  /\ has_underscore (heading key) = false
  /\ words_capitalised false (heading key) = true
  /\ heading (heading key) = heading key.
Proof.
  unfold heading. split; [| split; [| split]].
  - rewrite capitalise_length. apply label_length.
  - apply capitalise_no_underscore. apply label_no_underscore.
  - apply capitalise_words.
  - rewrite (label_id (capitalise false (label key))).
    + apply capitalise_idem.
    + apply capitalise_no_underscore. apply label_no_underscore.
Qed.

End HeadingFacts.


Module SectionStrengthFacts.
Import Strength Structure.
Local Open Scope list_scope.

Lemma length_filter_split {A : Type} (f : A -> bool) (l : list A) :
  List.length l
  = List.length (filter (fun x => negb (f x)) l) + List.length (filter f l).
Proof.
  induction l as [| x l IH]; [reflexivity |]. cbn [filter List.length].
  destruct (f x); cbn [negb List.length]; lia.
Qed.

Lemma existsb_filter {A : Type} (f : A -> bool) (l : list A) :
  existsb f l = (0 <? List.length (filter f l))%nat.
Proof.
  induction l as [| x l IH]; [reflexivity |]. cbn [existsb filter].
  destruct (f x); [reflexivity | exact IH].
Qed.

(** The counters of a rendered section count its questions. *)
Lemma rendered_counters
  (guide : option (list GuideItem)) (qs : list Question)
  (out : list Rendered) (r : Rendered) :
  renderResponseStructure guide qs = Sections out -> In r out ->
  requirementCount (info r)
  = List.length (filter (fun q => negb (isStrategic q)) (questions (info r)))
  /\ strategicCount (info r)
     = List.length (filter isStrategic (questions (info r))).
Proof.
  intros Hrender Hr.
  destruct (StructureFacts.rendered_sections_spec guide qs out Hrender)
    as [Hperm Hempty].
  destruct (isEmpty r) eqn:He.
  - rewrite Forall_forall in Hempty.
    destruct (Hempty r Hr He) as (Hq & Hreq & Hstr).
    rewrite Hq, Hreq, Hstr. split; reflexivity.
  - assert (Hin : In (info r) (collect qs)).
    { apply (Permutation_in _ Hperm). unfold with_questions.
      apply in_map. apply filter_In. split; [exact Hr |].
      rewrite He. reflexivity. }
    destruct (StructureFacts.collect_ok qs) as (_ & Hok & _).
    rewrite Forall_forall in Hok.
    destruct (Hok (info r) Hin) as (_ & _ & _ & Hreq & Hstr).
    split; assumption.
Qed.

(** C10: for every section that [renderResponseStructure] renders, the
    strength percentage lies between 0 and 100; it is 0 when the section
    has no question, and otherwise it is the smaller of 100 and ten times
    the number of questions of the section plus 30 when one of them is
    strategic. The number of questions is the sum of the two counters that
    the code adds up; in terms of the counters the same holds of every
    section object. *)
Theorem rendered_section_strength
  (guide : option (list GuideItem)) (qs : list Question)
  (out : list Rendered) (r : Rendered)
  (Hrender : renderResponseStructure guide qs = Sections out)
  (Hr : In r out) :
  let s := info r in
  let n := Z.of_nat (List.length (questions s)) in
  ((0 <= strengthPercent s <= 100)%Z
   /\ (questions s = [] -> strengthPercent s = 0%Z)
   /\ (questions s <> [] ->
       strengthPercent s
       = Z.min 100 (10 * n
                    + (if existsb isStrategic (questions s) then 30 else 0))%Z)
   /\ (Z.of_nat (requirementCount s) + Z.of_nat (strategicCount s))%Z = n)
  /\ (forall x : SectionInfo,
        let total := requirementCount x + strategicCount x in
        (0 <= strengthPercent x <= 100)%Z
        /\ (total = 0 -> strengthPercent x = 0%Z)
        /\ (total <> 0 ->
            strengthPercent x
            = Z.min 100 (10 * Z.of_nat total
                         + (if (0 <? strategicCount x)%nat
                            then 30 else 0))%Z)).
Proof.
  intros s n. subst s n. split.
  2: { intros x total. subst total.
       rewrite StrengthFacts.strengthPercent_counters.
       destruct (Nat.eqb_spec (requirementCount x + strategicCount x) 0)
         as [E | E].
       - repeat split; intros; lia.
       - destruct (0 <? strategicCount x)%nat; repeat split; intros; lia. }
  destruct (rendered_counters guide qs out r Hrender Hr) as [Hreq Hstr].
  rewrite StrengthFacts.strengthPercent_counters.
  rewrite (existsb_filter isStrategic), <- Hstr.
  assert (Hn : List.length (questions (info r))
               = requirementCount (info r) + strategicCount (info r))
    by (rewrite Hreq, Hstr; apply length_filter_split).
  rewrite Hn.
  split; [| split; [| split]].
  - destruct (requirementCount (info r) + strategicCount (info r) =? 0)%nat;
      destruct (0 <? strategicCount (info r))%nat; lia.
  - intros Hq. rewrite Hq in Hn. cbn [List.length] in Hn. rewrite <- Hn.
    reflexivity.
  - intros Hq.
    destruct (Nat.eqb_spec
                (requirementCount (info r) + strategicCount (info r)) 0)
      as [E | _]; [| reflexivity].
    exfalso. apply Hq. rewrite E in Hn.
    destruct (questions (info r)); [reflexivity | discriminate Hn].
  - lia.
Qed.

Lemma rendered_section_strength_witness :
  exists out r,
    renderResponseStructure None sample_questions = Sections out
    /\ nth_error out 1 = Some r
    /\ title (info r) = "Pricing"
    /\ List.length (questions (info r)) = 2
    /\ strengthPercent (info r) = 50%Z
    /\ (0 <= strengthPercent (info r) <= 100)%Z.
Proof.
  eexists. eexists.
  split; [reflexivity |]. split; [reflexivity |].
  split; [reflexivity |]. split; [reflexivity |]. split; [reflexivity |].
  exact (proj1 (proj1 (rendered_section_strength None sample_questions _ _
                         eq_refl (or_intror (or_introl eq_refl))))).
Defined.

End SectionStrengthFacts.
